(** * internet-search-bot: the agent loop and the search client

    A shallow embedding of the two algorithmic parts of the repository:

    - [src/bots/main_bot/mcp_client.py]: [MCPClient.process_query] (the bounded
      model/tool loop) and [MCPClient.cleanup];
    - [src/bots/main_bot/yandex_search.py]: [_parse_search_results],
      [optimize_results] and [YandexSearchAPI.search].

    Python code that can raise is embedded in a state-and-exception monad:
    a computation takes the mutable state and gives back either a value or
    the exception raised, together with the state reached at that point.
    Everything the program does not compute itself (the model endpoint, the
    tool session, the HTTP server, the XML parser) is an interface whose
    operations may return or raise. *)

From Stdlib Require Import List String Ascii Bool Arith ZArith NArith Lia.
From Stdlib Require Import DecimalString.
From Equations Require Import Equations.
Import ListNotations.

Set Implicit Arguments.

(** ** Python values, exceptions and control flow *)

Module Py.

(** The exception classes the handlers of the program tell apart.
    [TimeoutError] is [asyncio.TimeoutError], [ParseError] is
    [xml.etree.ElementTree.ParseError]; every other subclass of [Exception]
    is [OtherException] with the text [str(e)] gives. What is not an
    [Exception] (the cancellation of the task, a keyboard interrupt) is caught
    by no handler of the program and is left out. *)
Inductive exn : Type :=
| TimeoutError
| ParseError (msg : string)
| OtherException (msg : string).

(** [str(e)] *)
Definition str_exn (e : exn) : string :=
  match e with
  | TimeoutError => ""
  | ParseError msg => msg
  | OtherException msg => msg
  end.

Inductive result (A : Type) : Type :=
| Return (a : A)
| Raise (e : exn).
Arguments Return {A} a.
Arguments Raise {A} e.

(** A computation over the mutable state [S]. The state is returned in both
    cases: what a [try] body did before it raised is not undone. *)
Definition M (S A : Type) : Type := S -> result A * S.

Definition ret {S A} (a : A) : M S A := fun s => (Return a, s).

Definition raise {S A} (e : exn) : M S A := fun s => (Raise e, s).

Definition bind {S A B} (m : M S A) (k : A -> M S B) : M S B :=
  fun s =>
    match m s with
    | (Return a, s') => k a s'
    | (Raise e, s') => (Raise e, s')
    end.

(** [try: body / except Exception as e: handler(e)] *)
Definition try_except {S A} (body : M S A) (handler : exn -> M S A) : M S A :=
  fun s =>
    match body s with
    | (Return a, s') => (Return a, s')
    | (Raise e, s') => handler e s'
    end.

(** [try: body / ... / finally: final] where the handlers are already part of
    [body] and [final] does not raise. *)
Definition try_finally {S A} (body : M S A) (final : S -> S) : M S A :=
  fun s => let (r, s') := body s in (r, final s').

(** Evaluating an expression that may raise but touches no state. *)
Definition lift {S A} (r : result A) : M S A := fun s => (r, s).

(** A statement that only updates the state. *)
Definition modify {S} (f : S -> S) : M S unit := fun s => (Return tt, f s).

Definition gets {S A} (f : S -> A) : M S A := fun s => (Return (f s), s).

(** How the body of a loop ends: it falls through (or hits [continue]), or
    it hits [break]. *)
Inductive flow : Type := Continue | Break.

(** [for x in xs: body(x)] *)
Fixpoint for_each {S A} (body : A -> M S flow) (xs : list A) : M S unit :=
  match xs with
  | [] => ret tt
  | x :: rest =>
      bind (body x) (fun f =>
        match f with
        | Break => ret tt
        | Continue => for_each body rest
        end)
  end.

Definition when {S} (b : bool) (m : M S unit) : M S unit :=
  if b then m else ret tt.

(** [dict.get(key, default)] on a key that may be missing. *)
Definition get_default {A} (o : option A) (default : A) : A :=
  match o with
  | Some a => a
  | None => default
  end.

(** Truth value of an optional string: [None] and [""] are false. *)
Definition truthy (o : option string) : bool :=
  match o with
  | Some EmptyString => false
  | Some _ => true
  | None => false
  end.

(** [str(n)] for a non-negative integer. *)
Definition str_nat (n : nat) : string := NilZero.string_of_uint (Nat.to_uint n).

(** The line feed of the Python literals ["\n"]. *)
Definition nl : string := String (ascii_of_nat 10) EmptyString.

(** [sep.join(parts)] *)
Fixpoint join (sep : string) (parts : list string) : string :=
  match parts with
  | [] => ""
  | [p] => p
  | p :: rest => p ++ sep ++ join sep rest
  end.

End Py.

Export Py.

Declare Scope py_scope.
Delimit Scope py_scope with py.
Notation "x <- m ;; k" := (bind m (fun x => k))
  (at level 61, m at next level, right associativity) : py_scope.
Notation "m ;; k" := (bind m (fun _ => k))
  (at level 61, right associativity) : py_scope.
Open Scope py_scope.
Open Scope string_scope.

(** ** The agent loop: [mcp_client.py] *)

Module MCPClient.

(** *** Data *)

(** A parsed JSON value, as [json.loads] and [response.json()] build it
    (numbers are the integers). *)
#[local] Unset Elimination Schemes.
Inductive json : Type :=
| JNull
| JBool (b : bool)
| JNumber (z : Z)
| JString (s : string)
| JList (items : list json)
| JDict (entries : list (string * json)).
#[local] Set Elimination Schemes.

(** [type(x).__name__] *)
Definition type_name (x : json) : string :=
  match x with
  | JNull => "NoneType"
  | JBool _ => "bool"
  | JNumber _ => "int"
  | JString _ => "str"
  | JList _ => "list"
  | JDict _ => "dict"
  end.

(** [bool(x)] *)
Definition json_truthy (x : json) : bool :=
  match x with
  | JNull => false
  | JBool b => b
  | JNumber z => negb (z =? 0)%Z
  | JString s => negb (s =? "")%string
  | JList items => match items with [] => false | _ :: _ => true end
  | JDict entries => match entries with [] => false | _ :: _ => true end
  end.

(** The value under a key of a dict, given by its items. *)
Fixpoint assoc (key : string) (entries : list (string * json)) : option json :=
  match entries with
  | [] => None
  | (k, v) :: rest => if (k =? key)%string then Some v else assoc key rest
  end.

(** The [AttributeError] of [x.name] on a value that has no such attribute:
    no value made from JSON has [get] but a dict, and none has [name],
    [description] or [inputSchema]. *)
Definition attribute_error (x : json) (name : string) : exn :=
  OtherException ("'" ++ type_name x ++ "' object has no attribute '" ++ name ++ "'").

(** [x.get(key, default)] *)
Definition dict_get (x : json) (key : string) (default : json) : result json :=
  match x with
  | JDict entries => Return (get_default (assoc key entries) default)
  | _ => Raise (attribute_error x "get")
  end.

(** A tool of the catalog as the stdio session gives it ([mcp.types.Tool]):
    the description and the schema are optional there. *)
Record tool_descriptor : Type := {
  tool_name : string;
  tool_description : option string;
  tool_inputSchema : option json
}.

(** An entry of [self.available_tools]: a [Tool] object on the stdio side;
    on the HTTP side whatever the [/tools] reply lists, as parsed from JSON. *)
Inductive catalog_entry : Type :=
| ToolObject (t : tool_descriptor)
| ToolJson (x : json).

Inductive role : Type := system | user | assistant | tool.

(** A message of the conversation. [msg_content] is [None] when the model
    sent [null]; the tool calls are the entries of the model's list as they
    came, and [msg_tool_call_id] is what a call has under ["id"]. *)
Record message : Type := {
  msg_role : role;
  msg_content : option string;
  msg_tool_calls : option (list json);
  msg_tool_call_id : option json
}.

(** What [_call_llm] returns: [content] and [tool_calls], both read with
    [dict.get]; a missing or [null] [tool_calls] is the empty list, which is
    as false as they are. The entries of [tool_calls] are JSON values of any
    kind. *)
Record llm_response : Type := {
  resp_content : option string;
  resp_tool_calls : list json
}.

(** An item of a tool result; [hasattr(item, 'text')] is [item_text <> None]. *)
Record content_item : Type := {
  item_text : option string
}.

(** An entry of [_format_tools_for_llm]. *)
Record llm_tool : Type := {
  lt_name : string;
  lt_description : option string;
  lt_parameters : json
}.

(** An entry of [_tools_description]. *)
Record tool_summary : Type := {
  ts_name : string;
  ts_description : string;
  ts_inputSchema : option json
}.

(** An attribute of an object: missing ([hasattr] is false), set to [None],
    or holding an object. *)
Inductive attribute : Type := Missing | IsNone | Holds.

Definition hasattr (a : attribute) : bool :=
  match a with
  | Missing => false
  | _ => true
  end.

(** The attributes of [self] that [process_query] and [cleanup] read. *)
Record client : Type := {
  instructions : option string;
  available_tools : list catalog_entry;
  has_mcp_client : bool;           (* hasattr(self, "mcp_client") *)
  exit_stack : attribute
}.

(** What the loop asks of the outside. A tool is asked for under whatever
    the call has as its name. *)
Inductive event : Type :=
| LogIteration (n : nat)           (* logger.info(f"Итерация {i+1}/{max_iterations}") *)
| LLMRequest (wrap_up : bool)      (* self._call_llm, in the loop or for the final answer *)
| ToolRequest (name : json).       (* call_tool *)

(** *** The outside world

    [W] is the state of everything outside the process. Each operation is
    the awaited call under [asyncio.wait_for]: it returns, raises
    [TimeoutError], or raises something else. *)
Class Backend (W : Type) : Type := {
  json_loads : string -> result json;
  llm_call : list message -> list llm_tool -> W -> result llm_response * W;
  http_call_tool : json -> json -> W -> result (list content_item) * W;
  stdio_call_tool : json -> json -> W -> result (list content_item) * W;
  (* re.sub(r' {2,}', ' ', re.sub(r'\n|\t|-{5,}', ' ', d)).strip() *)
  normalize_description : string -> string;
  (* str() of the list of dicts inside the f-string *)
  repr_summaries : list tool_summary -> string;
  (* str() of a list or a dict inside an f-string *)
  repr_json : json -> string
}.

(** *** The frame of [process_query]: the local lists it mutates, the world
    and the record of what was asked of it. *)
Record frame (W : Type) : Type := {
  world : W;
  log : list event;
  messages : list message;
  final_text : list string;
  tool_results : list string
}.

Section Loop.

Context {W : Type} {B : Backend W}.

Definition set_world (w : W) (s : frame W) : frame W :=
  {| world := w; log := log s; messages := messages s;
     final_text := final_text s; tool_results := tool_results s |}.

Definition record_event (e : event) : M (frame W) unit :=
  modify (fun s =>
    {| world := world s; log := log s ++ [e]; messages := messages s;
       final_text := final_text s; tool_results := tool_results s |}).

Definition set_messages (ms : list message) : M (frame W) unit :=
  modify (fun s =>
    {| world := world s; log := log s; messages := ms;
       final_text := final_text s; tool_results := tool_results s |}).

(** [messages.append(m)] *)
Definition append_message (m : message) : M (frame W) unit :=
  modify (fun s =>
    {| world := world s; log := log s; messages := messages s ++ [m];
       final_text := final_text s; tool_results := tool_results s |}).

(** [final_text.append(t)] *)
Definition append_final_text (t : string) : M (frame W) unit :=
  modify (fun s =>
    {| world := world s; log := log s; messages := messages s;
       final_text := final_text s ++ [t]; tool_results := tool_results s |}).

Definition set_tool_results (l : list string) : M (frame W) unit :=
  modify (fun s =>
    {| world := world s; log := log s; messages := messages s;
       final_text := final_text s; tool_results := l |}).

(** [tool_results.append(t)] *)
Definition append_tool_result (t : string) : M (frame W) unit :=
  modify (fun s =>
    {| world := world s; log := log s; messages := messages s;
       final_text := final_text s; tool_results := tool_results s ++ [t] |}).

(** Running an operation of the backend on the world of the frame. *)
Definition perform {A} (op : W -> result A * W) : M (frame W) A :=
  fun s => let (r, w) := op (world s) in (r, set_world w s).

(** [str(x)], as an f-string writes a value. *)
Definition py_str (x : json) : string :=
  match x with
  | JNull => "None"
  | JBool true => "True"
  | JBool false => "False"
  | JNumber z => NilZero.string_of_int (Z.to_int z)
  | JString s => s
  | _ => repr_json x
  end.

(** [await asyncio.wait_for(self._call_llm(messages, tools), timeout=...)] *)
Definition await_llm (wrap_up : bool) (tools : list llm_tool) : M (frame W) llm_response :=
  record_event (LLMRequest wrap_up) ;;
  ms <- gets (@messages W) ;;
  perform (llm_call ms tools).

(** [await asyncio.wait_for(<client>.call_tool(tool_name, arguments), ...)],
    on the HTTP client when [self] has one and on the stdio session
    otherwise. *)
Definition await_tool (c : client) (tool_name : json) (arguments : json)
  : M (frame W) (list content_item) :=
  record_event (ToolRequest tool_name) ;;
  if has_mcp_client c
  then perform (http_call_tool tool_name arguments)
  else perform (stdio_call_tool tool_name arguments).

(** *** [_format_tool_result] *)
Definition _format_tool_result (content_list : list content_item) : string :=
  join nl (flat_map (fun item =>
                       match item_text item with
                       | Some t => [t]
                       | None => []
                       end) content_list).

(** *** [_tools_description]: [tool.name] raises [AttributeError] on an entry
    that is not a [Tool] object, and [re.sub] raises [TypeError] on a
    description that is [None]. *)
Fixpoint _tools_description (tools : list catalog_entry) : result (list tool_summary) :=
  match tools with
  | [] => Return []
  | ToolJson x :: _ => Raise (attribute_error x "name")
  | ToolObject t :: rest =>
      match tool_description t with
      | None => Raise (OtherException "expected string or bytes-like object, got 'NoneType'")
      | Some d =>
          match _tools_description rest with
          | Return l =>
              Return ({| ts_name := tool_name t;
                         ts_description := normalize_description d;
                         ts_inputSchema := tool_inputSchema t |} :: l)
          | Raise e => Raise e
          end
      end
  end.

(** [str(x)] inside an f-string, for an optional string. *)
Definition str_option (o : option string) : string := get_default o "None".

(** *** [_create_system_message] *)
Definition _create_system_message (c : client) : result string :=
  match _tools_description (available_tools c) with
  | Return l =>
      Return (str_option (instructions c) ++ nl ++ nl
              ++ "У тебя есть доступ к следующим инструментам:" ++ nl
              ++ repr_summaries l)
  | Raise e => Raise e
  end.

(** [tool.inputSchema or {}] *)
Definition schema_or_empty (schema : option json) : json :=
  match schema with
  | Some x => if json_truthy x then x else JDict []
  | None => JDict []
  end.

(** *** [_format_tools_for_llm]: the first attribute read of an entry is
    [tool.inputSchema]. *)
Fixpoint format_tools (tools : list catalog_entry) : result (list llm_tool) :=
  match tools with
  | [] => Return []
  | ToolJson x :: _ => Raise (attribute_error x "inputSchema")
  | ToolObject t :: rest =>
      match format_tools rest with
      | Return l =>
          Return ({| lt_name := tool_name t;
                     lt_description := tool_description t;
                     lt_parameters := schema_or_empty (tool_inputSchema t) |} :: l)
      | Raise e => Raise e
      end
  end.

Definition _format_tools_for_llm (c : client) : result (list llm_tool) :=
  format_tools (available_tools c).

(** *** One tool call: the body of [for tool_call in tool_calls] *)

(** [json.loads(x)]: a [TypeError] on a value that is not a string. *)
Definition loads (x : json) : result json :=
  match x with
  | JString text => json_loads text
  | _ =>
      Raise (OtherException
               ("the JSON object must be str, bytes or bytearray, not " ++ type_name x))
  end.

Definition tool_message (tool_call_id : json) (content : string) : message :=
  {| msg_role := tool; msg_content := Some content;
     msg_tool_calls := None; msg_tool_call_id := Some tool_call_id |}.

(** The statements inside the [try] of a tool call. *)
Definition tool_attempt (c : client) (function tool_name tool_call_id : json)
  : M (frame W) unit :=
  text <- lift (dict_get function "arguments" (JString "{}")) ;;
  arguments <- lift (loads text) ;;
  result <- await_tool c tool_name arguments ;;
  let tool_result := _format_tool_result result in
  append_tool_result tool_result ;;
  append_message (tool_message tool_call_id tool_result).

(** The text a failed tool call is answered with. *)
Definition tool_failure_text (tool_name : json) (e : exn) : string :=
  match e with
  | TimeoutError => "Таймаут при вызове инструмента " ++ py_str tool_name
  | _ => "Ошибка при вызове инструмента " ++ py_str tool_name ++ ": " ++ str_exn e
  end.

(** The three reads come before the [try]: what they raise leaves the loop
    over the tool calls. *)
Definition handle_tool_call (c : client) (tool_call : json) : M (frame W) flow :=
  function <- lift (dict_get tool_call "function" (JDict [])) ;;
  tool_name <- lift (dict_get function "name" (JString "")) ;;
  tool_call_id <- lift (dict_get tool_call "id" (JString "")) ;;
  try_except
    (tool_attempt c function tool_name tool_call_id)
    (fun e =>
       let error_message := tool_failure_text tool_name e in
       append_tool_result error_message ;;
       append_message (tool_message tool_call_id error_message)) ;;
  ret Continue.

(** *** The extra model call of the last iteration *)
Definition final_answer (tools : list llm_tool) : M (frame W) unit :=
  try_except
    (final_response <- await_llm true tools ;;
     let final_content := resp_content final_response in
     when (truthy final_content)
          (append_final_text (nl ++ "Итоговый ответ: " ++ get_default final_content "")))
    (fun e =>
       match e with
       | TimeoutError =>
           append_final_text (nl ++ "Таймаут при получении финального ответа")
       | _ => ret tt
       end).

Definition max_iterations : nat := 10.

(** *** One iteration: the body of [for i in range(max_iterations)] *)

(** The statements inside its [try]. *)
Definition iteration_body (c : client) (tools : list llm_tool) (i : nat)
  : M (frame W) flow :=
  llm_response <- await_llm false tools ;;
  let tool_calls := resp_tool_calls llm_response in
  let content := resp_content llm_response in
  when (truthy content) (append_final_text (get_default content "")) ;;
  match tool_calls with
  | [] => ret Break
  | _ :: _ =>
      append_message {| msg_role := assistant; msg_content := content;
                        msg_tool_calls := Some tool_calls;
                        msg_tool_call_id := None |} ;;
      set_tool_results [] ;;
      for_each (handle_tool_call c) tool_calls ;;
      results <- gets (@tool_results W) ;;
      when ((i =? max_iterations - 1)%nat && negb (List.length results =? 0)%nat)
           (final_answer tools) ;;
      ret Continue
  end.

(** The text its handlers append to the transcript. *)
Definition iteration_failure_text (i : nat) (e : exn) : string :=
  match e with
  | TimeoutError => "Таймаут LLM на итерации " ++ str_nat (i + 1)
  | _ => "Ошибка на итерации " ++ str_nat (i + 1) ++ ": " ++ str_exn e
  end.

Definition iteration (c : client) (tools : list llm_tool) (i : nat) : M (frame W) flow :=
  record_event (LogIteration (i + 1)) ;;
  try_except
    (iteration_body c tools i)
    (fun e =>
       let error_message := iteration_failure_text i e in
       append_final_text (nl ++ error_message) ;;
       ret Break).

(** [final_text[len(final_text) - 1] if len(final_text) > 0 else "Пустой ответ."] *)
Definition select_result (final_text : list string) : string :=
  if (0 <? List.length final_text)%nat
  then nth (List.length final_text - 1) final_text ""
  else "Пустой ответ.".

Definition system_message (content : string) : message :=
  {| msg_role := system; msg_content := Some content;
     msg_tool_calls := None; msg_tool_call_id := None |}.

Definition user_message (content : string) : message :=
  {| msg_role := user; msg_content := Some content;
     msg_tool_calls := None; msg_tool_call_id := None |}.

(** The statements inside the outer [try]. *)
Definition process_query_body (c : client) (query : string) : M (frame W) string :=
  system_message_text <- lift (_create_system_message c) ;;
  set_messages [system_message system_message_text; user_message query] ;;
  tools <- lift (_format_tools_for_llm c) ;;
  for_each (iteration c tools) (seq 0 max_iterations) ;;
  final <- gets (@final_text W) ;;
  ret (select_result final).

(** *** [process_query] *)
Definition process_query (c : client) (query : string) : M (frame W) string :=
  try_except
    (process_query_body c query)
    (fun e => ret ("Критическая ошибка при обработке запроса: " ++ str_exn e)).

(** The frame at entry: [final_text = []], nothing asked yet. *)
Definition entry (w : W) : frame W :=
  {| world := w; log := []; messages := []; final_text := []; tool_results := [] |}.

End Loop.

(** *** [cleanup] *)

(** The three things [cleanup] closes; each call may raise. *)
Class Resources (W : Type) : Type := {
  http_client_aclose : W -> result unit * W;     (* self.http_client.aclose() *)
  mcp_client_close : W -> result unit * W;       (* self.mcp_client.close() *)
  exit_stack_aclose : W -> result unit * W       (* self.exit_stack.aclose() *)
}.

Inductive close_step : Type := CloseHttpClient | CloseMcpClient | CloseExitStack.

(** [self], the world, and the close calls made so far. *)
Record teardown (W : Type) : Type := {
  td_self : client;
  td_world : W;
  td_steps : list close_step
}.

Section Cleanup.

Context {W : Type} {R : Resources W}.

Definition closing (step : close_step) (op : W -> result unit * W) : M (teardown W) unit :=
  fun s =>
    let (r, w) := op (td_world s) in
    (r, {| td_self := td_self s; td_world := w; td_steps := td_steps s ++ [step] |}).

(** [self.exit_stack = None] *)
Definition clear_exit_stack (s : teardown W) : teardown W :=
  {| td_self := {| instructions := instructions (td_self s);
                   available_tools := available_tools (td_self s);
                   has_mcp_client := has_mcp_client (td_self s);
                   exit_stack := IsNone |};
     td_world := td_world s;
     td_steps := td_steps s |}.

(** [await self.exit_stack.aclose()]: on [None] the attribute lookup raises
    before anything is called. *)
Definition aclose_exit_stack : M (teardown W) unit :=
  st <- gets (fun s => exit_stack (td_self s)) ;;
  match st with
  | Holds => closing CloseExitStack exit_stack_aclose
  | _ => raise (OtherException "'NoneType' object has no attribute 'aclose'")
  end.

Definition cleanup : M (teardown W) unit :=
  try_except (closing CloseHttpClient http_client_aclose) (fun _ => ret tt) ;;
  has_mcp <- gets (fun s => has_mcp_client (td_self s)) ;;
  when has_mcp
       (try_except (closing CloseMcpClient mcp_client_close) (fun _ => ret tt)) ;;
  has_stack <- gets (fun s => hasattr (exit_stack (td_self s))) ;;
  when has_stack
       (try_finally
          (try_except aclose_exit_stack (fun _ => ret tt))
          clear_exit_stack) ;;
  ret tt.

Definition at_rest (c : client) (w : W) : teardown W :=
  {| td_self := c; td_world := w; td_steps := [] |}.

End Cleanup.

End MCPClient.

(** ** The search client: [yandex_search.py] *)

Module YandexSearch.

#[local] Open Scope list_scope.

(** *** Text

    [len], [strip] and the tag pattern work on code points, so the text of
    this module is a list of code points. *)
Definition ustr : Type := list N.

(** An ASCII literal as code points. *)
Definition u (s : string) : ustr := map N_of_ascii (list_ascii_of_string s).

Fixpoint ustr_eqb (a b : ustr) : bool :=
  match a, b with
  | [], [] => true
  | x :: a', y :: b' => (x =? y)%N && ustr_eqb a' b'
  | _, _ => false
  end.

(** [bool(s)] for a string *)
Definition nonempty (s : ustr) : bool :=
  match s with
  | [] => false
  | _ :: _ => true
  end.

(** [str.isspace] on one code point. *)
Definition isspace (c : N) : bool :=
  ((9 <=? c) && (c <=? 13) || (28 <=? c) && (c <=? 32)
   || (c =? 133) || (c =? 160) || (c =? 5760)
   || (8192 <=? c) && (c <=? 8202)
   || (c =? 8232) || (c =? 8233) || (c =? 8239) || (c =? 8287)
   || (c =? 12288))%N.

Fixpoint lstrip (s : ustr) : ustr :=
  match s with
  | [] => []
  | c :: rest => if isspace c then lstrip rest else s
  end.

(** [s.strip()] *)
Definition strip (s : ustr) : ustr := rev (lstrip (rev (lstrip s))).

(** [sep.join(parts)] *)
Fixpoint ujoin (sep : ustr) (parts : list ustr) : ustr :=
  match parts with
  | [] => []
  | [p] => p
  | p :: rest => p ++ sep ++ ujoin sep rest
  end.

Definition lt_sign : N := 60.   (* '<' *)
Definition gt_sign : N := 62.   (* '>' *)

(** Whether [<[^>]+>] matches right after a ['<']: the next code point is not
    ['>'] and a ['>'] follows later. *)
Definition opens_tag (after : ustr) : bool :=
  match after with
  | [] => false
  | c :: rest => negb (c =? gt_sign)%N && existsb (N.eqb gt_sign) rest
  end.

(** [re.sub(r"<[^>]+>", "", text)], in one pass. [[^>]+] cannot run over a
    ['>'], so a match that starts at a ['<'] ends at the first ['>'] after it;
    [inside] is true while the pass is between the two. *)
Fixpoint sub_tags (inside : bool) (text : ustr) : ustr :=
  match text with
  | [] => []
  | c :: rest =>
      if inside
      then (if (c =? gt_sign)%N then sub_tags false rest else sub_tags true rest)
      else if (c =? lt_sign)%N && opens_tag rest
           then sub_tags true rest
           else c :: sub_tags false rest
  end.

(** *** [_clean_text] *)
Definition _clean_text (text : ustr) : ustr :=
  if negb (nonempty text) then [] else strip (sub_tags false text).

(** *** XML elements ([xml.etree.ElementTree.Element]) *)

#[local] Unset Elimination Schemes.
Inductive element : Type :=
| Element (tag : ustr) (text : option ustr) (tail : option ustr) (children : list element).
#[local] Set Elimination Schemes.

Definition tag_of (e : element) : ustr := let (t, _, _, _) := e in t.
Definition text_of (e : element) : option ustr := let (_, t, _, _) := e in t.
Definition tail_of (e : element) : option ustr := let (_, _, t, _) := e in t.
Definition children_of (e : element) : list element := let (_, _, _, cs) := e in cs.

(** [if t: yield t] *)
Definition yield_text (t : option ustr) : list ustr :=
  match t with
  | Some (c :: s) => [c :: s]
  | _ => []
  end.

(** [element.itertext()]: the text of the element, then for each child its
    own [itertext] and its tail. *)
Fixpoint itertext (e : element) : list ustr :=
  match e with
  | Element _ text _ children =>
      yield_text text
      ++ flat_map (fun child => itertext child ++ yield_text (tail_of child)) children
  end.

(** [element.iter(tag)]: the element itself and all its descendants, in
    document order, that carry the tag. *)
Fixpoint iter (tag : ustr) (e : element) : list element :=
  match e with
  | Element t _ _ children =>
      (if ustr_eqb t tag then [e] else []) ++ flat_map (iter tag) children
  end.

(** [element.find(tag)]: the first child with the tag. *)
Definition find (e : element) (tag : ustr) : option element :=
  List.find (fun child => ustr_eqb (tag_of child) tag) (children_of e).

(** [element.findtext(tag, default)]: the text of that child, [""] when its
    text is [None], [default] when there is no such child. *)
Definition findtext (e : element) (tag : ustr) (default : ustr) : ustr :=
  match find e tag with
  | Some child => get_default (text_of child) []
  | None => default
  end.

(** [bool(e)] for [e : Optional[Element]]: an element without children is
    false, like [None]. *)
Definition element_truthy (e : option element) : bool :=
  match e with
  | Some (Element _ _ _ (_ :: _)) => true
  | _ => false
  end.

(** *** [_get_element_full_text] *)
Definition _get_element_full_text (e : option element) : ustr :=
  match e with
  | Some el => strip (List.concat (itertext el))
  | None => []
  end.

(** *** Result records: the dict [_parse_search_results] builds. [content] is
    read with [dict.get] by [optimize_results], so it may be missing. *)
Record search_result : Type := {
  url : ustr;
  domain : ustr;
  title : ustr;
  headline : ustr;
  modtime : ustr;
  lang : ustr;
  content : option ustr
}.

(** The three sources of the content of a document. *)
Definition extended_text (doc_elem : element) : ustr :=
  let properties_elem := find doc_elem (u "properties") in
  if element_truthy properties_elem
  then match properties_elem with
       | Some p =>
           match find p (u "extended-text") with
           | Some ext_elem => _get_element_full_text (Some ext_elem)
           | None => []
           end
       | None => []
       end
  else [].

Definition passages_text (doc_elem : element) : ustr :=
  ujoin (u " ")
        (filter nonempty
                (map (fun passage_elem => _get_element_full_text (Some passage_elem))
                     (iter (u "passage") doc_elem))).

(** The body of the inner [try] of [_parse_search_results]. *)
Definition extract_doc (doc_elem : element) : search_result :=
  let url := findtext doc_elem (u "url") [] in
  let domain := findtext doc_elem (u "domain") [] in
  let title := _clean_text (_get_element_full_text (find doc_elem (u "title"))) in
  let headline := _clean_text (_get_element_full_text (find doc_elem (u "headline"))) in
  let modtime := findtext doc_elem (u "modtime") [] in
  let properties_elem := find doc_elem (u "properties") in
  let lang :=
    if element_truthy properties_elem
    then match properties_elem with
         | Some p => findtext p (u "lang") []
         | None => []
         end
    else [] in
  (* priority 1 *)
  let content := extended_text doc_elem in
  (* priority 2 *)
  let content := if negb (nonempty content) then passages_text doc_elem else content in
  (* priority 3 *)
  let content :=
    if negb (nonempty content) && nonempty headline then headline else content in
  {| url := url; domain := domain; title := title; headline := headline;
     modtime := modtime; lang := lang; content := Some (_clean_text content) |}.

(** *** [_parse_search_results]

    [ET.fromstring] is the parser of the standard library. The loop is given
    for any extraction step that may raise; the program's own is
    [extract_doc]. *)
Class XmlParser : Type := {
  fromstring : ustr -> result element
}.

Section Parse.

Context {P : XmlParser}.

Definition parse_doc (extract : element -> result search_result) (doc_elem : element)
  : M (list search_result) flow :=
  try_except
    (r <- lift (extract doc_elem) ;;
     modify (fun parsed_results => parsed_results ++ [r]))
    (fun _ => ret tt) ;;
  ret Continue.

Definition _parse_search_results_with
    (extract : element -> result search_result) (xml_content : ustr)
  : result (list search_result) :=
  fst (try_except
         (root <- lift (fromstring xml_content) ;;
          modify (fun _ => []) ;;
          for_each (parse_doc extract) (iter (u "doc") root) ;;
          gets (fun parsed_results => parsed_results))
         (fun e =>
            match e with
            | ParseError _ => ret []
            | _ => ret []
            end)
         []).

Definition _parse_search_results (xml_content : ustr) : result (list search_result) :=
  _parse_search_results_with (fun doc_elem => Return (extract_doc doc_elem)) xml_content.

End Parse.

(** *** [optimize_results] *)

(** [max_length] is an [int] or [float('inf')]. *)
Inductive bound : Type := Finite (z : Z) | Infinity.

(** [b > n] *)
Definition above (b : bound) (n : Z) : bool :=
  match b with
  | Finite z => (n <? z)%Z
  | Infinity => true
  end.

Definition len (s : ustr) : Z := Z.of_nat (List.length s).

Definition keeps (min_length : Z) (max_length : bound) (item : search_result) : bool :=
  match content item with
  | Some c => nonempty c && (above max_length (len c) && (min_length <? len c)%Z)
  | None => false
  end.

Definition optimize_results (parsed_results : list search_result)
    (min_length : Z) (max_length : bound) : list search_result :=
  filter (keeps min_length max_length) parsed_results.

(** *** [YandexSearchAPI.search] *)

(** The query descriptor posted for one page, with the arguments of [search]
    that vary; the other entries are constants of the client or overrides. *)
Record request_body : Type := {
  query_text : ustr;
  page : Z;
  groups_on_page : Z;
  docs_in_group : Z;
  max_passages : Z
}.

(** The response of the submission: its status, [await resp.text()] and
    [(await resp.json())["id"]]; reading the body may raise. *)
Record post_response : Type := {
  post_status : Z;
  post_text : result string;
  post_id : result string
}.

(** The operation a status call returns: [operation.get("done")] and
    [base64.b64decode(operation["response"]["rawData"]).decode("utf-8")],
    which raises when the key is missing or the data does not decode. *)
Record operation : Type := {
  op_done : bool;
  op_payload : result ustr
}.

(** The response of a status call: its status and [await resp.json()]. *)
Record get_response : Type := {
  get_status : Z;
  get_json : result operation
}.

(** The HTTP session ([aiohttp.ClientSession]) and the clock. *)
Class Network (W : Type) : Type := {
  session_enter : W -> result unit * W;
  session_exit : W -> result unit * W;
  session_post : request_body -> W -> result post_response * W;
  session_get : string -> W -> result get_response * W;
  sleep : Z -> W -> W                              (* asyncio.sleep *)
}.

Inductive net_event : Type :=
| Post (page : Z)
| Get (op_id : string)
| Sleep (seconds : Z).

(** The world, the calls made, and the two local lists of [search]. *)
Record search_state (W : Type) : Type := {
  net : W;
  calls : list net_event;
  operations : list string;
  xml_results : list ustr
}.

Section Search.

Context {W : Type} {Net : Network W} {P : XmlParser}.

Definition calling {A} (e : net_event) (op : W -> result A * W) : M (search_state W) A :=
  fun s =>
    let (r, w) := op (net s) in
    (r, {| net := w; calls := calls s ++ [e];
           operations := operations s; xml_results := xml_results s |}).

(** [await asyncio.sleep(seconds)] *)
Definition sleeping (seconds : Z) (s : search_state W) : search_state W :=
  {| net := sleep seconds (net s); calls := calls s ++ [Sleep seconds];
     operations := operations s; xml_results := xml_results s |}.

(** [operations.append(id)] *)
Definition append_operation (id : string) : M (search_state W) unit :=
  modify (fun s =>
    {| net := net s; calls := calls s;
       operations := operations s ++ [id]; xml_results := xml_results s |}).

(** [xml_results.append(xml)] *)
Definition append_xml (xml : ustr) (s : search_state W) : search_state W :=
  {| net := net s; calls := calls s;
     operations := operations s; xml_results := xml_results s ++ [xml] |}.

(** [async with enter ... : body]: the exit runs on both ways out, and an
    exception of the exit replaces the outcome of the body. *)
Definition async_with {A} (body : M (search_state W) A) : M (search_state W) A :=
  fun s =>
    match session_enter (net s) with
    | (Raise e, w) =>
        (Raise e, {| net := w; calls := calls s;
                     operations := operations s; xml_results := xml_results s |})
    | (Return _, w) =>
        let (r, s1) := body {| net := w; calls := calls s;
                               operations := operations s;
                               xml_results := xml_results s |} in
        match session_exit (net s1) with
        | (Raise e, w1) =>
            (Raise e, {| net := w1; calls := calls s1;
                         operations := operations s1; xml_results := xml_results s1 |})
        | (Return _, w1) =>
            (r, {| net := w1; calls := calls s1;
                   operations := operations s1; xml_results := xml_results s1 |})
        end
    end.

(** The body of [for page in pages_to_fetch]. *)
Definition submit (query : ustr) (groups docs passages : Z) (page_number : Z)
  : M (search_state W) flow :=
  let body := {| query_text := query; page := page_number; groups_on_page := groups;
                 docs_in_group := docs; max_passages := passages |} in
  resp <- calling (Post page_number) (session_post body) ;;
  if negb (post_status resp =? 200)%Z
  then (_ <- lift (post_text resp) ;; ret Continue)
  else (id <- lift (post_id resp) ;; append_operation id ;; ret Continue).

(** The polling of one operation, from the test of [while attempts < 10]. *)
Equations? poll (op_id : string) (attempts : nat) (s : search_state W)
  : result unit * search_state W by wf (10 - attempts) lt :=
poll op_id attempts s with lt_dec attempts 10 := {
  | right _ => (Return tt, s)
  | left _ with calling (Get op_id) (session_get op_id) s := {
    | (Raise e, s1) => (Raise e, s1)
    | (Return resp, s1) with (get_status resp =? 200)%Z := {
      | false =>
          (* await asyncio.sleep(1); attempts += 1; continue *)
          poll op_id (S attempts) (sleeping 1 s1)
      | true with get_json resp := {
        | Raise e => (Raise e, s1)
        | Return operation with op_done operation := {
          | true with op_payload operation := {
            | Raise e => (Raise e, s1)
            | Return xml =>
                (* xml_results.append(...); break *)
                (Return tt, append_xml xml s1) }
          | false =>
              (* await asyncio.sleep(1); attempts += 1 *)
              poll op_id (S attempts) (sleeping 1 s1) } } } } }.
Proof.
  all: clear poll; do 10 (destruct attempts as [|attempts]; [cbn; lia|]); lia.
Qed.

(** The body of [for op_id in operations]: [attempts = 0], then the loop. *)
Definition poll_operation (op_id : string) : M (search_state W) flow :=
  (fun s => poll op_id 0 s) ;;
  ret Continue.

(** [parsed.extend(_parse_search_results(xml))] for each payload. *)
Fixpoint parse_all (xmls : list ustr) : result (list search_result) :=
  match xmls with
  | [] => Return []
  | xml :: rest =>
      match _parse_search_results xml with
      | Return l =>
          match parse_all rest with
          | Return l' => Return (l ++ l')
          | Raise e => Raise e
          end
      | Raise e => Raise e
      end
  end.

(** The statements inside the [try] of [search]. *)
Definition search_body (query : ustr) (groups : Z) (pages_to_fetch : list Z)
    (docs passages : Z) : M (search_state W) (list search_result) :=
  async_with
    (for_each (submit query groups docs passages) pages_to_fetch ;;
     ops <- gets (@operations W) ;;
     for_each poll_operation ops ;;
     xmls <- gets (@xml_results W) ;;
     lift (parse_all xmls)).

Definition search (query : ustr) (groups : Z) (pages_to_fetch : list Z)
    (docs passages : Z) : M (search_state W) (list search_result) :=
  try_except
    (search_body query groups pages_to_fetch docs passages)
    (fun _ => ret []).

Definition idle (w : W) : search_state W :=
  {| net := w; calls := []; operations := []; xml_results := [] |}.

End Search.

End YandexSearch.

(** * Properties *)

(** ** The agent loop *)

Module AgentLoop.

Import MCPClient.

#[local] Open Scope list_scope.

(** *** Vocabulary *)

(** What a statement did to the frame: it extended the three lists. *)
Record grows {W} (s s' : frame W) (events : list event) (msgs : list message)
    (fragments : list string) : Prop := {
  grows_log : log s' = log s ++ events;
  grows_messages : messages s' = messages s ++ msgs;
  grows_final_text : final_text s' = final_text s ++ fragments
}.

Definition is_tool_request (e : event) : Prop :=
  match e with
  | ToolRequest _ => True
  | _ => False
  end.

(** The iteration numbers logged, in order. *)
Definition logged_iterations (events : list event) : list nat :=
  flat_map (fun e => match e with LogIteration n => [n] | _ => [] end) events.

(** The number of model calls, of the main loop ([wrap_up = false]) or for
    the final answer ([wrap_up = true]). *)
Definition model_calls (wrap_up : bool) (events : list event) : nat :=
  List.length
    (filter (fun e => match e with LLMRequest b => Bool.eqb b wrap_up | _ => false end)
            events).

(** What the last iteration may ask for after its tool calls. *)
Definition wrap_up_events (i : nat) (events : list event) : Prop :=
  events = [] \/ (events = [LLMRequest true] /\ i = max_iterations - 1).

(** A tool call the loop can read: a JSON object whose ["function"] is an
    object, or is missing. On any other entry one of the reads that come
    before the [try] of the call raises. *)
Definition readable (tool_call : json) : bool :=
  match tool_call with
  | JDict entries =>
      match assoc "function" entries with
      | None | Some (JDict _) => true
      | Some _ => false
      end
  | _ => false
  end.

(** The number of tool calls the loop gets through: those before the first
    one it cannot read. *)
Fixpoint readable_prefix (tool_calls : list json) : nat :=
  match tool_calls with
  | [] => 0
  | tool_call :: rest => if readable tool_call then S (readable_prefix rest) else 0
  end.

(** What a readable call has under ["id"], under ["function"] and as its
    name, each with the default of its [dict.get]. *)
Definition tool_call_id_of (tool_call : json) : json :=
  match tool_call with
  | JDict entries => get_default (assoc "id" entries) (JString "")
  | _ => JString ""
  end.

Definition function_of (tool_call : json) : json :=
  match tool_call with
  | JDict entries => get_default (assoc "function" entries) (JDict [])
  | _ => JDict []
  end.

Definition tool_name_of (tool_call : json) : json :=
  match function_of tool_call with
  | JDict entries => get_default (assoc "name" entries) (JString "")
  | _ => JString ""
  end.

(** The messages a batch of tool calls leaves: one per call, in the order of
    the calls, [texts] being the result texts. *)
Definition tool_messages (tcs : list json) (texts : list string) : list message :=
  map (fun p => tool_message (tool_call_id_of (fst p)) (snd p)) (combine tcs texts).

(** The message the loop appends for a reply that carries tool calls. *)
Definition assistant_message (r : llm_response) : message :=
  {| msg_role := assistant; msg_content := resp_content r;
     msg_tool_calls := Some (resp_tool_calls r); msg_tool_call_id := None |}.

(** A conversation made of turns: an assistant message with its tool calls,
    followed by one tool message per call, in order and under its id. *)
Inductive answered : list message -> Prop :=
| answered_nil : answered []
| answered_turn r texts rest :
    resp_tool_calls r <> [] ->
    List.length texts = List.length (resp_tool_calls r) ->
    answered rest ->
    answered (assistant_message r :: tool_messages (resp_tool_calls r) texts ++ rest).

(** A turn cut short: the assistant message, and the tool messages of the
    calls before the first one the loop could not read. *)
Definition cut_turn (msgs : list message) : Prop :=
  exists r texts,
    msgs = assistant_message r :: tool_messages (resp_tool_calls r) texts
    /\ List.length texts = readable_prefix (resp_tool_calls r)
    /\ List.length texts < List.length (resp_tool_calls r).

(** The two messages the conversation starts with. *)
Definition opening (text query : string) : list message :=
  [system_message text; user_message query].

(** The frame in which the loop starts. *)
Definition opened {W} (w : W) (text query : string) : frame W :=
  {| world := w; log := []; messages := opening text query;
     final_text := []; tool_results := [] |}.

Definition nonempty_text (t : string) : Prop := t <> "".

(** The fragment the main loop keeps of a model reply: its content when it
    is not empty. *)
Definition content_fragment (r : llm_response) : list string :=
  if truthy (resp_content r) then [get_default (resp_content r) ""] else [].

(** The fragment an iteration leaves when the statements inside its [try]
    raised: the text of the failure, with the number of the iteration. *)
Definition failure_fragment (i : nat) (e : exn) : string :=
  nl ++ iteration_failure_text i e.

(** The text of the outer handler. *)
Definition critical_error (e : exn) : string :=
  "Критическая ошибка при обработке запроса: " ++ str_exn e.

Definition sentinel : string := "Пустой ответ.".

Section Sources.

Context {W : Type} {B : Backend W}.

(** A fragment of the transcript that is not the report of a failed
    iteration: the content of a reply of the model, in the loop or to the
    final call, or the note that the final call timed out. *)
Inductive reply_fragment : string -> Prop :=
| from_reply ms tools w r w' :
    llm_call ms tools w = (Return r, w') ->
    truthy (resp_content r) = true ->
    reply_fragment (get_default (resp_content r) "")
| from_final_reply ms tools w r w' :
    llm_call ms tools w = (Return r, w') ->
    truthy (resp_content r) = true ->
    reply_fragment (nl ++ "Итоговый ответ: " ++ get_default (resp_content r) "")
| from_final_timeout ms tools w w' :
    llm_call ms tools w = (Raise TimeoutError, w') ->
    reply_fragment (nl ++ "Таймаут при получении финального ответа").

(** Where a fragment of the transcript comes from. *)
Definition fragment_source (t : string) : Prop :=
  reply_fragment t \/ exists i e, t = failure_fragment i e.

(** The exception the statements inside the [try] of iteration [i] raise
    when the iteration starts from [s], if they raise. *)
Definition raised_in (c : client) (tools : list llm_tool) (i : nat) (s : frame W)
  : option exn :=
  match fst (iteration_body c tools i (snd (record_event (LogIteration (i + 1)) s))) with
  | Raise e => Some e
  | Return _ => None
  end.

(** The failure that ends the loop, if one does: the first iteration of the
    run whose statements raise, with what they raise. *)
Fixpoint loop_failure (c : client) (tools : list llm_tool) (range : list nat)
    (s : frame W) : option (nat * exn) :=
  match range with
  | [] => None
  | i :: rest =>
      match raised_in c tools i s with
      | Some e => Some (i, e)
      | None =>
          match iteration c tools i s with
          | (Return Continue, s1) => loop_failure c tools rest s1
          | _ => None
          end
      end
  end.

(** The exception the statements inside the [try] of a tool call raise, if
    they raise. *)
Definition tool_failure (c : client) (tool_call : json) (s : frame W) : option exn :=
  match fst (tool_attempt c (function_of tool_call) (tool_name_of tool_call)
                          (tool_call_id_of tool_call) s) with
  | Raise e => Some e
  | Return _ => None
  end.

End Sources.

(** Result selection, as the specification words it. *)

Definition is_nonempty (t : string) : bool :=
  match t with
  | EmptyString => false
  | String _ _ => true
  end.

(** The last non-empty fragment of a transcript, if it has one. *)
Definition last_nonempty_fragment (fragments : list string) : option string :=
  List.last (map Some (filter is_nonempty fragments)) None.

(** The answer by the words of the specification: that fragment, or the
    sentinel. *)
Definition claimed_answer (fragments : list string) : string :=
  match last_nonempty_fragment fragments with
  | Some t => t
  | None => sentinel
  end.

(** *** Scripted backends, to run the loop on *)

Definition call (id name : string) (arguments : json) : json :=
  JDict [("id", JString id); ("type", JString "function");
         ("function", JDict [("name", JString name); ("arguments", arguments)])].

(** A reply that asks for four tool calls: the second with arguments that
    are not JSON, the third with arguments that are an object and not a
    string, the fourth an empty object. *)
Definition first_reply : llm_response :=
  {| resp_content := None;
     resp_tool_calls := [call "call_1" "search_internet" (JString "{}");
                         call "call_2" "search_internet" (JString "query=x");
                         call "call_3" "search_internet" (JDict []);
                         JDict []] |}.

(** The world counts the model calls served. The first reply is
    [first_reply], the later ones are plain text. The HTTP tool client times
    out and the stdio session answers. *)
#[local] Instance scripted : Backend nat := {|
  json_loads := fun text =>
    if (text =? "{}")%string then Return (JDict [])
    else Raise (OtherException "Expecting value: line 1 column 1 (char 0)");
  llm_call := fun _ _ served =>
    (match served with
     | 0 => Return first_reply
     | _ => Return {| resp_content := Some "done"; resp_tool_calls := [] |}
     end, S served);
  http_call_tool := fun _ _ served => (Raise TimeoutError, served);
  stdio_call_tool := fun _ _ served => (Return [{| item_text := Some "found" |}], served);
  normalize_description := fun d => d;
  repr_summaries := fun _ => "[]";
  repr_json := fun _ => "{}"
|}.

(** A model that asks for a tool in every reply of the main loop, says
    something in every other one, and gives its summary when asked for the
    final answer. *)
Definition insisting : Backend nat := {|
  json_loads := fun _ => Return (JDict []);
  llm_call := fun _ _ served =>
    (if (served <? 10)%nat
     then Return {| resp_content := (if Nat.even served then Some "searching" else None);
                    resp_tool_calls := [call "c" "search_internet" (JString "{}")] |}
     else Return {| resp_content := Some "summary"; resp_tool_calls := [] |},
     S served);
  http_call_tool := fun _ _ served => (Raise (OtherException "503"), served);
  stdio_call_tool := fun _ _ served => (Raise (OtherException "closed"), served);
  normalize_description := fun d => d;
  repr_summaries := fun _ => "[]";
  repr_json := fun _ => "{}"
|}.

(** A model endpoint that fails at the second call. *)
Definition failing_second : Backend nat := {|
  json_loads := fun _ => Return (JDict []);
  llm_call := fun _ _ served =>
    (match served with
     | 0 => Return {| resp_content := Some "searching";
                      resp_tool_calls := [call "c" "search_internet" (JString "{}")] |}
     | _ => Raise (OtherException "'NoneType' object has no attribute 'get'")
     end, S served);
  http_call_tool := fun _ _ served => (Raise TimeoutError, served);
  stdio_call_tool := fun _ _ served => (Return [], served);
  normalize_description := fun d => d;
  repr_summaries := fun _ => "[]";
  repr_json := fun _ => "{}"
|}.

(** A reply with three tool calls, the second with [null] for its
    function. *)
Definition careless_reply : llm_response :=
  {| resp_content := Some "searching";
     resp_tool_calls := [call "call_1" "search_internet" (JString "{}");
                         JDict [("id", JString "call_2"); ("function", JNull)];
                         call "call_3" "search_internet" (JString "{}")] |}.

(** A model that sends [careless_reply] first. *)
Definition careless : Backend nat := {|
  json_loads := fun _ => Return (JDict []);
  llm_call := fun _ _ served =>
    (match served with
     | 0 => Return careless_reply
     | _ => Return {| resp_content := Some "done"; resp_tool_calls := [] |}
     end, S served);
  http_call_tool := fun _ _ served => (Return [{| item_text := Some "found" |}], served);
  stdio_call_tool := fun _ _ served => (Return [{| item_text := Some "found" |}], served);
  normalize_description := fun d => d;
  repr_summaries := fun _ => "[]";
  repr_json := fun _ => "{}"
|}.

Definition http_client_side : client :=
  {| instructions := Some "assist"; available_tools := [];
     has_mcp_client := true; exit_stack := Holds |}.

Definition stdio_client_side : client :=
  {| instructions := Some "assist"; available_tools := [];
     has_mcp_client := false; exit_stack := Holds |}.

(** A catalog with a tool that has no description. *)
Definition undescribed : client :=
  {| instructions := None;
     available_tools := [ToolObject {| tool_name := "search_internet";
                                       tool_description := None;
                                       tool_inputSchema := None |}];
     has_mcp_client := false; exit_stack := Holds |}.

(** *** Facts *)

Ltac unfold_frame_ops :=
  unfold await_tool, await_llm, perform, record_event, set_messages,
    append_message, append_final_text, set_tool_results, append_tool_result,
    set_world in *.

Ltac unfold_monad :=
  unfold bind, ret, raise, try_except, lift, modify, gets, when in *.

Ltac conjs := repeat match goal with |- _ /\ _ => split end.

Lemma grows_refl {W} (s : frame W) : grows s s [] [] [].
Proof. split; now rewrite app_nil_r. Qed.

Lemma grows_trans {W} (s1 s2 s3 : frame W) e1 e2 m1 m2 f1 f2 :
  grows s1 s2 e1 m1 f1 -> grows s2 s3 e2 m2 f2 ->
  grows s1 s3 (e1 ++ e2) (m1 ++ m2) (f1 ++ f2).
Proof.
  intros [L1 M1 F1] [L2 M2 F2]. split.
  - now rewrite L2, L1, app_assoc.
  - now rewrite M2, M1, app_assoc.
  - now rewrite F2, F1, app_assoc.
Qed.

Lemma logged_iterations_app (l1 l2 : list event) :
  logged_iterations (l1 ++ l2) = logged_iterations l1 ++ logged_iterations l2.
Proof. apply flat_map_app. Qed.

Lemma model_calls_app (b : bool) (l1 l2 : list event) :
  model_calls b (l1 ++ l2) = model_calls b l1 + model_calls b l2.
Proof. unfold model_calls. now rewrite filter_app, length_app. Qed.

Lemma tool_requests_silent (events : list event) :
  Forall is_tool_request events ->
  logged_iterations events = [] /\ forall b, model_calls b events = 0.
Proof.
  induction 1 as [| e l He _ [IH1 IH2]]; [now split |].
  destruct e; cbn in He; try contradiction. split.
  - exact IH1.
  - intros b. exact (IH2 b).
Qed.

Lemma firstn_range (k start len : nat) :
  firstn k (seq start len) = seq start (Nat.min k len).
Proof.
  revert start len. induction k as [| k IH]; intros start [| len]; cbn; try reflexivity.
  now rewrite IH.
Qed.

Lemma answered_app (l1 l2 : list message) :
  answered l1 -> answered l2 -> answered (l1 ++ l2).
Proof.
  induction 1 as [| r texts rest Hsome Hlen Hrest IH]; intros H2; [exact H2 |].
  cbn. rewrite <- app_assoc. apply answered_turn; auto.
Qed.

Lemma tool_messages_shape (tcs : list json) (texts : list string) :
  List.length texts = List.length tcs ->
  List.length (tool_messages tcs texts) = List.length tcs
  /\ Forall (fun m => msg_role m = tool) (tool_messages tcs texts)
  /\ map msg_tool_call_id (tool_messages tcs texts)
     = map (fun tc => Some (tool_call_id_of tc)) tcs.
Proof.
  revert texts. induction tcs as [| tc tcs IH]; intros [| text texts] Hlen;
    try discriminate; cbn.
  - repeat split. constructor.
  - injection Hlen as Hlen. destruct (IH texts Hlen) as (H1 & H2 & H3).
    unfold tool_messages in *. repeat split.
    + now rewrite H1.
    + now constructor.
    + now rewrite H3.
Qed.

Lemma readable_prefix_all (tcs : list json) :
  forallb readable tcs = true <-> readable_prefix tcs = List.length tcs.
Proof.
  induction tcs as [| tc tcs IH]; cbn; [tauto |].
  destruct (readable tc); cbn.
  - rewrite IH. split; [congruence | now intros [= H]].
  - split; discriminate.
Qed.

Lemma readable_prefix_le (tcs : list json) : readable_prefix tcs <= List.length tcs.
Proof.
  induction tcs as [| tc tcs IH]; cbn; [lia |]. destruct (readable tc); lia.
Qed.

Lemma truthy_nonempty (o : option string) :
  truthy o = true -> nonempty_text (get_default o "").
Proof. now destruct o as [[| a t] |]. Qed.

Lemma nl_prefix_nonempty (t : string) : nonempty_text (nl ++ t).
Proof. intros E. discriminate. Qed.

Lemma failure_fragment_nonempty (i : nat) (e : exn) : nonempty_text (failure_fragment i e).
Proof. apply nl_prefix_nonempty. Qed.

Lemma filter_nonempty_id (fragments : list string) :
  Forall nonempty_text fragments -> filter is_nonempty fragments = fragments.
Proof.
  induction 1 as [| t l Ht _ IH]; [reflexivity |].
  cbn. destruct t; [now contradiction Ht |]. cbn. now rewrite IH.
Qed.

(** On a transcript without empty fragments the code selects what the
    specification describes. *)
Lemma select_result_last (fragments : list string) :
  Forall nonempty_text fragments -> select_result fragments = claimed_answer fragments.
Proof.
  intros Hne. unfold claimed_answer, last_nonempty_fragment, select_result.
  rewrite (filter_nonempty_id Hne).
  destruct fragments as [| t l] using rev_ind; [reflexivity |].
  rewrite map_app, length_app. cbn [map List.length]. rewrite last_last.
  replace (0 <? List.length l + 1)%nat with true by (symmetry; apply Nat.ltb_lt; lia).
  replace (List.length l + 1 - 1) with (List.length l) by lia.
  apply nth_middle.
Qed.


(** The selected answer of a transcript is its last fragment. *)
Lemma select_result_snoc (fragments : list string) (t : string) :
  select_result (fragments ++ [t]) = t.
Proof.
  unfold select_result. rewrite length_app. cbn [List.length].
  replace (0 <? List.length fragments + 1)%nat with true by (symmetry; apply Nat.ltb_lt; lia).
  replace (List.length fragments + 1 - 1) with (List.length fragments) by lia.
  apply nth_middle.
Qed.

Section Facts.

Context {W : Type} {B : Backend W}.

Lemma reply_fragment_nonempty (t : string) : reply_fragment t -> nonempty_text t.
Proof.
  intros [ms tools w r w' _ Ht | ms tools w r w' _ _ | ms tools w w' _].
  - now apply truthy_nonempty.
  - apply nl_prefix_nonempty.
  - apply nl_prefix_nonempty.
Qed.

Lemma fragment_source_nonempty (t : string) : fragment_source t -> nonempty_text t.
Proof.
  intros [H | (i & e & ->)]; [now apply reply_fragment_nonempty |].
  apply failure_fragment_nonempty.
Qed.

Lemma content_fragment_source (r : llm_response) ms tools w w' :
  llm_call ms tools w = (Return r, w') ->
  Forall reply_fragment (content_fragment r).
Proof.
  intros Hcall. unfold content_fragment.
  destruct (truthy (resp_content r)) eqn:Ht; constructor.
  - exact (from_reply _ _ _ Hcall Ht).
  - constructor.
Qed.

(** What the three reads give on a call the loop can read. *)
Lemma reads_of_readable (tc : json) :
  readable tc = true ->
  exists entries,
    function_of tc = JDict entries
    /\ dict_get tc "function" (JDict []) = Return (JDict entries)
    /\ dict_get (JDict entries) "name" (JString "") = Return (tool_name_of tc)
    /\ dict_get tc "id" (JString "") = Return (tool_call_id_of tc).
Proof.
  unfold readable, tool_name_of, function_of, tool_call_id_of, dict_get.
  destruct tc as [| | | | | entries]; try discriminate.
  destruct (assoc "function" entries) as [[| | | | | fentries] |]; try discriminate;
    intros _; eexists; cbn; repeat split.
Qed.

(** On any other call a read raises, before anything is done. *)
Lemma handle_tool_call_unreadable (c : client) (tc : json) (s : frame W) :
  readable tc = false ->
  exists e, handle_tool_call c tc s = (Raise e, s).
Proof.
  unfold readable, handle_tool_call, dict_get, bind, lift.
  destruct tc as [| | | | | entries]; try (intros _; eexists; reflexivity).
  destruct (assoc "function" entries) as [[| | | | | fentries] |]; try discriminate;
    intros _; eexists; reflexivity.
Qed.

(** A tool call the loop can read always ends normally and leaves exactly
    one tool message, under the id of the call, whatever the parse and the
    call did; when they raised, the message is the text of the failure. *)
Lemma handle_tool_call_effect (c : client) (tc : json) (s : frame W) :
  readable tc = true ->
  exists text events s',
    handle_tool_call c tc s = (Return Continue, s')
    /\ grows s s' events [tool_message (tool_call_id_of tc) text] []
    /\ tool_results s' = tool_results s ++ [text]
    /\ Forall is_tool_request events
    /\ (forall e, tool_failure c tc s = Some e ->
                  text = tool_failure_text (tool_name_of tc) e).
Proof.
  intros Hread. destruct (reads_of_readable tc Hread) as (entries & Hf & R1 & R2 & R3).
  unfold handle_tool_call, tool_failure. rewrite Hf.
  unfold bind at 1. unfold lift at 1. rewrite R1.
  unfold bind at 1. unfold lift at 1. rewrite R2.
  unfold bind at 1. unfold lift at 1. rewrite R3.
  unfold bind at 1. unfold try_except.
  destruct (tool_attempt c (JDict entries) (tool_name_of tc) (tool_call_id_of tc) s)
    as [[[] | e] s1] eqn:Hrun.
  - unfold tool_attempt in Hrun. unfold_frame_ops. unfold_monad.
    cbn [dict_get] in Hrun.
    destruct (loads _) as [arguments | e]; [| discriminate].
    destruct (has_mcp_client c);
      match type of Hrun with
      | context [?call ?n arguments (world ?fr)] =>
          destruct (call n arguments (world fr)) as [[items | e] w]
      end; try discriminate; injection Hrun as <-;
      do 3 eexists; (split; [reflexivity |]);
      (split; [split; cbn; try reflexivity; now rewrite ?app_nil_r |]);
      (split; [reflexivity |]); (split; [repeat constructor | discriminate]).
  - unfold tool_attempt in Hrun. unfold_frame_ops. unfold_monad.
    cbn [dict_get] in Hrun.
    destruct (loads _) as [arguments | e0].
    + destruct (has_mcp_client c);
        match type of Hrun with
        | context [?call ?n arguments (world ?fr)] =>
            destruct (call n arguments (world fr)) as [[items | e0] w]
        end; try discriminate; injection Hrun as <- <-;
        do 3 eexists; (split; [reflexivity |]);
        (split; [split; cbn; try reflexivity; now rewrite ?app_nil_r |]);
        (split; [reflexivity |]); (split; [repeat constructor | now intros ? [= <-]]).
    + injection Hrun as <- <-.
      eexists; exists []; eexists; (split; [reflexivity |]);
        (split; [split; cbn; try reflexivity; now rewrite ?app_nil_r |]);
        (split; [reflexivity |]); (split; [constructor | now intros ? [= <-]]).
Qed.

(** The loop over the tool calls of a reply answers the calls before the
    first one it cannot read, and raises at that one. *)
Lemma tool_loop_effect (c : client) (tcs : list json) (s : frame W) :
  exists res texts events s',
    for_each (handle_tool_call c) tcs s = (res, s')
    /\ List.length texts = readable_prefix tcs
    /\ grows s s' events (tool_messages tcs texts) []
    /\ tool_results s' = tool_results s ++ texts
    /\ Forall is_tool_request events
    /\ (if forallb readable tcs then res = Return tt else exists e, res = Raise e).
Proof.
  revert s. induction tcs as [| tc tcs IH]; intros s.
  - exists (Return tt), [], [], s. cbn. repeat split; rewrite ?app_nil_r; auto.
  - cbn [for_each readable_prefix forallb]. destruct (readable tc) eqn:Hread.
    + destruct (handle_tool_call_effect c tc s Hread)
        as (text & ev1 & s1 & Hrun & G1 & T1 & F1 & _).
      destruct (IH s1) as (res & texts & ev2 & s2 & Hrest & Hlen & G2 & T2 & F2 & Hres).
      exists res, (text :: texts), (ev1 ++ ev2), s2.
      split; [unfold bind at 1; rewrite Hrun; exact Hrest |].
      split; [cbn; now rewrite Hlen |].
      split; [apply (grows_trans G1 G2) |].
      split; [rewrite T2, T1, <- app_assoc; reflexivity |].
      split; [apply Forall_app; now split | exact Hres].
    + destruct (handle_tool_call_unreadable c tc s Hread) as [e Hrun].
      exists (Raise e), [], [], s. unfold bind at 1. rewrite Hrun. cbn.
      repeat split; rewrite ?app_nil_r; eauto.
Qed.

(** The extra model call never raises, and adds at most one fragment. *)
Lemma final_answer_effect (tools : list llm_tool) (s : frame W) :
  exists fragments s',
    final_answer tools s = (Return tt, s')
    /\ grows s s' [LLMRequest true] [] fragments
    /\ tool_results s' = tool_results s
    /\ Forall reply_fragment fragments.
Proof.
  unfold final_answer. unfold_frame_ops. unfold_monad. cbv beta.
  cbn [world log messages final_text tool_results].
  destruct (llm_call _ _ _) as [[r | e] w] eqn:Hcall.
  - destruct (truthy (resp_content r)) eqn:Ht.
    + do 2 eexists. split; [reflexivity |].
      split; [split; cbn; try reflexivity; now rewrite ?app_nil_r |].
      split; [reflexivity |]. repeat constructor. exact (from_final_reply _ _ _ Hcall Ht).
    + exists []; eexists. split; [reflexivity |].
      split; [split; cbn; try reflexivity; now rewrite ?app_nil_r |].
      split; [reflexivity |]. constructor.
  - destruct e.
    + do 2 eexists. split; [reflexivity |].
      split; [split; cbn; try reflexivity; now rewrite ?app_nil_r |].
      split; [reflexivity |]. repeat constructor. exact (from_final_timeout _ _ _ Hcall).
    + exists []; eexists. split; [reflexivity |].
      split; [split; cbn; try reflexivity; now rewrite ?app_nil_r |].
      split; [reflexivity |]. constructor.
    + exists []; eexists. split; [reflexivity |].
      split; [split; cbn; try reflexivity; now rewrite ?app_nil_r |].
      split; [reflexivity |]. constructor.
Qed.

(** The statements inside the [try] of an iteration, when the model call
    raises. *)
Lemma body_llm_raises (c : client) (tools : list llm_tool) (i : nat) (s : frame W)
    (e : exn) (w : W) :
  llm_call (messages s) tools (world s) = (Raise e, w) ->
  exists s',
    iteration_body c tools i s = (Raise e, s')
    /\ grows s s' [LLMRequest false] [] [].
Proof.
  intros Hcall. unfold iteration_body. unfold_frame_ops. unfold_monad. cbv beta.
  cbn [world log messages final_text tool_results]. rewrite Hcall.
  eexists. split; [reflexivity |]. split; cbn; rewrite ?app_nil_r; reflexivity.
Qed.

(** A reply without tool calls ends the loop. *)
Lemma body_no_tool_calls (c : client) (tools : list llm_tool) (i : nat) (s : frame W)
    (r : llm_response) (w : W) :
  llm_call (messages s) tools (world s) = (Return r, w) ->
  resp_tool_calls r = [] ->
  exists s',
    iteration_body c tools i s = (Return Break, s')
    /\ grows s s' [LLMRequest false] [] (content_fragment r).
Proof.
  intros Hcall Hnone. unfold iteration_body, content_fragment. unfold_frame_ops. unfold_monad.
  cbv beta. cbn [world log messages final_text tool_results]. rewrite Hcall, Hnone.
  destruct (truthy (resp_content r)); cbn; eexists; (split; [reflexivity |]);
    split; cbn; rewrite <- ?app_assoc, ?app_nil_r; reflexivity.
Qed.

(** A reply with tool calls: the assistant message, then one tool message
    for each call the loop gets through. When it gets through all of them the
    loop goes on; otherwise the read that failed raises. *)
Lemma body_tool_calls (c : client) (tools : list llm_tool) (i : nat) (s : frame W)
    (r : llm_response) (w : W) :
  llm_call (messages s) tools (world s) = (Return r, w) ->
  resp_tool_calls r <> [] ->
  exists res texts tool_events last_events fragments s',
    iteration_body c tools i s = (res, s')
    /\ List.length texts = readable_prefix (resp_tool_calls r)
    /\ grows s s'
         (LLMRequest false :: tool_events ++ last_events)
         (assistant_message r :: tool_messages (resp_tool_calls r) texts)
         (content_fragment r ++ fragments)
    /\ Forall is_tool_request tool_events
    /\ wrap_up_events i last_events
    /\ Forall reply_fragment fragments
    /\ (if forallb readable (resp_tool_calls r)
        then res = Return Continue
        else exists e, res = Raise e /\ last_events = [] /\ fragments = []).
Proof.
  intros Hcall Hsome. unfold iteration_body, content_fragment, assistant_message.
  unfold_frame_ops. unfold_monad. cbv beta.
  cbn [world log messages final_text tool_results]. rewrite Hcall.
  destruct (resp_tool_calls r) as [| tc tcs] eqn:Htcs; [congruence |].
  destruct (truthy (resp_content r)) eqn:Ht; unfold ret at 1; cbv beta iota;
    cbn [world log messages final_text tool_results].
  all: match goal with
       | |- context [for_each (handle_tool_call ?c0) ?l ?fr] =>
           destruct (tool_loop_effect c0 l fr)
             as (res & texts & ev & s1 & Hrun & Hlen & [L1 M1 F1] & T1 & E1 & Hres);
           rewrite Hrun; cbn [world log messages final_text tool_results] in L1, M1, F1, T1
       end.
  all: destruct (forallb readable (tc :: tcs)); [subst res | destruct Hres as [e ->]].
  all: cbv beta iota.
  all: try (exists (Raise e), texts, ev, [], [], s1;
            split; [reflexivity |]; split; [exact Hlen |];
            split; [split; rewrite ?L1, ?M1, ?F1, <- ?app_assoc, ?app_nil_r; reflexivity |];
            split; [exact E1 |]; split; [now left |]; split; [constructor |];
            eexists; repeat split).
  all: destruct ((i =? max_iterations - 1)%nat && _) eqn:Hlast; cbv beta iota.
  all: try (destruct (final_answer_effect tools s1)
              as (frags & s2 & Hfa & [L2 M2 F2] & T2 & E2);
            rewrite Hfa; exists (Return Continue), texts, ev, [LLMRequest true], frags, s2).
  all: try (unfold ret; exists (Return Continue), texts, ev, [], [], s1).
  all: split; [reflexivity |]; split; [exact Hlen |].
  all: split; [split; rewrite ?L2, ?M2, ?F2, ?L1, ?M1, ?F1, <- ?app_assoc, ?app_nil_r;
               reflexivity |].
  all: split; [exact E1 |]; split; [| split; [first [exact E2 | constructor] | reflexivity]].
  all: try (left; reflexivity).
  all: right; split; [reflexivity |]; apply andb_prop in Hlast; now apply Nat.eqb_eq.
Qed.

(** An iteration logs its number and runs its statements under the handler,
    which turns what they raise into the last fragment of the transcript. *)
Lemma iteration_run (c : client) (tools : list llm_tool) (i : nat) (s : frame W) :
  iteration c tools i s
  = match iteration_body c tools i (snd (record_event (LogIteration (i + 1)) s)) with
    | (Return fl, s1) => (Return fl, s1)
    | (Raise e, s1) => (Return Break, snd (append_final_text (failure_fragment i e) s1))
    end.
Proof.
  unfold iteration, failure_fragment. unfold bind at 1. unfold record_event at 1, modify at 1.
  cbn [snd record_event modify]. unfold try_except.
  destruct (iteration_body c tools i _) as [[fl | e] s1]; [reflexivity |].
  unfold bind, append_final_text, modify, ret. reflexivity.
Qed.

(** A reply whose tool calls can all be read: the assistant message, then
    one tool message per call; the loop goes on. *)
Lemma iteration_tool_calls (c : client) (tools : list llm_tool) (i : nat) (s : frame W)
    (r : llm_response) (w : W) :
  llm_call (messages s) tools (world s) = (Return r, w) ->
  resp_tool_calls r <> [] ->
  forallb readable (resp_tool_calls r) = true ->
  exists texts s',
    iteration c tools i s = (Return Continue, s')
    /\ List.length texts = List.length (resp_tool_calls r)
    /\ messages s'
       = messages s ++ assistant_message r :: tool_messages (resp_tool_calls r) texts.
Proof.
  intros Hcall Hsome Hread. rewrite iteration_run.
  destruct (@body_tool_calls c tools i (snd (record_event (LogIteration (i + 1)) s)) r w
              Hcall Hsome)
    as (res & texts & tev & lev & frags & s' & Hrun & Hlen & [_ Hm _] & _ & _ & _ & Hres).
  rewrite Hread in Hres. subst res. rewrite Hrun. exists texts, s'.
  split; [reflexivity |]. split; [| exact Hm].
  rewrite Hlen. now apply readable_prefix_all.
Qed.

(** A reply with a tool call that cannot be read: the turn is cut at that
    call, and the iteration ends the loop with the report of the failure. *)
Lemma iteration_cut (c : client) (tools : list llm_tool) (i : nat) (s : frame W)
    (r : llm_response) (w : W) :
  llm_call (messages s) tools (world s) = (Return r, w) ->
  forallb readable (resp_tool_calls r) = false ->
  exists texts e s',
    iteration c tools i s = (Return Break, s')
    /\ List.length texts = readable_prefix (resp_tool_calls r)
    /\ List.length texts < List.length (resp_tool_calls r)
    /\ messages s'
       = messages s ++ assistant_message r :: tool_messages (resp_tool_calls r) texts
    /\ final_text s' = final_text s ++ content_fragment r ++ [failure_fragment i e].
Proof.
  intros Hcall Hread. rewrite iteration_run.
  assert (Hsome : resp_tool_calls r <> []) by (intros E; now rewrite E in Hread).
  destruct (@body_tool_calls c tools i (snd (record_event (LogIteration (i + 1)) s)) r w
              Hcall Hsome)
    as (res & texts & tev & lev & frags & s' & Hrun & Hlen & [_ Hm Hf] & _ & _ & _ & Hres).
  rewrite Hread in Hres. destruct Hres as (e & -> & _ & ->).
 rewrite Hrun. exists texts, e. eexists.
  split; [reflexivity |]. split; [exact Hlen |].
  split.
  { rewrite Hlen. pose proof (readable_prefix_le (resp_tool_calls r)) as Hle.
    destruct (Nat.eq_dec (readable_prefix (resp_tool_calls r))
                         (List.length (resp_tool_calls r))) as [E | E]; [| lia].
    apply readable_prefix_all in E. congruence. }
  cbn [snd append_final_text modify messages final_text]. split; [exact Hm |].
  rewrite Hf. cbn [snd record_event modify final_text]. now rewrite app_nil_r, <- app_assoc.
Qed.

Lemma grows_logged (e : event) (s s' : frame W) events msgs fragments :
  grows (snd (record_event e s)) s' events msgs fragments ->
  grows s s' (e :: events) msgs fragments.
Proof.
  intros [L M F]. cbn [snd record_event modify log messages final_text] in L, M, F.
  split; [| exact M | exact F]. now rewrite L, <- app_assoc.
Qed.

Lemma grows_appended (t : string) (s s1 : frame W) events msgs fragments :
  grows s s1 events msgs fragments ->
  grows s (snd (append_final_text t s1)) events msgs (fragments ++ [t]).
Proof.
  intros [L M F]. split; cbn [snd append_final_text modify log messages final_text]; auto.
  now rewrite F, app_assoc.
Qed.

(** Every iteration ends normally: it logs its number, calls the model once,
    and after that only calls tools and, in the last iteration, the model
    once more. What it adds to the conversation is a whole turn, nothing, or
    a turn cut short, with which the loop ends. When its statements raise,
    the loop ends and the report of the failure is the last fragment of the
    transcript. *)
Lemma iteration_effect (c : client) (tools : list llm_tool) (i : nat) (s : frame W) :
  exists fl events msgs fragments s',
    iteration c tools i s = (Return fl, s')
    /\ grows s s' (LogIteration (i + 1) :: LLMRequest false :: events) msgs fragments
    /\ (answered msgs
        \/ (fl = Break /\ cut_turn msgs /\ raised_in c tools i s <> None))
    /\ logged_iterations events = []
    /\ model_calls false events = 0
    /\ model_calls true events <= (if (i =? max_iterations - 1)%nat then 1 else 0)
    /\ match raised_in c tools i s with
       | Some e =>
           fl = Break
           /\ exists pre, fragments = pre ++ [failure_fragment i e]
                          /\ Forall reply_fragment pre
       | None => Forall reply_fragment fragments
       end.
Proof.
  rewrite iteration_run. unfold raised_in.
  set (s0 := snd (record_event (LogIteration (i + 1)) s)).
  destruct (llm_call (messages s) tools (world s)) as [[r | e] w] eqn:Hcall.
  - destruct (resp_tool_calls r) as [| tc tcs] eqn:Htcs.
    + destruct (@body_no_tool_calls c tools i s0 r w Hcall Htcs) as (s' & Hrun & G).
      rewrite Hrun. cbn [fst].
      exists Break, [], [], (content_fragment r), s'.
      split; [reflexivity |]. split; [now apply grows_logged |].
      split; [left; constructor |]. conjs; auto using Nat.le_0_l.
      exact (content_fragment_source _ _ _ Hcall).
    + assert (Hsome : resp_tool_calls r <> []) by now rewrite Htcs.
      destruct (@body_tool_calls c tools i s0 r w Hcall Hsome)
        as (res & texts & tev & lev & frags & s' & Hrun & Hlen & G & Ht & Hw & Hf & Hres).
      rewrite Hrun. cbn [fst].
      destruct (tool_requests_silent Ht) as [Hl Hm].
      destruct (forallb readable (resp_tool_calls r)) eqn:Hread.
      * subst res.
        exists Continue, (tev ++ lev),
          (assistant_message r :: tool_messages (resp_tool_calls r) texts),
          (content_fragment r ++ frags), s'.
        split; [reflexivity |]. split; [now apply grows_logged |].
        split.
        { left. rewrite <- (app_nil_r (tool_messages _ _)).
          apply answered_turn; auto using answered_nil.
          rewrite Hlen. now apply readable_prefix_all. }
        rewrite logged_iterations_app, !model_calls_app, Hl, !Hm.
        split; [destruct Hw as [-> | [-> _]]; reflexivity |].
        split; [destruct Hw as [-> | [-> _]]; reflexivity |].
        split; [destruct Hw as [-> | [-> ->]]; cbn; auto using Nat.le_0_l |].
        apply Forall_app. split; [exact (content_fragment_source _ _ _ Hcall) | exact Hf].
      * destruct Hres as (e & -> & -> & ->).
        exists Break, (tev ++ []),
          (assistant_message r :: tool_messages (resp_tool_calls r) texts),
          ((content_fragment r ++ []) ++ [failure_fragment i e]),
          (snd (append_final_text (failure_fragment i e) s')).
        split; [reflexivity |].
        split; [apply grows_appended; now apply grows_logged |].
        split.
        { right. split; [reflexivity |]. split; [| discriminate].
          exists r, texts. split; [reflexivity |].
          split; [exact Hlen |]. rewrite Hlen.
          pose proof (readable_prefix_le (resp_tool_calls r)) as Hle.
          destruct (Nat.eq_dec (readable_prefix (resp_tool_calls r))
                               (List.length (resp_tool_calls r))) as [E | E]; [| lia].
          apply readable_prefix_all in E. congruence. }
        rewrite logged_iterations_app, !model_calls_app, Hl, !Hm. cbn.
        conjs; auto using Nat.le_0_l.
        eexists. split; [reflexivity |]. rewrite app_nil_r.
        exact (content_fragment_source _ _ _ Hcall).
  - destruct (@body_llm_raises c tools i s0 e w Hcall) as (s' & Hrun & G).
    rewrite Hrun. cbn [fst].
    exists Break, [], [], ([] ++ [failure_fragment i e]),
      (snd (append_final_text (failure_fragment i e) s')).
    split; [reflexivity |].
    split; [apply grows_appended; now apply grows_logged |].
    split; [left; constructor |]. conjs; auto using Nat.le_0_l.
    exists []. split; [reflexivity | constructor].
Qed.

(** The main loop over a range of indices: it runs a prefix of the range.
    The conversation grows by whole turns and, when a tool call could not be
    read, by a last turn cut short. When the statements of an iteration
    raise, the report of that failure is the last fragment of the
    transcript. *)
Lemma main_loop_effect (c : client) (tools : list llm_tool) (range : list nat) (s : frame W) :
  exists k events turns last fragments s',
    for_each (iteration c tools) range s = (Return tt, s')
    /\ grows s s' events (turns ++ last) fragments
    /\ answered turns
    /\ (last = [] \/ (cut_turn last /\ loop_failure c tools range s <> None))
    /\ k <= List.length range
    /\ logged_iterations events = map (fun i => i + 1) (firstn k range)
    /\ model_calls false events = k
    /\ model_calls true events <= count_occ Nat.eq_dec range (max_iterations - 1)
    /\ match loop_failure c tools range s with
       | Some (i, e) =>
           exists pre, fragments = pre ++ [failure_fragment i e]
                       /\ Forall reply_fragment pre
       | None => Forall reply_fragment fragments
       end.
Proof.
  revert s. induction range as [| i range IH]; intros s.
  - exists 0, [], [], [], [], s. cbn.
    conjs; auto using grows_refl, Nat.le_0_l, answered_nil.
  - destruct (iteration_effect c tools i s)
      as (fl & ev & ms & fr & s1 & Hrun & G1 & Ha1 & Hl1 & Hm1 & Hw1 & Hraised).
    cbn [for_each loop_failure]. unfold bind at 1. rewrite Hrun.
    assert (Hhere : model_calls true ev <= count_occ Nat.eq_dec [i] (max_iterations - 1)).
    { cbn [count_occ]. destruct (Nat.eq_dec i (max_iterations - 1)) as [-> | Hne].
      - exact Hw1.
      - apply Nat.eqb_neq in Hne. now rewrite Hne in Hw1. }
    destruct fl.
    + destruct Ha1 as [Ha1 | [Hfl _]]; [| discriminate].
      destruct (raised_in c tools i s) as [e |]; [destruct Hraised; discriminate |].
      cbv beta iota.
      destruct (IH s1)
        as (k & ev2 & ts2 & last2 & fr2 & s2 & Hrest & G2 & Ha2 & Hlast2 & Hk & Hl2 & Hm2
            & Hw2 & Hfail).
      exists (S k), ((LogIteration (i + 1) :: LLMRequest false :: ev) ++ ev2), (ms ++ ts2),
        last2, (fr ++ fr2), s2.
      split; [exact Hrest |].
      split; [rewrite <- app_assoc; exact (grows_trans G1 G2) |].
      split; [now apply answered_app |].
      split; [exact Hlast2 |]. split; [cbn; lia |].
      rewrite logged_iterations_app, !model_calls_app.
      change (LogIteration (i + 1) :: LLMRequest false :: ev)
        with ([LogIteration (i + 1); LLMRequest false] ++ ev).
      rewrite logged_iterations_app, !model_calls_app, Hl1, Hm1, Hl2, Hm2.
      split; [reflexivity |]. split; [reflexivity |].
      split.
      { change (i :: range) with ([i] ++ range). rewrite count_occ_app.
        cbn [model_calls filter Bool.eqb List.length] in *. lia. }
      destruct (loop_failure c tools range s1) as [[j e] |].
      * destruct Hfail as (pre & -> & Hpre). exists (fr ++ pre).
        split; [now rewrite app_assoc | now apply Forall_app].
      * now apply Forall_app.
    + assert (Hsplit : exists turns last,
                 ms = turns ++ last /\ answered turns
                 /\ (last = [] \/ (cut_turn last /\ raised_in c tools i s <> None))).
      { destruct Ha1 as [Ha1 | (_ & Hcut & Hr)].
        - exists ms, []. rewrite app_nil_r. auto.
        - exists [], ms. cbn. auto using answered_nil. }
      destruct Hsplit as (turns & last & -> & Hturns & Hlast).
      exists 1, (LogIteration (i + 1) :: LLMRequest false :: ev), turns, last, fr, s1.
      split; [reflexivity |]. split; [exact G1 |]. split; [exact Hturns |].
      split.
      { destruct Hlast as [-> | [Hcut Hr]]; [now left | right]. split; [exact Hcut |].
        destruct (raised_in c tools i s); [discriminate | congruence]. }
      split; [cbn; lia |].
      change (LogIteration (i + 1) :: LLMRequest false :: ev)
        with ([LogIteration (i + 1); LLMRequest false] ++ ev).
      rewrite logged_iterations_app, !model_calls_app, Hl1, Hm1.
      split; [reflexivity |]. split; [reflexivity |].
      split.
      { change (i :: range) with ([i] ++ range). rewrite count_occ_app.
        cbn [model_calls filter Bool.eqb List.length] in *. lia. }
      destruct (raised_in c tools i s) as [e |]; [now destruct Hraised | exact Hraised].
Qed.

(** When the system message can be built, the tool list can be built too:
    both read the same entries, and the system message reads more of each. *)
Lemma format_tools_after_description (tools : list catalog_entry) (l : list tool_summary) :
  _tools_description tools = Return l ->
  exists l', format_tools tools = Return l'.
Proof.
  revert l. induction tools as [| [t | x] tools IH]; intros l; cbn.
  - eauto.
  - destruct (tool_description t); [| discriminate].
    destruct (_tools_description tools) as [l0 |]; [| discriminate].
    intros _. destruct (IH l0 eq_refl) as [l' ->]. eauto.
  - discriminate.
Qed.

Lemma tools_after_system_message (c : client) (text : string) :
  _create_system_message c = Return text ->
  exists tools, _format_tools_for_llm c = Return tools.
Proof.
  unfold _create_system_message, _format_tools_for_llm.
  destruct (_tools_description (available_tools c)) as [l |] eqn:Hl; [| discriminate].
  intros _. exact (format_tools_after_description _ Hl).
Qed.

(** When building the system message raises, nothing else happens. *)
Lemma process_query_setup_raises (c : client) (query : string) (w : W) (e : exn) :
  _create_system_message c = Raise e ->
  process_query c query (entry w) = (Return (critical_error e), entry w).
Proof.
  intros Hsetup. unfold process_query, process_query_body. unfold_frame_ops. unfold_monad.
  now rewrite Hsetup.
Qed.

(** After the set-up, [process_query] is the loop run from the opening. *)
Lemma process_query_loop (c : client) (query : string) (w : W) (text : string)
    (tools : list llm_tool) :
  _create_system_message c = Return text ->
  _format_tools_for_llm c = Return tools ->
  process_query c query (entry w)
  = (Return (select_result
               (final_text (snd (for_each (iteration c tools) (seq 0 max_iterations)
                                          (opened w text query))))),
     snd (for_each (iteration c tools) (seq 0 max_iterations) (opened w text query))).
Proof.
  intros Hsetup Htools. unfold process_query, process_query_body. unfold_frame_ops.
  unfold_monad. rewrite Hsetup, Htools. cbv beta iota.
  cbn [world log messages final_text tool_results entry].
  fold (opening text query). fold (opened w text query).
  destruct (main_loop_effect c tools (seq 0 max_iterations) (opened w text query))
    as (k & ev & ts & last & fr & s' & Hrun & _).
  rewrite Hrun. reflexivity.
Qed.

(** Otherwise the loop runs and the answer is selected from the transcript. *)
Lemma process_query_setup_returns (c : client) (query : string) (w : W) (text : string) :
  _create_system_message c = Return text ->
  exists tools k turns last s',
    _format_tools_for_llm c = Return tools
    /\ process_query c query (entry w) = (Return (select_result (final_text s')), s')
    /\ messages s' = opening text query ++ turns ++ last
    /\ answered turns
    /\ (last = []
        \/ (cut_turn last
            /\ loop_failure c tools (seq 0 max_iterations) (opened w text query) <> None))
    /\ k <= max_iterations
    /\ logged_iterations (log s') = seq 1 k
    /\ model_calls false (log s') = k
    /\ model_calls true (log s') <= 1
    /\ match loop_failure c tools (seq 0 max_iterations) (opened w text query) with
       | Some (i, e) =>
           exists pre, final_text s' = pre ++ [failure_fragment i e]
                       /\ Forall reply_fragment pre
       | None => Forall reply_fragment (final_text s')
       end.
Proof.
  intros Hsetup. destruct (tools_after_system_message c Hsetup) as [tools Htools].
  rewrite (process_query_loop c query w Hsetup Htools).
  destruct (main_loop_effect c tools (seq 0 max_iterations) (opened w text query))
    as (k & ev & ts & last & fr & s' & Hrun & [L M F] & Ha & Hlast & Hk & Hl & Hm & Hw & Hfail).
  rewrite Hrun. cbn [snd]. cbn [opened log messages final_text app] in L, M, F.
  exists tools, (Nat.min k max_iterations), ts, last, s'. rewrite L, F, M.
  rewrite length_seq in Hk. rewrite firstn_range in Hl.
  conjs; auto.
  - apply Nat.le_min_r.
  - rewrite Hl. rewrite <- seq_shift. apply map_ext. intros a. apply Nat.add_1_r.
  - rewrite Hm. symmetry. now apply Nat.min_l.
Qed.

Lemma transcript_has_sources (c : client) (tools : list llm_tool) (range : list nat)
    (s : frame W) (fragments : list string) :
  match loop_failure c tools range s with
  | Some (i, e) =>
      exists pre, fragments = pre ++ [failure_fragment i e] /\ Forall reply_fragment pre
  | None => Forall reply_fragment fragments
  end ->
  Forall fragment_source fragments.
Proof.
  destruct (loop_failure c tools range s) as [[i e] |].
  - intros (pre & -> & Hpre). apply Forall_app. split.
    + eapply Forall_impl; [| exact Hpre]. intros t Ht. now left.
    + constructor; [| constructor]. right. eauto.
  - intros H. eapply Forall_impl; [| exact H]. intros t Ht. now left.
Qed.

(** *** What the specification says of [process_query] *)

(** C1, amended. In a turn of the main loop whose model reply carries N >= 1
    tool calls, each of them a JSON object whose ["function"] is an object or
    is missing, the conversation grows by the assistant message and then by
    exactly N tool-role messages, in the order of the calls, each under what
    its call has as ["id"] ([""] when the call has none). This holds for
    every backend, so whatever each call does: return, raise, time out, or
    fail at [json.loads]. *)
Theorem tool_calls_answered_in_order
    (c : client) (tools : list llm_tool) (i : nat) (s : frame W)
    (r : llm_response) (w : W) :
  llm_call (messages s) tools (world s) = (Return r, w) ->
  resp_tool_calls r <> [] ->
  forallb readable (resp_tool_calls r) = true ->
  exists replies,
    messages (snd (iteration c tools i s))
    = messages s ++ assistant_message r :: replies
    /\ List.length replies = List.length (resp_tool_calls r)
    /\ Forall (fun m => msg_role m = tool) replies
    /\ map msg_tool_call_id replies
       = map (fun tc => Some (tool_call_id_of tc)) (resp_tool_calls r).
Proof.
  intros Hcall Hsome Hread.
  destruct (@iteration_tool_calls c tools i s r w Hcall Hsome Hread)
    as (texts & s' & Hrun & Hlen & Hm).
  exists (tool_messages (resp_tool_calls r) texts).
  rewrite Hrun. cbn [snd]. split; [exact Hm |].
  now apply tool_messages_shape.
Qed.


(** C3. One run of [process_query] logs the iterations 1, 2, ..., k for some
    k <= 10, so every logged counter lies in [1, 10]; the main loop calls the
    model exactly k times, and at most one further call is made, for the
    final answer. *)
Theorem at_most_ten_iterations (c : client) (query : string) (w : W) :
  exists k,
    k <= 10
    /\ logged_iterations (log (snd (process_query c query (entry w)))) = seq 1 k
    /\ Forall (fun n => 1 <= n <= 10)
              (logged_iterations (log (snd (process_query c query (entry w)))))
    /\ model_calls false (log (snd (process_query c query (entry w)))) = k
    /\ model_calls true (log (snd (process_query c query (entry w)))) <= 1.
Proof.
  destruct (_create_system_message c) as [text | e] eqn:Hsetup.
  - destruct (process_query_setup_returns c query w Hsetup)
      as (tools & k & ts & last & s' & _ & Hrun & _ & _ & _ & Hk & Hl & Hm & Hw & _).
    rewrite Hrun. cbn [snd]. exists k. unfold max_iterations in Hk.
    conjs; auto. rewrite Hl. apply Forall_forall. intros n Hin.
    apply in_seq in Hin. lia.
  - rewrite (process_query_setup_raises c query w Hsetup). cbn.
    exists 0. conjs; auto using Nat.le_0_l.
Qed.

(** C4, amended. When the system message is built, the value returned is the
    last non-empty fragment of the transcript, or the sentinel when the
    transcript is empty; every fragment of the transcript is non-empty, so
    this is its last element. When building the system message raises, the
    value returned is the text of the outer handler. *)
Theorem answer_is_last_fragment (c : client) (query : string) (w : W) :
  fst (process_query c query (entry w))
  = Return (match _create_system_message c with
            | Return _ =>
                claimed_answer (final_text (snd (process_query c query (entry w))))
            | Raise e => critical_error e
            end)
  /\ Forall nonempty_text (final_text (snd (process_query c query (entry w)))).
Proof.
  destruct (_create_system_message c) as [text | e] eqn:Hsetup.
  - destruct (process_query_setup_returns c query w Hsetup)
      as (tools & k & ts & last & s' & _ & Hrun & _ & _ & _ & _ & _ & _ & _ & Hfail).
    apply transcript_has_sources in Hfail.
    assert (Hne : Forall nonempty_text (final_text s')).
    { eapply Forall_impl; [| exact Hfail]. apply fragment_source_nonempty. }
    rewrite Hrun. cbn [fst snd]. split; [| exact Hne].
    now rewrite select_result_last.
  - rewrite (process_query_setup_raises c query w Hsetup). cbn.
    split; [reflexivity | constructor].
Qed.

End Facts.

(** *** Runs of the scripted backends *)

(** The first turn on the HTTP side: four tool messages, for a timeout, two
    failures of [json.loads] and a timeout, under the ids of the calls. *)
Example first_turn_messages :
  map (fun m => (msg_role m, msg_tool_call_id m, msg_content m))
      (messages (snd (iteration http_client_side [] 0 (entry 0))))
  = [(assistant, None, None);
     (tool, Some (JString "call_1"), Some "Таймаут при вызове инструмента search_internet");
     (tool, Some (JString "call_2"),
      Some "Ошибка при вызове инструмента search_internet: Expecting value: line 1 column 1 (char 0)");
     (tool, Some (JString "call_3"),
      Some "Ошибка при вызове инструмента search_internet: the JSON object must be str, bytes or bytearray, not dict");
     (tool, Some (JString ""), Some "Таймаут при вызове инструмента ")].
Proof. reflexivity. Qed.

Example scripted_answer :
  fst (process_query stdio_client_side "q" (entry 0)) = Return "done".
Proof. reflexivity. Qed.

Example scripted_requests :
  log (snd (process_query stdio_client_side "q" (entry 0)))
  = [LogIteration 1; LLMRequest false; ToolRequest (JString "search_internet");
     ToolRequest (JString "");
     LogIteration 2; LLMRequest false].
Proof. reflexivity. Qed.

Example insisting_run :
  let run := process_query (B := insisting) stdio_client_side "q" (entry 0) in
  fst run = Return (nl ++ "Итоговый ответ: summary")%string
  /\ logged_iterations (log (snd run)) = [1; 2; 3; 4; 5; 6; 7; 8; 9; 10]
  /\ model_calls false (log (snd run)) = 10
  /\ model_calls true (log (snd run)) = 1
  /\ List.length (messages (snd run)) = 22.
Proof. repeat split. Qed.

(** A model call that raises in the second iteration: the failure that ends
    the loop is that one, and its report is the answer. *)
Example failing_second_run :
  loop_failure (B := failing_second) stdio_client_side [] (seq 0 max_iterations)
               (opened 0 ("assist" ++ nl ++ nl
                          ++ "У тебя есть доступ к следующим инструментам:" ++ nl ++ "[]")%string
                       "q")
  = Some (1, OtherException "'NoneType' object has no attribute 'get'")
  /\ fst (process_query (B := failing_second) stdio_client_side "q" (entry 0))
     = Return (nl ++ "Ошибка на итерации 2: 'NoneType' object has no attribute 'get'")%string.
Proof. split; reflexivity. Qed.

(** A tool call with [null] for its function: the read raises, and the
    report of that failure is the answer, after the content of the reply. *)
Example careless_run :
  fst (process_query (B := careless) stdio_client_side "q" (entry 0))
  = Return (nl ++ "Ошибка на итерации 1: 'NoneType' object has no attribute 'get'")%string
  /\ final_text (snd (process_query (B := careless) stdio_client_side "q" (entry 0)))
     = ["searching";
        (nl ++ "Ошибка на итерации 1: 'NoneType' object has no attribute 'get'")%string].
Proof. split; reflexivity. Qed.

Example undescribed_answer :
  fst (process_query undescribed "q" (entry 0))
  = Return "Критическая ошибка при обработке запроса: expected string or bytes-like object, got 'NoneType'".
Proof. reflexivity. Qed.

(** C1 at the first turn of the scripted backend. *)
Lemma tool_calls_answered_in_order_scripted :
  exists replies,
    messages (snd (iteration http_client_side [] 0 (entry 0)))
    = messages (entry 0) ++ assistant_message first_reply :: replies
    /\ List.length replies = List.length (resp_tool_calls first_reply)
    /\ Forall (fun m => msg_role m = tool) replies
    /\ map msg_tool_call_id replies
       = map (fun tc => Some (tool_call_id_of tc)) (resp_tool_calls first_reply).
Proof.
  apply (@tool_calls_answered_in_order nat scripted http_client_side [] 0 (entry 0)
           first_reply 1).
  - reflexivity.
  - discriminate.
  - reflexivity.
Defined.

(** C1 as stated fails: the reply carries three tool calls, the second with
    [null] for its function; the turn leaves the assistant message and one
    tool message, and no three. *)
Lemma unreadable_call_cuts_the_turn :
  llm_call (Backend := careless) (messages (entry 0)) [] (world (entry 0))
  = (Return careless_reply, 1)
  /\ List.length (resp_tool_calls careless_reply) = 3
  /\ messages (snd (iteration (B := careless) stdio_client_side [] 0 (entry 0)))
     = [assistant_message careless_reply; tool_message (JString "call_1") "found"]
  /\ ~ exists replies,
         messages (snd (iteration (B := careless) stdio_client_side [] 0 (entry 0)))
         = messages (entry 0) ++ assistant_message careless_reply :: replies
         /\ List.length replies = List.length (resp_tool_calls careless_reply).
Proof.
  split; [reflexivity |]. split; [reflexivity |]. split; [reflexivity |].
  intros (replies & Hm & Hlen). cbn in Hm. injection Hm as <-. discriminate.
Qed.

(** C4 as stated fails: with a tool that has no description the transcript
    stays empty, and the answer is the text of the outer handler, not the
    sentinel. *)
Lemma empty_transcript_without_sentinel :
  final_text (snd (process_query undescribed "q" (entry 0))) = []
  /\ fst (process_query undescribed "q" (entry 0))
     <> Return (claimed_answer (final_text (snd (process_query undescribed "q" (entry 0))))).
Proof. split; [reflexivity | discriminate]. Qed.

End AgentLoop.

(** ** Teardown *)

Module Teardown.

Import MCPClient.

#[local] Open Scope list_scope.

(** *** Vocabulary and a scenario *)

(** The close calls [cleanup] is due to make on a client, in its order. *)
Definition due_steps (c : client) : list close_step :=
  [CloseHttpClient]
  ++ (if has_mcp_client c then [CloseMcpClient] else [])
  ++ (match exit_stack c with Holds => [CloseExitStack] | _ => [] end).

(** A client whose three resources all fail to close. *)
#[local] Instance all_failing : Resources unit := {|
  http_client_aclose := fun w => (Raise (OtherException "client has been closed"), w);
  mcp_client_close := fun w => (Raise (OtherException "client has been closed"), w);
  exit_stack_aclose := fun w =>
    (Raise (OtherException "Attempted to exit cancel scope in a different task"), w)
|}.

Definition connected : client :=
  {| instructions := None; available_tools := [];
     has_mcp_client := true; exit_stack := Holds |}.

(** *** Facts *)

Section Facts.

Context {W : Type} {R : Resources W}.

(** One call of [cleanup] returns, has attempted every step that was due
    whatever the earlier steps did, and leaves [exit_stack] set to [None]
    when the attribute exists. *)
Lemma cleanup_effect (s : teardown W) :
  exists s',
    cleanup s = (Return tt, s')
    /\ td_steps s' = td_steps s ++ due_steps (td_self s)
    /\ has_mcp_client (td_self s') = has_mcp_client (td_self s)
    /\ exit_stack (td_self s')
       = (if hasattr (exit_stack (td_self s)) then IsNone else Missing).
Proof.
  unfold cleanup, aclose_exit_stack, closing, due_steps.
  unfold bind, ret, raise, try_except, try_finally, lift, modify, gets, when.
  destruct s as [[ins tools has_mcp stack] w steps]. cbn [td_self td_world td_steps
    has_mcp_client exit_stack instructions available_tools].
  destruct has_mcp, stack;
    repeat (cbn;
            match goal with
            | |- context [http_client_aclose ?x] =>
                destruct (http_client_aclose x) as [[[] | ?] ?]
            | |- context [mcp_client_close ?x] =>
                destruct (mcp_client_close x) as [[[] | ?] ?]
            | |- context [exit_stack_aclose ?x] =>
                destruct (exit_stack_aclose x) as [[[] | ?] ?]
            end);
    cbn; eexists; (split; [reflexivity |]); cbn; rewrite <- ?app_assoc; cbn;
    repeat split; rewrite ?app_nil_r; reflexivity.
Qed.

(** C9. Two calls of [cleanup] in succession both return, whatever each of
    the three close calls does (return or raise) in either call: the first
    call attempts every step that is due, and the second finds [exit_stack]
    set to [None], whose attribute error is caught like any other. *)
Theorem cleanup_twice_never_raises (s : teardown W) :
  fst (cleanup s) = Return tt
  /\ fst (cleanup (snd (cleanup s))) = Return tt
  /\ td_steps (snd (cleanup s)) = td_steps s ++ due_steps (td_self s).
Proof.
  destruct (cleanup_effect s) as (s1 & H1 & Hsteps & _).
  destruct (cleanup_effect s1) as (s2 & H2 & _).
  rewrite H1. cbn [fst snd]. rewrite H2. cbn [fst]. auto.
Qed.

End Facts.

Example failing_teardown_first :
  cleanup (at_rest connected tt)
  = (Return tt,
     {| td_self := {| instructions := None; available_tools := [];
                      has_mcp_client := true; exit_stack := IsNone |};
        td_world := tt;
        td_steps := [CloseHttpClient; CloseMcpClient; CloseExitStack] |}).
Proof. reflexivity. Qed.

Example failing_teardown_second :
  td_steps (snd (cleanup (snd (cleanup (at_rest connected tt)))))
  = [CloseHttpClient; CloseMcpClient; CloseExitStack; CloseHttpClient; CloseMcpClient].
Proof. reflexivity. Qed.

End Teardown.

(** ** The search client *)

Module SearchResults.

Import YandexSearch.

#[local] Open Scope list_scope.

(** *** Vocabulary: parsing *)

(** What the document loop keeps: the records of the documents whose
    extraction returned, in document order. *)
Definition extracted (extract : element -> result search_result) (docs : list element)
  : list search_result :=
  flat_map (fun doc => match extract doc with
                       | Return r => [r]
                       | Raise _ => []
                       end) docs.

(** *** Vocabulary: filtering *)

(** [n] lies below the bound. *)
Definition below (n : Z) (b : bound) : Prop :=
  match b with
  | Finite z => (n < z)%Z
  | Infinity => True
  end.

(** The records the specification keeps: content present, not empty, and of
    a length strictly between the two bounds. *)
Definition inside (min_length : Z) (max_length : bound) (r : search_result) : Prop :=
  exists c,
    content r = Some c /\ c <> [] /\ (min_length < len c)%Z /\ below (len c) max_length.

(** [kept] is [all] without the elements that fail [keep], the others
    unchanged, in place and as often as they occur. *)
Inductive selection {A : Type} (keep : A -> Prop) : list A -> list A -> Prop :=
| selection_nil : selection keep [] []
| selection_keep x all kept :
    keep x -> selection keep all kept -> selection keep (x :: all) (x :: kept)
| selection_drop x all kept :
    ~ keep x -> selection keep all kept -> selection keep (x :: all) kept.

(** *** Vocabulary: the content of a record *)

(** The ["extended-text"] property of a document, when it is present. *)
Definition extended_text_elem (doc : element) : option element :=
  match find doc (u "properties") with
  | Some properties => find properties (u "extended-text")
  | None => None
  end.

(** The texts of the passages of a document, empty ones included. *)
Definition passage_texts (doc : element) : list ustr :=
  map (fun passage => _get_element_full_text (Some passage)) (iter (u "passage") doc).

Definition joined_passages (doc : element) : ustr :=
  ujoin (u " ") (filter nonempty (passage_texts doc)).

Definition headline_text (doc : element) : ustr :=
  _clean_text (_get_element_full_text (find doc (u "headline"))).

(** The content by the words of the specification: the choice goes by what
    is present. *)
Definition claimed_content (doc : element) : ustr :=
  _clean_text
    (match extended_text_elem doc with
     | Some ext => _get_element_full_text (Some ext)
     | None =>
         match iter (u "passage") doc with
         | [] => headline_text doc
         | _ :: _ => joined_passages doc
         end
     end).

(** The content by what the code does: the choice goes by what is not
    empty. *)
Definition fallback_content (doc : element) : ustr :=
  if nonempty (joined_passages doc) then joined_passages doc else headline_text doc.

Definition chosen_content (doc : element) : ustr :=
  match extended_text_elem doc with
  | Some ext =>
      if nonempty (_get_element_full_text (Some ext))
      then _get_element_full_text (Some ext)
      else fallback_content doc
  | None => fallback_content doc
  end.

(** *** Sample documents *)

(** A stand-in for [ET.fromstring] that knows one document. *)
Definition leaf (tag text : string) : element :=
  Element (u tag) (Some (u text)) None [].

Definition sample_tree : element :=
  Element (u "yandexsearch") None None
    [Element (u "response") None None
       [Element (u "doc") None None
          [leaf "url" "https://a.example/"; leaf "domain" "a.example";
           leaf "title" "First"; leaf "headline" "About <b>a</b>"];
        Element (u "doc") None None
          [leaf "url" "https://b.example/"; leaf "domain" "b.example";
           Element (u "passages") None None [leaf "passage" "one"; leaf "passage" "two"]]]].

Definition sample_xml : ustr := u "<yandexsearch>...</yandexsearch>".

Definition sample_parser : XmlParser := {|
  fromstring := fun xml_content =>
    if ustr_eqb xml_content sample_xml then Return sample_tree
    else Raise (ParseError "syntax error: line 1, column 0")
|}.

(** An extraction step that raises on the documents without a headline. *)
Definition needs_headline (doc : element) : result search_result :=
  match find doc (u "headline") with
  | Some _ => Return (extract_doc doc)
  | None => Raise (OtherException "'NoneType' object has no attribute 'text'")
  end.

Definition with_content (c : string) : search_result :=
  {| url := []; domain := []; title := []; headline := []; modtime := []; lang := [];
     content := Some (u c) |}.

(** A document whose ["extended-text"] property is present but empty. *)
Definition empty_extended_text : element :=
  Element (u "doc") None None
    [leaf "headline" "Head";
     Element (u "properties") None None
       [Element (u "extended-text") None None []; leaf "lang" "ru"];
     Element (u "passages") None None [leaf "passage" "from a passage"]].

(** *** Parsing *)

Lemma extracted_total (f : element -> search_result) (docs : list element) :
  extracted (fun doc => Return (f doc)) docs = map f docs.
Proof.
  unfold extracted. induction docs as [| doc docs IH]; cbn; [reflexivity | now rewrite IH].
Qed.

Section Parsing.

Context {P : XmlParser}.

Lemma document_loop (extract : element -> result search_result) (docs : list element)
    (parsed : list search_result) :
  for_each (parse_doc extract) docs parsed = (Return tt, parsed ++ extracted extract docs).
Proof.
  revert parsed. induction docs as [| doc docs IH]; intros parsed; cbn.
  - now rewrite app_nil_r.
  - unfold bind at 1. unfold parse_doc at 1.
    unfold bind, try_except, lift, modify, ret.
    destruct (extract doc) as [r | e]; rewrite IH; cbn; now rewrite <- ?app_assoc.
Qed.

(** The parser, run: the empty list when [ET.fromstring] raises, and what the
    document loop keeps otherwise. *)
Lemma parse_search_results_run (extract : element -> result search_result)
    (xml_content : ustr) :
  _parse_search_results_with extract xml_content
  = Return (match fromstring xml_content with
            | Raise _ => []
            | Return root => extracted extract (iter (u "doc") root)
            end).
Proof.
  unfold _parse_search_results_with. unfold try_except at 1. unfold bind at 1. unfold lift at 1.
  destruct (fromstring xml_content) as [root | e].
  - unfold bind at 1. unfold modify at 1. unfold bind at 1.
    rewrite document_loop. reflexivity.
  - now destruct e.
Qed.

Lemma extracted_skips (extract : element -> result search_result)
    (before after : list element) (doc : element) (e : exn) :
  extract doc = Raise e ->
  extracted extract (before ++ doc :: after)
  = extracted extract before ++ extracted extract after.
Proof.
  intros He. unfold extracted. rewrite flat_map_app. cbn. now rewrite He.
Qed.

(** C5. For every input string and every extraction step, the parser
    returns a list and does not raise. When [ET.fromstring] raises (a
    [ParseError] or anything else) the list is empty. Otherwise it holds the
    records of the documents whose extraction returned: a document whose
    extraction raises is left out and those around it are kept. *)
Theorem parser_never_raises (extract : element -> result search_result) (xml_content : ustr) :
  exists records,
    _parse_search_results_with extract xml_content = Return records
    /\ match fromstring xml_content with
       | Raise _ => records = []
       | Return root => records = extracted extract (iter (u "doc") root)
       end
    /\ forall before doc after e,
         extract doc = Raise e ->
         extracted extract (before ++ doc :: after)
         = extracted extract before ++ extracted extract after.
Proof.
  rewrite parse_search_results_run. eexists. split; [reflexivity |]. split.
  - now destruct (fromstring xml_content).
  - intros before doc after e He. now apply extracted_skips with (e := e).
Qed.

(** With the program's own extraction, which returns on every element, every
    document gives a record. *)
Lemma parse_search_results_all (xml_content : ustr) (root : element) :
  fromstring xml_content = Return root ->
  _parse_search_results xml_content = Return (map extract_doc (iter (u "doc") root)).
Proof.
  intros Hparse. unfold _parse_search_results.
  now rewrite parse_search_results_run, Hparse, extracted_total.
Qed.

End Parsing.

Example parse_malformed :
  _parse_search_results (P := sample_parser) (u "<doc") = Return [].
Proof. reflexivity. Qed.

Example parse_sample :
  match _parse_search_results (P := sample_parser) sample_xml with
  | Return records => map (fun r => (domain r, content r)) records
  | Raise _ => []
  end
  = [(u "a.example", Some (u "About a")); (u "b.example", Some (u "one two"))].
Proof. reflexivity. Qed.

Example parse_skips_failed_document :
  match _parse_search_results_with (P := sample_parser) needs_headline sample_xml with
  | Return records => map domain records
  | Raise _ => []
  end
  = [u "a.example"].
Proof. reflexivity. Qed.

(** *** Filtering *)

Lemma keeps_inside (min_length : Z) (max_length : bound) (r : search_result) :
  keeps min_length max_length r = true <-> inside min_length max_length r.
Proof.
  unfold keeps, inside. destruct (content r) as [c |].
  - split.
    + intros H. apply andb_prop in H as [Hne H]. apply andb_prop in H as [Hmax Hmin].
      exists c. split; [reflexivity |]. split; [now destruct c |].
      split; [now apply Z.ltb_lt |].
      destruct max_length; cbn in *; [now apply Z.ltb_lt | exact I].
    + intros (c' & [= <-] & Hne & Hmin & Hmax).
      apply andb_true_intro. split; [now destruct c |].
      apply andb_true_intro. split; [| now apply Z.ltb_lt].
      destruct max_length; cbn in *; [now apply Z.ltb_lt | reflexivity].
  - split; [discriminate |]. now intros (c & [=] & _).
Qed.

(** C6. [optimize_results] returns exactly the records whose content is
    present, non-empty and of a length strictly between [min_length] and
    [max_length], unchanged and in their order; so a record is in the result
    exactly when it is in the input and satisfies this. With
    [min_length = 30] and no upper bound these are the records whose content
    is longer than 30. *)
Theorem optimize_keeps_exactly (parsed_results : list search_result)
    (min_length : Z) (max_length : bound) :
  selection (inside min_length max_length) parsed_results
            (optimize_results parsed_results min_length max_length)
  /\ (forall r, In r (optimize_results parsed_results min_length max_length)
                <-> In r parsed_results /\ inside min_length max_length r)
  /\ (forall r, inside 30 Infinity r <-> exists c, content r = Some c /\ (30 < len c)%Z).
Proof.
  split; [| split].
  - unfold optimize_results. induction parsed_results as [| r rs IH]; cbn.
    + constructor.
    + destruct (keeps min_length max_length r) eqn:Hk.
      * apply selection_keep; [now apply keeps_inside | exact IH].
      * apply selection_drop; [| exact IH].
        intros Hin. apply keeps_inside in Hin. congruence.
  - intros r. unfold optimize_results. rewrite filter_In, keeps_inside. reflexivity.
  - intros r. unfold inside, below. split.
    + intros (c & Hc & _ & Hlen & _). now exists c.
    + intros (c & Hc & Hlen). exists c. repeat split; auto.
      intros ->. cbn in Hlen. lia.
Qed.

Example optimize_sample :
  optimize_results
    [with_content ""; with_content "exactly thirty code points ...";
     with_content "thirty-one code points in here.";
     {| url := []; domain := []; title := []; headline := []; modtime := []; lang := [];
        content := None |}]
    30 Infinity
  = [with_content "thirty-one code points in here."].
Proof. reflexivity. Qed.

Example optimize_upper_bound :
  optimize_results [with_content "abc"; with_content "abcd"] 0 (Finite 4)
  = [with_content "abc"].
Proof. reflexivity. Qed.

(** *** The content of a record *)

Lemma find_childless (e : element) (tag : ustr) :
  element_truthy (Some e) = false -> find e tag = None.
Proof.
  destruct e as [t tx tl [| c cs]]; cbn; [reflexivity | discriminate].
Qed.

Lemma extended_text_chosen (doc : element) :
  extended_text doc
  = match extended_text_elem doc with
    | Some ext => _get_element_full_text (Some ext)
    | None => []
    end.
Proof.
  unfold extended_text, extended_text_elem.
  destruct (find doc (u "properties")) as [p |] eqn:Hp; [| reflexivity].
  destruct (element_truthy (Some p)) eqn:Ht; [reflexivity |].
  now rewrite (find_childless p (u "extended-text") Ht).
Qed.

Lemma nonempty_false (s : ustr) : nonempty s = false -> s = [].
Proof. now destruct s. Qed.

(** C7, amended. The content of the record of a document is the cleaned
    text of: the ["extended-text"] property when it is present and its text
    is not empty; otherwise the non-empty passage texts joined by single
    spaces, when that is not empty; otherwise the (cleaned) headline. *)
Theorem content_by_priority (doc : element) :
  content (extract_doc doc) = Some (_clean_text (chosen_content doc)).
Proof.
  unfold extract_doc. cbn [content]. f_equal. f_equal.
  rewrite extended_text_chosen. unfold chosen_content, fallback_content.
  fold (headline_text doc).
  change (passages_text doc) with (joined_passages doc).
  destruct (extended_text_elem doc) as [ext |].
  - destruct (nonempty (_get_element_full_text (Some ext))) eqn:He; cbn [negb andb].
    + rewrite He. reflexivity.
    + destruct (nonempty (joined_passages doc)) eqn:Hp; cbn [negb andb]; [reflexivity |].
      destruct (nonempty (headline_text doc)) eqn:Hh; [reflexivity |].
      now rewrite (nonempty_false _ Hp), (nonempty_false _ Hh).
  - cbn [nonempty negb andb].
    destruct (nonempty (joined_passages doc)) eqn:Hp; cbn [negb andb]; [reflexivity |].
    destruct (nonempty (headline_text doc)) eqn:Hh; [reflexivity |].
    now rewrite (nonempty_false _ Hp), (nonempty_false _ Hh).
Qed.

(** C7 as stated fails: the property is present, yet the content comes from
    the passage. *)
Lemma present_but_empty_extended_text :
  extended_text_elem empty_extended_text = Some (Element (u "extended-text") None None [])
  /\ content (extract_doc empty_extended_text) = Some (u "from a passage")
  /\ content (extract_doc empty_extended_text)
     <> Some (claimed_content empty_extended_text).
Proof. repeat split; try reflexivity. discriminate. Qed.

(** Passages that are present but all empty leave the headline. *)
Example empty_passages_fall_to_headline :
  content (extract_doc
             (Element (u "doc") None None
                [leaf "headline" " <hlword>Head</hlword> line ";
                 Element (u "passages") None None [leaf "passage" "  "]]))
  = Some (u "Head line").
Proof. reflexivity. Qed.

Example extended_text_first :
  content (extract_doc
             (Element (u "doc") None None
                [leaf "headline" "Head";
                 Element (u "properties") None None [leaf "extended-text" " long text "];
                 leaf "passage" "a passage"]))
  = Some (u "long text").
Proof. reflexivity. Qed.

Example clean_text_tags :
  _clean_text (u " a <b>bold</b> <> 1 < 2 > 0 <i x='>'>'> ") = u "a bold <> 1  0 '>'>".
Proof. reflexivity. Qed.

End SearchResults.

(** ** Submitting and polling *)

Module SearchPipeline.

Import YandexSearch.

#[local] Open Scope list_scope.

(** *** Vocabulary *)

(** [k] status calls, each followed by a sleep of one second. *)
Definition attempt_trace (op_id : string) (k : nat) : list net_event :=
  List.concat (repeat [Get op_id; Sleep 1] k).

Section Outcomes.

Context {W : Type} {Net : Network W}.

(** A status call that leaves the operation pending: it returns, and either
    the status is not 200 or the operation is not done. *)
Definition pending (reply : result get_response * W) : Prop :=
  exists resp w,
    reply = (Return resp, w)
    /\ ((get_status resp =? 200)%Z = false
        \/ exists o, get_json resp = Return o /\ op_done o = false).

(** The world in which the status call number [j] of a polling is made,
    counted from 0, when the polling starts in [w] and each earlier call was
    followed by its sleep. *)
Fixpoint world_at (op_id : string) (j : nat) (w : W) : W :=
  match j with
  | 0 => w
  | S j' => world_at op_id j' (sleep 1 (snd (session_get op_id w)))
  end.

(** What a status call gives that does not leave the operation pending: the
    decoded payload, or what the call, the reading of its body or the
    decoding raised. *)
Definition decoded (reply : result get_response * W) : result ustr :=
  match fst reply with
  | Raise e => Raise e
  | Return resp =>
      match get_json resp with
      | Raise e => Raise e
      | Return o => op_payload o
      end
  end.

(** How the polling of one operation ended. *)
Inductive poll_end (op_id : string) (attempts k : nat) (r : result unit)
    : list net_event -> list ustr -> Prop :=
| budget_spent :
    r = Return tt -> k = 10 - attempts -> poll_end op_id attempts k r [] []
| operation_done xml :
    r = Return tt -> attempts + k < 10 ->
    (exists w, ~ pending (session_get op_id w)) ->
    poll_end op_id attempts k r [Get op_id] [xml]
| call_raised e :
    r = Raise e -> attempts + k < 10 ->
    (exists w, ~ pending (session_get op_id w)) ->
    poll_end op_id attempts k r [Get op_id] [].

End Outcomes.

(** *** Three networks to run [search] on *)

(** The operation is accepted and never completes; the world is the number of
    seconds slept. *)
#[local] Instance never_done : Network Z := {|
  session_enter := fun w => (Return tt, w);
  session_exit := fun w => (Return tt, w);
  session_post := fun _ w =>
    (Return {| post_status := 200; post_text := Return ""; post_id := Return "op-1" |}, w);
  session_get := fun _ w =>
    (Return {| get_status := (if Z.even w then 200 else 503);
               get_json := Return {| op_done := false;
                                     op_payload := Raise (OtherException "'response'") |} |},
     w);
  sleep := fun seconds w => (w + seconds)%Z
|}.

(** The operation is done at the third status call; the world is the number
    of status calls made. *)
#[local] Instance done_at_third : Network nat := {|
  session_enter := fun w => (Return tt, w);
  session_exit := fun w => (Return tt, w);
  session_post := fun body w =>
    if (page body =? 0)%Z
    then (Return {| post_status := 200; post_text := Return ""; post_id := Return "op-1" |}, w)
    else (Return {| post_status := 429; post_text := Return "quota";
                    post_id := Raise (OtherException "'id'") |}, w);
  session_get := fun _ w =>
    (Return {| get_status := (if (w =? 0)%nat then 500 else 200);
               get_json := Return {| op_done := (2 <=? w)%nat;
                                     op_payload := Return SearchResults.sample_xml |} |},
     S w);
  sleep := fun _ w => w
|}.

(** The session cannot be opened. *)
#[local] Instance unreachable : Network unit := {|
  session_enter := fun w => (Raise (OtherException "Cannot connect to host"), w);
  session_exit := fun w => (Return tt, w);
  session_post := fun _ w => (Raise (OtherException "Session is closed"), w);
  session_get := fun _ w => (Raise (OtherException "Session is closed"), w);
  sleep := fun _ w => w
|}.

(** *** Facts *)

Ltac conjs := repeat match goal with |- _ /\ _ => split end.

Section Facts.

Context {W : Type} {Net : Network W} {P : XmlParser}.

Lemma calling_effect {A} (e : net_event) (op : W -> result A * W)
    (s s1 : search_state W) (r : result A) :
  calling e op s = (r, s1) ->
  op (net s) = (r, net s1)
  /\ calls s1 = calls s ++ [e]
  /\ operations s1 = operations s
  /\ xml_results s1 = xml_results s.
Proof.
  unfold calling. destruct (op (net s)) as [r' w]. intros [= <- <-]. cbn. auto.
Qed.

Lemma poll_end_later (op_id : string) (attempts k : nat) (r : result unit)
    (last : list net_event) (payloads : list ustr) :
  attempts < 10 ->
  poll_end op_id (S attempts) k r last payloads ->
  poll_end op_id attempts (S k) r last payloads.
Proof.
  intros Hlt [Hr Hk | xml Hr Hk Hw | e Hr Hk Hw].
  - apply budget_spent; [exact Hr | lia].
  - apply operation_done; [exact Hr | lia | exact Hw].
  - eapply call_raised; [exact Hr | lia | exact Hw].
Qed.

Lemma not_pending_here (op_id : string) (s : search_state W) (r : result get_response) (w : W) :
  session_get op_id (net s) = (r, w) ->
  match r with
  | Raise _ => True
  | Return resp =>
      (get_status resp =? 200)%Z = true
      /\ match get_json resp with
         | Raise _ => True
         | Return o => op_done o = true
         end
  end ->
  exists w0, ~ pending (session_get op_id w0).
Proof.
  intros Hget Hr. exists (net s). rewrite Hget.
  intros (resp & w' & [= -> <-] & [Hst | (o & Hj & Hd)]).
  - destruct Hr as [Hr _]. congruence.
  - destruct Hr as [_ Hr]. rewrite Hj in Hr. congruence.
Qed.

Lemma poll_effect (op_id : string) (attempts : nat) (s : search_state W) :
  exists k last payloads,
    calls (snd (poll op_id attempts s)) = calls s ++ attempt_trace op_id k ++ last
    /\ xml_results (snd (poll op_id attempts s)) = xml_results s ++ payloads
    /\ operations (snd (poll op_id attempts s)) = operations s
    /\ poll_end op_id attempts k (fst (poll op_id attempts s)) last payloads.
Proof.
  funelim (poll op_id attempts s).
  - (* the budget is spent *)
    exists 0, [], []. cbn. rewrite !app_nil_r. conjs; auto.
    apply budget_spent; [reflexivity | lia].
  - (* the status call raised *)
    apply calling_effect in Heq as (Hget & Hc & Ho & Hx).
    exists 0, [Get op_id], []. cbn. rewrite app_nil_r. conjs; auto.
    eapply call_raised; [reflexivity | lia |].
    now apply (not_pending_here _ _ Hget).
  - (* status other than 200: sleep and try again *)
    apply calling_effect in Heq0 as (Hget & Hc & Ho & Hx).
    destruct H as (k & last & payloads & Hcalls & Hxml & Hops & Hend).
    exists (S k), last, payloads. rewrite Hcalls, Hxml, Hops. cbn. rewrite Hc, Ho, Hx.
    rewrite <- !app_assoc. cbn. conjs; auto.
    now apply poll_end_later.
  - (* the body of the reply does not parse *)
    apply calling_effect in Heq1 as (Hget & Hc & Ho & Hx).
    exists 0, [Get op_id], []. cbn. rewrite app_nil_r. conjs; auto.
    eapply call_raised; [reflexivity | lia |].
    apply (not_pending_here _ _ Hget). now rewrite Heq0, Heq.
  - (* not done yet: sleep and try again *)
    apply calling_effect in Heq2 as (Hget & Hc & Ho & Hx).
    destruct H as (k & last & payloads & Hcalls & Hxml & Hops & Hend).
    exists (S k), last, payloads. rewrite Hcalls, Hxml, Hops. cbn. rewrite Hc, Ho, Hx.
    rewrite <- !app_assoc. cbn. conjs; auto.
    now apply poll_end_later.
  - (* done, and the payload decodes *)
    apply calling_effect in Heq3 as (Hget & Hc & Ho & Hx).
    exists 0, [Get op_id], [xml]. cbn. rewrite Hx. conjs; auto.
    apply operation_done; [reflexivity | lia |].
    apply (not_pending_here _ _ Hget). now rewrite Heq2, Heq1, Heq0.
  - (* done, and reading the payload raises *)
    apply calling_effect in Heq3 as (Hget & Hc & Ho & Hx).
    exists 0, [Get op_id], []. cbn. rewrite app_nil_r. conjs; auto.
    eapply call_raised; [reflexivity | lia |].
    apply (not_pending_here _ _ Hget). now rewrite Heq2, Heq1, Heq0.
Qed.

(** The body of the loop over the operations is the polling from
    [attempts = 0]; it goes on to the next operation when that returns. *)
Lemma poll_operation_run (op_id : string) (s : search_state W) :
  poll_operation op_id s
  = (match fst (poll op_id 0 s) with
     | Return _ => Return Continue
     | Raise e => Raise e
     end, snd (poll op_id 0 s)).
Proof.
  unfold poll_operation, bind, ret. now destruct (poll op_id 0 s) as [[[] | e] s'].
Qed.

(** A status call that is followed by the sleep left the operation
    pending. *)
Lemma pending_here (op_id : string) (s s1 : search_state W) (resp : get_response) :
  session_get op_id (net s) = (Return resp, net s1) ->
  (get_status resp =? 200)%Z = false
  \/ (exists o, get_json resp = Return o /\ op_done o = false) ->
  pending (session_get op_id (net s)).
Proof. intros Hget H. rewrite Hget. now exists resp, (net s1). Qed.

Lemma not_pending_at (op_id : string) (s : search_state W) (r : result get_response) (w : W) :
  session_get op_id (net s) = (r, w) ->
  match r with
  | Raise _ => True
  | Return resp =>
      (get_status resp =? 200)%Z = true
      /\ match get_json resp with
         | Raise _ => True
         | Return o => op_done o = true
         end
  end ->
  ~ pending (session_get op_id (net s)).
Proof.
  intros Hget Hr. rewrite Hget.
  intros (resp & w' & [= -> <-] & [Hst | (o & Hj & Hd)]).
  - destruct Hr as [Hr _]. congruence.
  - destruct Hr as [_ Hr]. rewrite Hj in Hr. congruence.
Qed.

(** The polling of one operation, from any count of attempts: it makes [k]
    status calls that leave the operation pending, each followed by a sleep
    of one second, until the attempts are spent or a call does not leave the
    operation pending, which is the last thing it does. *)
Lemma poll_run (op_id : string) (attempts : nat) (s : search_state W) :
  exists k,
    k <= 10 - attempts
    /\ (forall j, j < k -> pending (session_get op_id (world_at op_id j (net s))))
    /\ operations (snd (poll op_id attempts s)) = operations s
    /\ (k = 10 - attempts ->
        fst (poll op_id attempts s) = Return tt
        /\ calls (snd (poll op_id attempts s)) = calls s ++ attempt_trace op_id k
        /\ xml_results (snd (poll op_id attempts s)) = xml_results s)
    /\ (k < 10 - attempts ->
        ~ pending (session_get op_id (world_at op_id k (net s)))
        /\ calls (snd (poll op_id attempts s))
           = calls s ++ attempt_trace op_id k ++ [Get op_id]
        /\ match decoded (session_get op_id (world_at op_id k (net s))) with
           | Return xml =>
               fst (poll op_id attempts s) = Return tt
               /\ xml_results (snd (poll op_id attempts s)) = xml_results s ++ [xml]
           | Raise e =>
               fst (poll op_id attempts s) = Raise e
               /\ xml_results (snd (poll op_id attempts s)) = xml_results s
           end).
Proof.
  funelim (poll op_id attempts s).
  - (* the attempts are spent *)
    exists 0. cbn [fst snd]. split; [lia |]. split; [intros j Hj; lia |].
    split; [reflexivity |]. split; [| intros H; lia].
    intros _. cbn. now rewrite app_nil_r.
  - (* the status call raised *)
    apply calling_effect in Heq as (Hget & Hc & Ho & Hx).
    exists 0. cbn [fst snd world_at]. split; [lia |]. split; [intros j Hj; lia |].
    split; [exact Ho |]. split; [intros H; lia |]. intros _.
    split; [now apply (not_pending_at _ _ Hget) |].
    split; [exact Hc |]. unfold decoded. rewrite Hget. cbn. auto.
  - (* status other than 200: sleep and try again *)
    apply calling_effect in Heq0 as (Hget & Hc & Ho & Hx).
    destruct H as (k & Hk & Hpend & Hops & Hspent & Hend).
    assert (Hnet : net (sleeping 1 s1) = sleep 1 (snd (session_get op_id (net s))))
      by (cbn; now rewrite Hget).
    rewrite Hnet in Hpend, Hend.
    exists (S k). split; [lia |].
    split.
    { intros [| j] Hj; cbn [world_at]; [| apply Hpend; lia].
      apply (pending_here _ _ _ Hget). now left. }
    split; [now rewrite Hops |].
    split.
    + intros HSk. destruct Hspent as (Hr & Hcalls & Hxml); [lia |].
      rewrite Hr, Hcalls, Hxml. cbn. rewrite Hc, Hx, <- !app_assoc. auto.
    + intros HSk. destruct Hend as (Hnp & Hcalls & Hdec); [lia |].
      cbn [world_at]. split; [exact Hnp |].
      split; [rewrite Hcalls; cbn; rewrite Hc, <- !app_assoc; reflexivity |].
      destruct (decoded _); cbn in Hdec; rewrite Hx in Hdec; exact Hdec.
  - (* the body of the reply does not parse *)
    apply calling_effect in Heq1 as (Hget & Hc & Ho & Hx).
    exists 0. cbn [fst snd world_at]. split; [lia |]. split; [intros j Hj; lia |].
    split; [exact Ho |]. split; [intros H; lia |]. intros _.
    split; [apply (not_pending_at _ _ Hget); now rewrite Heq0, Heq |].
    split; [exact Hc |]. unfold decoded. rewrite Hget. cbn. rewrite Heq. auto.
  - (* not done yet: sleep and try again *)
    apply calling_effect in Heq2 as (Hget & Hc & Ho & Hx).
    destruct H as (k & Hk & Hpend & Hops & Hspent & Hend).
    assert (Hnet : net (sleeping 1 s1) = sleep 1 (snd (session_get op_id (net s))))
      by (cbn; now rewrite Hget).
    rewrite Hnet in Hpend, Hend.
    exists (S k). split; [lia |].
    split.
    { intros [| j] Hj; cbn [world_at]; [| apply Hpend; lia].
      apply (pending_here _ _ _ Hget). right. eauto. }
    split; [now rewrite Hops |].
    split.
    + intros HSk. destruct Hspent as (Hr & Hcalls & Hxml); [lia |].
      rewrite Hr, Hcalls, Hxml. cbn. rewrite Hc, Hx, <- !app_assoc. auto.
    + intros HSk. destruct Hend as (Hnp & Hcalls & Hdec); [lia |].
      cbn [world_at]. split; [exact Hnp |].
      split; [rewrite Hcalls; cbn; rewrite Hc, <- !app_assoc; reflexivity |].
      destruct (decoded _); cbn in Hdec; rewrite Hx in Hdec; exact Hdec.
  - (* done, and the payload decodes *)
    apply calling_effect in Heq3 as (Hget & Hc & Ho & Hx).
    exists 0. cbn [fst snd world_at]. split; [lia |]. split; [intros j Hj; lia |].
    split; [exact Ho |]. split; [intros H; lia |]. intros _.
    split; [apply (not_pending_at _ _ Hget); now rewrite Heq2, Heq1, Heq0 |].
    split; [exact Hc |]. unfold decoded. rewrite Hget. cbn. rewrite Heq1, Heq. cbn.
    now rewrite Hx.
  - (* done, and reading the payload raises *)
    apply calling_effect in Heq3 as (Hget & Hc & Ho & Hx).
    exists 0. cbn [fst snd world_at]. split; [lia |]. split; [intros j Hj; lia |].
    split; [exact Ho |]. split; [intros H; lia |]. intros _.
    split; [apply (not_pending_at _ _ Hget); now rewrite Heq2, Heq1, Heq0 |].
    split; [exact Hc |]. unfold decoded. rewrite Hget. cbn. rewrite Heq1, Heq. auto.
Qed.

(** C8. Polling one operation makes [k <= 10] status calls that leave the
    operation pending (a status other than 200, or an operation that is not
    done), each followed by a sleep of one second, whatever the status was.
    When all 10 attempts are spent this way it adds no payload and returns,
    so the loop over the operations goes on. Otherwise the next status call
    is the last thing polling does: when it reports the operation done, the
    decoded payload is appended, that one and no other, and polling returns;
    when the call, the reading of its body or the decoding raises, nothing
    is appended and the exception leaves the loop. *)
Theorem polling_is_bounded (op_id : string) (s : search_state W) :
  (exists k,
     k <= 10
     /\ (forall j, j < k -> pending (session_get op_id (world_at op_id j (net s))))
     /\ (k = 10 ->
         fst (poll_operation op_id s) = Return Continue
         /\ calls (snd (poll_operation op_id s)) = calls s ++ attempt_trace op_id 10
         /\ xml_results (snd (poll_operation op_id s)) = xml_results s)
     /\ (k < 10 ->
         ~ pending (session_get op_id (world_at op_id k (net s)))
         /\ calls (snd (poll_operation op_id s))
            = calls s ++ attempt_trace op_id k ++ [Get op_id]
         /\ match decoded (session_get op_id (world_at op_id k (net s))) with
            | Return xml =>
                fst (poll_operation op_id s) = Return Continue
                /\ xml_results (snd (poll_operation op_id s)) = xml_results s ++ [xml]
            | Raise e =>
                fst (poll_operation op_id s) = Raise e
                /\ xml_results (snd (poll_operation op_id s)) = xml_results s
            end))
  /\ ((forall w, pending (session_get op_id w)) ->
      fst (poll_operation op_id s) = Return Continue
      /\ xml_results (snd (poll_operation op_id s)) = xml_results s
      /\ calls (snd (poll_operation op_id s)) = calls s ++ attempt_trace op_id 10).
Proof.
  rewrite poll_operation_run. cbn [fst snd].
  destruct (poll_run op_id 0 s) as (k & Hk & Hpend & _ & Hspent & Hend).
  rewrite Nat.sub_0_r in *.
  split.
  - exists k. split; [exact Hk |]. split; [exact Hpend |]. split.
    + intros ->. destruct (Hspent eq_refl) as (-> & Hc & Hx). auto.
    + intros Hlt. destruct (Hend Hlt) as (Hnp & Hc & Hdec).
      split; [exact Hnp |]. split; [exact Hc |].
      destruct (decoded _); destruct Hdec as (-> & Hx); auto.
  - intros Hpending.
    destruct (Nat.eq_dec k 10) as [-> | Hne].
    + destruct (Hspent eq_refl) as (-> & Hc & Hx). auto.
    + destruct Hend as (Hnp & _); [lia |]. contradiction (Hnp (Hpending _)).
Qed.

(** C10. [search] returns a list for every query and page list, whatever the
    network and the parser do; when the statements inside its [try] raise,
    for instance because the session cannot be opened, that list is empty. *)
Theorem search_never_raises (query : ustr) (groups : Z) (pages_to_fetch : list Z)
    (docs passages : Z) (s : search_state W) :
  exists records,
    fst (search query groups pages_to_fetch docs passages s) = Return records
    /\ (forall e,
          fst (search_body query groups pages_to_fetch docs passages s) = Raise e ->
          records = [])
    /\ (forall e w, session_enter (net s) = (Raise e, w) -> records = []).
Proof.
  unfold search, try_except, ret.
  destruct (search_body query groups pages_to_fetch docs passages s) as [[l | e] s'] eqn:Hbody.
  - exists l. split; [reflexivity |]. split; [discriminate |].
    intros e w Henter. unfold search_body, async_with in Hbody.
    rewrite Henter in Hbody. discriminate.
  - exists []. auto.
Qed.

End Facts.

Example never_done_search :
  search (P := SearchResults.sample_parser) (u "rocq") 20 [0%Z] 1 5 (idle 0%Z)
  = (Return [],
     {| net := 10%Z; calls := Post 0 :: attempt_trace "op-1" 10;
        operations := ["op-1"]; xml_results := [] |}).
Proof. reflexivity. Qed.

Example done_at_third_search :
  calls (snd (search (P := SearchResults.sample_parser) (u "rocq") 20 [0%Z; 1%Z] 1 5 (idle 0)))
  = [Post 0; Post 1; Get "op-1"; Sleep 1; Get "op-1"; Sleep 1; Get "op-1"]
  /\ match fst (search (P := SearchResults.sample_parser) (u "rocq") 20 [0%Z; 1%Z] 1 5 (idle 0)) with
     | Return records => map domain records = [u "a.example"; u "b.example"]
     | Raise _ => False
     end.
Proof. split; reflexivity. Qed.

Example unreachable_search :
  fst (search (P := SearchResults.sample_parser) (u "rocq") 20 [0%Z] 1 5 (idle tt)) = Return [].
Proof. reflexivity. Qed.

(** C8 on the network whose operation never completes. *)
Lemma polling_is_bounded_never_done :
  fst (poll_operation "op-1" (idle 0%Z)) = Return Continue
  /\ xml_results (snd (poll_operation "op-1" (idle 0%Z))) = xml_results (idle 0%Z)
  /\ calls (snd (poll_operation "op-1" (idle 0%Z)))
     = calls (idle 0%Z) ++ attempt_trace "op-1" 10.
Proof.
  apply (proj2 (@polling_is_bounded Z never_done "op-1" (idle 0%Z))).
  intros w. unfold pending. cbn. do 2 eexists. split; [reflexivity |].
  right. eexists. split; reflexivity.
Defined.

(** C10 on the network whose session cannot be opened. *)
Lemma search_never_raises_unreachable :
  exists records,
    fst (search (P := SearchResults.sample_parser) (u "rocq") 20 [0%Z] 1 5 (idle tt)) = Return records
    /\ records = [].
Proof.
  destruct (@search_never_raises unit unreachable SearchResults.sample_parser (u "rocq") 20 [0%Z] 1 5 (idle tt))
    as (records & Hrun & _ & Henter).
  exists records. split; [exact Hrun |].
  apply (Henter (OtherException "Cannot connect to host") tt). reflexivity.
Defined.

End SearchPipeline.

(** * Further properties *)

(** ** The text cleaner *)

Module TextCleaning.

Import YandexSearch.

#[local] Open Scope list_scope.

(** *** Vocabulary *)

(** [s.rstrip()] *)
Definition rstrip (s : ustr) : ustr := rev (lstrip (rev s)).

(** The text has a match of [<[^>]+>]: a ['<'], then at least one code point
    and none of them a ['>'], then a ['>']. *)
Definition has_tag (s : ustr) : Prop :=
  exists before body after,
    s = before ++ lt_sign :: body ++ gt_sign :: after
    /\ body <> []
    /\ ~ In gt_sign body.

(** No ['<'] of the text opens a tag, read from the left. *)
Fixpoint tag_free (s : ustr) : Prop :=
  match s with
  | [] => True
  | c :: rest => (c = lt_sign -> opens_tag rest = false) /\ tag_free rest
  end.

(** *** Facts *)

Lemma no_gt_no_tag (s : ustr) :
  existsb (N.eqb gt_sign) s = false -> opens_tag s = false.
Proof.
  destruct s as [| c r]; [reflexivity |]. cbn. intros H.
  apply orb_false_elim in H as [_ H]. rewrite H. apply andb_false_r.
Qed.

Lemma sub_tags_no_gt (inside : bool) (s : ustr) :
  existsb (N.eqb gt_sign) s = false ->
  existsb (N.eqb gt_sign) (sub_tags inside s) = false.
Proof.
  revert inside. induction s as [| c r IH]; intros inside H; [reflexivity |].
  cbn in H. apply orb_false_elim in H as [Hc Hr]. cbn.
  destruct inside.
  - destruct (c =? gt_sign)%N; now apply IH.
  - destruct ((c =? lt_sign)%N && opens_tag r); [now apply IH |].
    cbn. rewrite Hc. now apply IH.
Qed.

Lemma sub_tags_keeps_closed (s : ustr) :
  opens_tag s = false -> opens_tag (sub_tags false s) = false.
Proof.
  destruct s as [| c r]; [reflexivity |]. cbn [opens_tag]. intros H.
  destruct (c =? gt_sign)%N eqn:Hc.
  - apply N.eqb_eq in Hc. subst c. cbn. reflexivity.
  - cbn in H. cbn [sub_tags].
    destruct ((c =? lt_sign)%N && opens_tag r).
    + apply no_gt_no_tag. now apply sub_tags_no_gt.
    + cbn. rewrite Hc. cbn. now apply sub_tags_no_gt.
Qed.

(** What [re.sub] leaves has no ['<'] that opens a tag. *)
Lemma sub_tags_tag_free (inside : bool) (s : ustr) : tag_free (sub_tags inside s).
Proof.
  revert inside. induction s as [| c r IH]; intros inside; [exact I |].
  cbn. destruct inside.
  - destruct (c =? gt_sign)%N; apply IH.
  - destruct (c =? lt_sign)%N eqn:Hc; cbn.
    + destruct (opens_tag r) eqn:Ho; [apply IH |].
      cbn. split; [| apply IH]. intros _. now apply sub_tags_keeps_closed.
    + split; [| apply IH]. intros ->. discriminate.
Qed.

(** On such a text [re.sub] has nothing to remove. *)
Lemma tag_free_fixed (s : ustr) : tag_free s -> sub_tags false s = s.
Proof.
  induction s as [| c r IH]; [reflexivity |]. cbn. intros [Hc Hr].
  destruct (c =? lt_sign)%N eqn:E.
  - apply N.eqb_eq in E. rewrite (Hc E). cbn. now rewrite IH.
  - cbn. now rewrite IH.
Qed.

Lemma tag_free_suffix (before s : ustr) : tag_free (before ++ s) -> tag_free s.
Proof. induction before as [| c r IH]; [auto |]. cbn. intros [_ H]. auto. Qed.

Lemma opens_tag_app (s after : ustr) :
  opens_tag s = true -> opens_tag (s ++ after) = true.
Proof.
  destruct s as [| c r]; [discriminate |]. cbn. intros H.
  apply andb_prop in H as [Hc Hr]. rewrite Hc, existsb_app, Hr. reflexivity.
Qed.

Lemma tag_free_prefix (s after : ustr) : tag_free (s ++ after) -> tag_free s.
Proof.
  induction s as [| c r IH]; [intros; exact I |]. cbn. intros [Hc H]. split; [| auto].
  intros E. specialize (Hc E). destruct (opens_tag r) eqn:Ho; [| reflexivity].
  now rewrite (opens_tag_app r after Ho) in Hc.
Qed.

Lemma lstrip_suffix (s : ustr) : exists spaces, s = spaces ++ lstrip s.
Proof.
  induction s as [| c r [sp IH]]; [now exists [] |]. cbn.
  destruct (isspace c).
  - exists (c :: sp). cbn. now rewrite <- IH.
  - now exists [].
Qed.

Lemma rstrip_prefix (s : ustr) : exists spaces, s = rstrip s ++ spaces.
Proof.
  unfold rstrip. destruct (lstrip_suffix (rev s)) as [sp H].
  exists (rev sp). rewrite <- rev_app_distr, <- H. now rewrite rev_involutive.
Qed.

Lemma tag_free_strip (s : ustr) : tag_free s -> tag_free (strip s).
Proof.
  intros H. change (strip s) with (rstrip (lstrip s)).
  destruct (lstrip_suffix s) as [sp Hs]. rewrite Hs in H. apply tag_free_suffix in H.
  destruct (rstrip_prefix (lstrip s)) as [sp' Hr]. rewrite Hr in H.
  now apply tag_free_prefix in H.
Qed.

Lemma lstrip_head (s : ustr) :
  lstrip s = [] \/ exists c r, lstrip s = c :: r /\ isspace c = false.
Proof.
  induction s as [| c r IH]; [now left |]. cbn.
  destruct (isspace c) eqn:E; [exact IH |]. right. now exists c, r.
Qed.

Lemma lstrip_idempotent (s : ustr) : lstrip (lstrip s) = lstrip s.
Proof.
  destruct (lstrip_head s) as [-> | (c & r & -> & Hc)]; [reflexivity |].
  cbn. now rewrite Hc.
Qed.

Lemma rstrip_idempotent (s : ustr) : rstrip (rstrip s) = rstrip s.
Proof. unfold rstrip. now rewrite rev_involutive, lstrip_idempotent. Qed.

Lemma lstrip_rstrip_lstrip (s : ustr) : lstrip (rstrip (lstrip s)) = rstrip (lstrip s).
Proof.
  destruct (rstrip_prefix (lstrip s)) as [sp Hr].
  destruct (lstrip_head s) as [E | (c & r & E & Hc)].
  - rewrite E. reflexivity.
  - destruct (rstrip (lstrip s)) as [| c' r'] eqn:Er; [reflexivity |].
    rewrite E in Hr. cbn in Hr. injection Hr as <- _. cbn. now rewrite Hc.
Qed.

Lemma strip_idempotent (s : ustr) : strip (strip s) = strip s.
Proof.
  change (strip (strip s)) with (rstrip (lstrip (rstrip (lstrip s)))).
  change (strip s) with (rstrip (lstrip s)).
  now rewrite lstrip_rstrip_lstrip, rstrip_idempotent.
Qed.

Lemma first_gt (s : ustr) :
  existsb (N.eqb gt_sign) s = true ->
  exists body after, s = body ++ gt_sign :: after /\ ~ In gt_sign body.
Proof.
  induction s as [| c r IH]; [discriminate |]. cbn [existsb]. intros H.
  destruct (gt_sign =? c)%N eqn:E.
  - apply N.eqb_eq in E. subst c. exists [], r. split; [reflexivity | auto].
  - cbn [orb] in H. destruct (IH H) as (body & after & -> & Hn).
    exists (c :: body), after. split; [reflexivity |].
    intros [Hc | Hin]; [| auto]. subst c. now rewrite N.eqb_refl in E.
Qed.

(** The two readings of "no tag" agree. *)
Lemma tag_free_no_tag (s : ustr) : tag_free s <-> ~ has_tag s.
Proof.
  split.
  - intros H (before & body & after & -> & Hne & Hnot).
    apply tag_free_suffix in H. cbn in H. destruct H as [H _].
    specialize (H eq_refl). destruct body as [| b body']; [congruence |].
    cbn in H. apply andb_false_elim in H as [H | H].
    + apply negb_false_iff, N.eqb_eq in H. subst b. apply Hnot. now left.
    + rewrite existsb_app in H. cbn in H. now rewrite orb_true_r in H.
  - induction s as [| c r IH]; [intros; exact I |]. intros Hno. cbn. split.
    + intros ->. destruct (opens_tag r) eqn:Ho; [| reflexivity]. exfalso. apply Hno.
      destruct r as [| b r']; [discriminate |]. cbn in Ho.
      apply andb_prop in Ho as [Hb Hr].
      destruct (first_gt r' Hr) as (body & after & -> & Hn).
      exists [], (b :: body), after. split; [reflexivity |]. split; [discriminate |].
      intros [E | Hin]; [| auto]. subst b. now rewrite N.eqb_refl in Hb.
    + apply IH. intros (before & body & after & -> & Hne & Hnot). apply Hno.
      now exists (c :: before), body, after.
Qed.

(** X1. Cleaning a cleaned text changes nothing. (The parser cleans the
    headline, and cleans it again when the headline becomes the content.) *)
Theorem clean_text_idempotent (text : ustr) :
  _clean_text (_clean_text text) = _clean_text text.
Proof.
  destruct text as [| c r]; [reflexivity |].
  change (_clean_text (c :: r)) with (strip (sub_tags false (c :: r))).
  pose proof (tag_free_strip _ (sub_tags_tag_free false (c :: r))) as Hfree.
  pose proof (strip_idempotent (sub_tags false (c :: r))) as Hstrip.
  destruct (strip (sub_tags false (c :: r))) as [| c' r'] eqn:Hz; [reflexivity |].
  unfold _clean_text. cbn [nonempty negb].
  now rewrite (tag_free_fixed _ Hfree).
Qed.

(** X2. A cleaned text has no match of the tag pattern left, and neither
    starts nor ends with white space. *)
Theorem clean_text_shape (text : ustr) :
  ~ has_tag (_clean_text text)
  /\ lstrip (_clean_text text) = _clean_text text
  /\ rstrip (_clean_text text) = _clean_text text.
Proof.
  unfold _clean_text. destruct (nonempty text); cbn [negb].
  - split; [| split].
    + apply tag_free_no_tag, tag_free_strip, sub_tags_tag_free.
    + apply lstrip_rstrip_lstrip.
    + change (strip (sub_tags false text)) with (rstrip (lstrip (sub_tags false text))).
      apply rstrip_idempotent.
  - split; [| split]; try reflexivity.
    intros (before & body & after & H & _). now destruct before.
Qed.

(** X3. The texts the cleaner returns unchanged are exactly those without a
    tag and without white space at either end: white space inside a text is
    left as it is, however long. *)
Theorem clean_text_fixed_points (text : ustr) :
  _clean_text text = text <-> ~ has_tag text /\ strip text = text.
Proof.
  split.
  - destruct text as [| c r].
    + intros _. split; [| reflexivity].
      intros (before & body & after & H & _). now destruct before.
    + unfold _clean_text. cbn [nonempty negb]. intros H. split.
      * rewrite <- H. apply tag_free_no_tag, tag_free_strip, sub_tags_tag_free.
      * rewrite <- H at 2. rewrite <- H at 1. apply strip_idempotent.
  - intros [Htag Hs]. unfold _clean_text. destruct text as [| c r]; [reflexivity |].
    cbn [nonempty negb]. apply tag_free_no_tag in Htag.
    now rewrite (tag_free_fixed _ Htag).
Qed.

Example clean_text_inner_spaces :
  _clean_text (u "<b>Hello</b>   World") = u "Hello   World".
Proof. reflexivity. Qed.

End TextCleaning.

(** ** More on filtering *)

Module Filtering.

Import YandexSearch.

#[local] Open Scope list_scope.

(** *** Vocabulary *)

(** The smaller of two upper bounds. *)
Definition narrower (a b : bound) : bound :=
  match a, b with
  | Infinity, _ => b
  | _, Infinity => a
  | Finite x, Finite y => Finite (Z.min x y)
  end.

(** *** Facts *)

Lemma above_narrower (a b : bound) (n : Z) :
  above (narrower a b) n = above a n && above b n.
Proof.
  destruct a as [x |], b as [y |]; cbn; rewrite ?andb_true_r; try reflexivity.
  destruct (n <? x)%Z eqn:Hx, (n <? y)%Z eqn:Hy; cbn;
    rewrite ?Z.ltb_lt, ?Z.ltb_ge in *; lia.
Qed.

Lemma keeps_both (m1 m2 : Z) (M1 M2 : bound) (item : search_result) :
  keeps m1 M1 item && keeps m2 M2 item
  = keeps (Z.max m1 m2) (narrower M1 M2) item.
Proof.
  unfold keeps. destruct (content item) as [c |]; [| reflexivity].
  rewrite above_narrower.
  assert (Hmax : (Z.max m1 m2 <? len c)%Z = (m1 <? len c)%Z && (m2 <? len c)%Z).
  { destruct (m1 <? len c)%Z eqn:H1, (m2 <? len c)%Z eqn:H2; cbn;
      rewrite ?Z.ltb_lt, ?Z.ltb_ge in *; lia. }
  rewrite Hmax.
  destruct (nonempty c), (above M1 (len c)), (above M2 (len c)),
    (m1 <? len c)%Z, (m2 <? len c)%Z; reflexivity.
Qed.

Lemma filter_twice {A} (f g : A -> bool) (l : list A) :
  filter g (filter f l) = filter (fun x => f x && g x) l.
Proof.
  induction l as [| x l IH]; [reflexivity |]. cbn.
  destruct (f x) eqn:Hf; cbn; [destruct (g x) |]; now rewrite IH.
Qed.

(** X4. Filtering by one window and then by another is filtering once by
    their intersection; in particular filtering twice by the same window is
    filtering once. *)
Theorem optimize_twice (parsed_results : list search_result)
    (m1 m2 : Z) (M1 M2 : bound) :
  optimize_results (optimize_results parsed_results m1 M1) m2 M2
  = optimize_results parsed_results (Z.max m1 m2) (narrower M1 M2).
Proof.
  unfold optimize_results. rewrite filter_twice. apply filter_ext.
  intros item. apply keeps_both.
Qed.

(** X5. Lengths are whole numbers and both bounds are strict, so a window
    with [max_length <= min_length + 1] lets nothing through. *)
Theorem optimize_empty_window (parsed_results : list search_result)
    (min_length max_length : Z) :
  (max_length <= min_length + 1)%Z ->
  optimize_results parsed_results min_length (Finite max_length) = [].
Proof.
  intros Hwin. unfold optimize_results.
  induction parsed_results as [| item rest IH]; [reflexivity |]. cbn [filter].
  rewrite IH. unfold keeps. destruct (content item) as [c |]; [| reflexivity].
  cbn [above]. destruct (len c <? max_length)%Z eqn:H1, (min_length <? len c)%Z eqn:H2;
    rewrite ?andb_false_r; try reflexivity.
  apply Z.ltb_lt in H1, H2. lia.
Qed.

Lemma optimize_empty_window_sample :
  optimize_results [SearchResults.with_content "abc"; SearchResults.with_content "abcd"]
                   3 (Finite 4) = [].
Proof. apply optimize_empty_window. lia. Defined.

End Filtering.

(** ** The search tool: [format_results] and [search_internet] *)

Module SearchTool.

Import YandexSearch.

#[local] Open Scope list_scope.

(** *** Text literals

    The literals of the source are written here as UTF-8 strings and decoded
    to code points. *)
Fixpoint decode_utf8 (bytes : list N) : ustr :=
  match bytes with
  | [] => []
  | b :: rest =>
      if (b <? 128)%N then b :: decode_utf8 rest
      else if (b <? 224)%N then
        match rest with
        | b1 :: rest1 => ((b - 192) * 64 + (b1 - 128))%N :: decode_utf8 rest1
        | _ => []
        end
      else if (b <? 240)%N then
        match rest with
        | b1 :: b2 :: rest2 =>
            ((b - 224) * 4096 + (b1 - 128) * 64 + (b2 - 128))%N :: decode_utf8 rest2
        | _ => []
        end
      else
        match rest with
        | b1 :: b2 :: b3 :: rest3 =>
            ((b - 240) * 262144 + (b1 - 128) * 4096 + (b2 - 128) * 64 + (b3 - 128))%N
              :: decode_utf8 rest3
        | _ => []
        end
  end.

Definition t (s : string) : ustr := decode_utf8 (u s).

Definition newline : ustr := [10%N].

(** [str(n)] as code points. *)
Definition ustr_nat (n : nat) : ustr := u (str_nat n).

(** *** [format_results] *)

(** The text for an empty result list. *)
Definition not_found (query : ustr) : ustr :=
  t "По запросу '" ++ query ++ t "' ничего не найдено".

Definition results_header (query : ustr) : ustr :=
  t "Результаты поиска по '" ++ query ++ t "':".

(** A result as [format_results] reads it: a dict of texts in which any of
    the six keys it reads may be missing. *)
Record result_item : Type := {
  item_url : option ustr;
  item_domain : option ustr;
  item_title : option ustr;
  item_modtime : option ustr;
  item_lang : option ustr;
  item_content : option ustr
}.

(** A record of the parser as that dict: the parser sets every key. *)
Definition as_item (r : search_result) : result_item :=
  {| item_url := Some (url r); item_domain := Some (domain r);
     item_title := Some (title r); item_modtime := Some (modtime r);
     item_lang := Some (lang r); item_content := content r |}.

(** The [KeyError] of [item[key]]. *)
Definition key_error (key : string) : exn := OtherException ("'" ++ key ++ "'").

(** The entry of [item] under the index [i] of [enumerate]. The f-string
    reads [item['domain']], [item['title']], [item['url']],
    [item.get('modtime', 'N/A')], [item.get('lang', 'N/A')] and
    [item['content']], in this order. *)
Definition format_item (i : nat) (item : result_item) : result ustr :=
  match item_domain item with
  | None => Raise (key_error "domain")
  | Some domain =>
      match item_title item with
      | None => Raise (key_error "title")
      | Some title =>
          match item_url item with
          | None => Raise (key_error "url")
          | Some url =>
              match item_content item with
              | None => Raise (key_error "content")
              | Some content =>
                  Return (ustr_nat (i + 1) ++ t ". [" ++ domain ++ t "] " ++ title
                          ++ newline
                          ++ t "   URL: " ++ url ++ newline
                          ++ t "   Обновлено: "
                          ++ get_default (item_modtime item) (u "N/A") ++ newline
                          ++ t "   Язык: "
                          ++ get_default (item_lang item) (u "N/A") ++ newline
                          ++ t "   Контент: " ++ content)
              end
          end
      end
  end.

(** The loop over [enumerate(results)], from index [i]. *)
Fixpoint format_items (i : nat) (results : list result_item) : result (list ustr) :=
  match results with
  | [] => Return []
  | item :: rest =>
      match format_item i item with
      | Raise e => Raise e
      | Return entry =>
          match format_items (S i) rest with
          | Raise e => Raise e
          | Return entries => Return (entry :: entries)
          end
      end
  end.

Definition format_results (results : list result_item) (query : ustr) : result ustr :=
  match results with
  | [] => Return (not_found query)
  | _ :: _ =>
      match format_items 0 results with
      | Raise e => Raise e
      | Return entries => Return (ujoin (newline ++ newline) (results_header query :: entries))
      end
  end.

(** An item with the four keys [format_results] reads by subscript. *)
Definition complete (item : result_item) : bool :=
  match item_domain item, item_title item, item_url item, item_content item with
  | Some _, Some _, Some _, Some _ => true
  | _, _, _, _ => false
  end.

(** *** [search_internet] ([main_bot.py]) *)

Section Tool.

Context {W : Type} {Net : Network W} {P : XmlParser}.

(** A call of [search] starts with its two local lists empty. *)
Definition fresh (s : search_state W) : search_state W :=
  {| net := net s; calls := calls s; operations := []; xml_results := [] |}.

Definition search_internet (query : ustr) (num : Z) : M (search_state W) ustr :=
  try_except
    ((if negb (nonempty query)
      then raise (OtherException "Запрос не может быть пустым")
      else ret tt) ;;
     let num := if (10 <? num)%Z then 10%Z else num in
     let num := if (num <? 1)%Z then 1%Z else num in
     results <- (fun s => search query num [0%Z] 1 5 (fresh s)) ;;
     let optimized_results := optimize_results results 30 Infinity in
     lift (format_results (map as_item optimized_results) query))
    (fun e => ret (t "Ошибка поиска: " ++ t (str_exn e))).

End Tool.

(** *** Facts *)

Example decode_sample : t "По-1€" = [1055; 1086; 45; 49; 8364]%N.
Proof. reflexivity. Qed.

Lemma format_item_complete (i : nat) (item : result_item) :
  (exists entry, format_item i item = Return entry) <-> complete item = true.
Proof.
  unfold format_item, complete.
  destruct (item_domain item), (item_title item), (item_url item), (item_content item);
    split; intros H; try discriminate; try (destruct H; discriminate);
    try reflexivity; eexists; reflexivity.
Qed.

Lemma format_items_complete (i : nat) (results : list result_item) :
  (exists entries, format_items i results = Return entries)
  <-> Forall (fun item => complete item = true) results.
Proof.
  revert i. induction results as [| item rest IH]; intros i.
  - split; [constructor | now exists []].
  - cbn [format_items]. split.
    + intros [entries H].
      destruct (format_item i item) as [entry |] eqn:Hitem; [| discriminate].
      destruct (format_items (S i) rest) as [es |] eqn:Hrest; [| discriminate].
      constructor.
      * apply (format_item_complete i). eauto.
      * apply (IH (S i)). eauto.
    + intros H. inversion H as [| ? ? Hc Hrest]; subst.
      apply (format_item_complete i) in Hc as [entry ->].
      apply (IH (S i)) in Hrest as [entries ->]. eauto.
Qed.

Lemma format_results_complete (results : list result_item) (query : ustr) :
  (exists text, format_results results query = Return text)
  <-> Forall (fun item => complete item = true) results.
Proof.
  rewrite <- (format_items_complete 0). unfold format_results.
  destruct results as [| item rest]; [split; intros _; eexists; reflexivity |].
  destruct (format_items 0 (item :: rest)) as [entries | e];
    split; intros [x H]; try discriminate; eauto.
Qed.

(** What passes the filter has its content, and a record of the parser has
    the other keys. *)
Lemma optimize_results_complete (parsed_results : list search_result)
    (min_length : Z) (max_length : bound) :
  Forall (fun item => complete item = true)
         (map as_item (optimize_results parsed_results min_length max_length)).
Proof.
  apply Forall_forall. intros item Hin. apply in_map_iff in Hin as (r & <- & Hin).
  unfold optimize_results in Hin. apply filter_In in Hin as [_ Hk]. unfold keeps in Hk.
  unfold complete, as_item. cbn. now destruct (content r).
Qed.

(** What the two tests on [num] leave. *)
Lemma clamped (num : Z) :
  (if ((if (10 <? num)%Z then 10 else num) <? 1)%Z then 1%Z
   else (if (10 <? num)%Z then 10%Z else num))
  = Z.max 1 (Z.min 10 num).
Proof.
  destruct (10 <? num)%Z eqn:H1; [apply Z.ltb_lt in H1 | apply Z.ltb_ge in H1].
  - cbn. lia.
  - destruct (num <? 1)%Z eqn:H2; [apply Z.ltb_lt in H2 | apply Z.ltb_ge in H2]; lia.
Qed.

(** X6. [format_results] gives the "nothing found" text exactly for the
    empty list: whatever the records hold, the text for a non-empty list is
    another one. *)
Theorem format_results_not_found (results : list result_item) (query : ustr) :
  format_results results query = Return (not_found query) <-> results = [].
Proof.
  split; [| now intros ->].
  destruct results as [| item rest]; [reflexivity |]. unfold format_results.
  destruct (format_items 0 (item :: rest)) as [entries | e]; [| discriminate].
  intros [= H]. exfalso. destruct entries as [| e1 es]; cbn in H; discriminate.
Qed.

(** X7. [format_results] returns a text exactly on the lists whose items all
    have the keys [domain], [title], [url] and [content]; on any other list
    [item[key]] raises [KeyError]. The keys [modtime] and [lang] may be
    missing: they are read with a default. The records of the parser that
    pass [optimize_results] always format. *)
Theorem format_results_needs_four_keys (results : list result_item) (query : ustr) :
  ((exists text, format_results results query = Return text)
   <-> Forall (fun item => complete item = true) results)
  /\ (forall parsed_results min_length max_length,
        exists text,
          format_results
            (map as_item (optimize_results parsed_results min_length max_length)) query
          = Return text).
Proof.
  split; [apply format_results_complete |].
  intros rs m M. apply format_results_complete, optimize_results_complete.
Qed.

Section ToolFacts.

Context {W : Type} {Net : Network W} {P : XmlParser}.

Lemma search_returns (query : ustr) (groups : Z) (pages : list Z) (docs passages : Z)
    (s : search_state W) :
  exists records s', search query groups pages docs passages s = (Return records, s').
Proof.
  unfold search, try_except, ret.
  destruct (search_body query groups pages docs passages s) as [[l | e] s']; eauto.
Qed.

(** X8. The number of groups asked for is brought into [1, 10]: the tool
    behaves for any [num] as for the nearest number of that range. *)
Theorem search_internet_clamps (query : ustr) (num : Z) (s : search_state W) :
  search_internet query num s = search_internet query (Z.max 1 (Z.min 10 num)) s.
Proof.
  unfold search_internet. cbv zeta. rewrite !clamped.
  replace (Z.max 1 (Z.min 10 (Z.max 1 (Z.min 10 num)))) with (Z.max 1 (Z.min 10 num)) by lia.
  reflexivity.
Qed.

(** X9. For a query that is not empty the tool never answers with its error
    text: [search] does not raise and the filtered records always format, so
    the answer is the formatted list of the filtered records. *)
Theorem search_internet_formats (query : ustr) (num : Z) (s : search_state W) :
  query <> [] ->
  exists records answer,
    fst (search query (Z.max 1 (Z.min 10 num)) [0%Z] 1 5 (fresh s)) = Return records
    /\ format_results (map as_item (optimize_results records 30 Infinity)) query
       = Return answer
    /\ fst (search_internet query num s) = Return answer.
Proof.
  intros Hq. unfold search_internet. cbv zeta. rewrite clamped.
  set (n := Z.max 1 (Z.min 10 num)).
  destruct (search_returns query n [0%Z] 1 5 (fresh s)) as (records & s' & Hrun).
  destruct (proj2 (format_results_complete
                     (map as_item (optimize_results records 30 Infinity)) query)
                  (optimize_results_complete records 30 Infinity))
    as [answer Hfmt].
  exists records, answer. rewrite Hrun. split; [reflexivity |]. split; [exact Hfmt |].
  destruct query as [| c q]; [congruence |].
  unfold try_except, bind, ret, raise, lift. cbn [nonempty negb]. rewrite Hrun, Hfmt.
  reflexivity.
Qed.

(** An empty query is refused before anything is asked of the network. *)
Lemma search_internet_empty_query (num : Z) (s : search_state W) :
  search_internet [] num s
  = (Return (t "Ошибка поиска: " ++ t "Запрос не может быть пустым"), s).
Proof.
  unfold search_internet, try_except, bind, raise, ret.
  cbn [nonempty negb str_exn]. reflexivity.
Qed.

(** X10. When the session cannot be opened, the tool reports, for a query
    that is not empty, that nothing was found: the failure does not show. *)
Theorem search_internet_hides_failure (query : ustr) (num : Z) (s : search_state W)
    (e : exn) (w : W) :
  query <> [] ->
  session_enter (net s) = (Raise e, w) ->
  fst (search_internet query num s) = Return (not_found query).
Proof.
  intros Hq Henter. destruct query as [| c q]; [congruence |].
  unfold search_internet. cbv zeta. unfold try_except at 1, bind at 1, ret at 1.
  cbn [nonempty negb]. unfold bind at 1.
  assert (Hrun : exists s',
             search (c :: q) (if ((if (10 <? num)%Z then 10 else num) <? 1)%Z then 1%Z
                              else (if (10 <? num)%Z then 10%Z else num))
                    [0%Z] 1 5 (fresh s) = (Return [], s')).
  { unfold search, try_except, search_body, async_with. cbn [fresh net].
    rewrite Henter. unfold ret. eauto. }
  destruct Hrun as [s' ->]. reflexivity.
Qed.

End ToolFacts.

Lemma search_internet_formats_unreachable :
  exists records answer,
    fst (search (Net := SearchPipeline.unreachable) (P := SearchResults.sample_parser)
                (u "rocq") (Z.max 1 (Z.min 10 50)) [0%Z] 1 5 (fresh (idle tt)))
    = Return records
    /\ format_results (map as_item (optimize_results records 30 Infinity)) (u "rocq")
       = Return answer
    /\ fst (search_internet (Net := SearchPipeline.unreachable)
                            (P := SearchResults.sample_parser) (u "rocq") 50 (idle tt))
       = Return answer.
Proof.
  apply (@search_internet_formats unit SearchPipeline.unreachable
           SearchResults.sample_parser (u "rocq") 50 (idle tt)).
  discriminate.
Defined.

Lemma search_internet_hides_failure_unreachable :
  fst (search_internet (Net := SearchPipeline.unreachable)
                       (P := SearchResults.sample_parser) (u "rocq") 5 (idle tt))
  = Return (not_found (u "rocq")).
Proof.
  apply (@search_internet_hides_failure unit SearchPipeline.unreachable
           SearchResults.sample_parser (u "rocq") 5 (idle tt)
           (OtherException "Cannot connect to host") tt).
  - discriminate.
  - reflexivity.
Defined.

Example search_internet_sample :
  fst (search_internet (Net := SearchPipeline.done_at_third)
                       (P := SearchResults.sample_parser) (u "rocq") 5 (idle 0))
  = Return (not_found (u "rocq")).
Proof. vm_compute. reflexivity. Qed.

Example format_results_sample :
  format_results
    (map as_item
       [{| url := u "https://a.example/"; domain := u "a.example"; title := u "First";
           headline := []; modtime := u "20250101T000000"; lang := u "ru";
           content := Some (u "text") |};
        SearchResults.with_content "more"]) (u "q")
  = Return (t "Результаты поиска по 'q':" ++ newline ++ newline
            ++ u "1. [a.example] First" ++ newline
            ++ u "   URL: https://a.example/" ++ newline
            ++ t "   Обновлено: 20250101T000000" ++ newline
            ++ t "   Язык: ru" ++ newline
            ++ t "   Контент: text" ++ newline ++ newline
            ++ u "2. [] " ++ newline
            ++ u "   URL: " ++ newline
            ++ t "   Обновлено: " ++ newline
            ++ t "   Язык: " ++ newline
            ++ t "   Контент: more").
Proof. vm_compute. reflexivity. Qed.

(** An item without [modtime] and [lang] formats with the defaults, and one
    without [domain] raises. *)
Example format_results_defaults :
  format_results
    [{| item_url := Some (u "https://a.example/"); item_domain := Some (u "a.example");
        item_title := Some (u "First"); item_modtime := None; item_lang := None;
        item_content := Some (u "text") |}] (u "q")
  = Return (t "Результаты поиска по 'q':" ++ newline ++ newline
            ++ u "1. [a.example] First" ++ newline
            ++ u "   URL: https://a.example/" ++ newline
            ++ t "   Обновлено: N/A" ++ newline
            ++ t "   Язык: N/A" ++ newline
            ++ t "   Контент: text")
  /\ format_results
       [{| item_url := Some (u "https://a.example/"); item_domain := None;
           item_title := Some (u "First"); item_modtime := None; item_lang := None;
           item_content := Some (u "text") |}] (u "q")
     = Raise (key_error "domain").
Proof. vm_compute. split; reflexivity. Qed.

End SearchTool.

(** ** The cost of a search *)

Module SearchBudget.

Import YandexSearch.

#[local] Open Scope list_scope.

(** *** Vocabulary *)

Definition is_post (e : net_event) : bool :=
  match e with Post _ => true | _ => false end.

Definition is_get (e : net_event) : bool :=
  match e with Get _ => true | _ => false end.

Definition is_sleep (e : net_event) : bool :=
  match e with Sleep _ => true | _ => false end.

(** The number of events of one kind. *)
Definition count (kind : net_event -> bool) (events : list net_event) : nat :=
  List.length (filter kind events).

(** Every sleep is of one second. *)
Definition one_second (e : net_event) : Prop :=
  match e with
  | Sleep seconds => seconds = 1%Z
  | _ => True
  end.

Section Replies.

Context {W : Type} {Net : Network W}.

(** A submission that is answered with a status other than 200. *)
Definition refused (reply : result post_response * W) : Prop :=
  exists resp w,
    reply = (Return resp, w) /\ (post_status resp =? 200)%Z = false.

(** A submission whose answer has a body that can be read
    ([await resp.text()] returns). *)
Definition body_read (reply : result post_response * W) : Prop :=
  match fst reply with
  | Return resp => exists text, post_text resp = Return text
  | Raise _ => True
  end.

End Replies.

(** A network that refuses every submission. *)
Definition over_quota : Network nat := {|
  session_enter := fun w => (Return tt, w);
  session_exit := fun w => (Return tt, w);
  session_post := fun _ w =>
    (Return {| post_status := 429; post_text := Return "quota exceeded";
               post_id := Raise (OtherException "'id'") |}, S w);
  session_get := fun _ w => (Raise (OtherException "not reached"), w);
  sleep := fun _ w => w
|}.

(** *** Facts *)

Ltac conjs := repeat match goal with |- _ /\ _ => split end.

Lemma count_app (kind : net_event -> bool) (l1 l2 : list net_event) :
  count kind (l1 ++ l2) = count kind l1 + count kind l2.
Proof. unfold count. now rewrite filter_app, length_app. Qed.

Lemma count_posts (pages : list Z) :
  count is_post (map Post pages) = List.length pages
  /\ count is_get (map Post pages) = 0
  /\ count is_sleep (map Post pages) = 0.
Proof.
  unfold count. induction pages as [| p pages (H1 & H2 & H3)]; [auto |].
  cbn. now rewrite H1, H2, H3.
Qed.

Lemma count_attempts (op_id : string) (k : nat) :
  count is_post (SearchPipeline.attempt_trace op_id k) = 0
  /\ count is_get (SearchPipeline.attempt_trace op_id k) = k
  /\ count is_sleep (SearchPipeline.attempt_trace op_id k) = k
  /\ Forall one_second (SearchPipeline.attempt_trace op_id k).
Proof.
  unfold SearchPipeline.attempt_trace, count.
  induction k as [| k (H1 & H2 & H3 & H4)]; [cbn; auto |].
  cbn. rewrite H1, H2, H3. conjs; auto. repeat constructor. exact H4.
Qed.

Section Facts.

Context {W : Type} {Net : Network W} {P : XmlParser}.

(** One submission makes one POST and adds at most one operation. *)
Lemma submit_effect (query : ustr) (groups docs passages page_number : Z)
    (s : search_state W) :
  exists r s' ids,
    submit query groups docs passages page_number s = (r, s')
    /\ calls s' = calls s ++ [Post page_number]
    /\ operations s' = operations s ++ ids
    /\ List.length ids <= 1
    /\ xml_results s' = xml_results s.
Proof.
  unfold submit, bind, calling, lift, append_operation, modify, ret.
  destruct (session_post _ (net s)) as [[resp | e] w].
  - destruct (negb (post_status resp =? 200)%Z).
    + destruct (post_text resp); do 2 eexists; exists [];
        (split; [reflexivity | cbn; rewrite app_nil_r; conjs; auto]).
    + destruct (post_id resp) as [id | e]; do 2 eexists.
      * exists [id]. split; [reflexivity | cbn; conjs; auto].
      * exists []. split; [reflexivity | cbn; rewrite app_nil_r; conjs; auto].
  - do 2 eexists. exists []. split; [reflexivity | cbn; rewrite app_nil_r; conjs; auto].
Qed.

(** The loop over the pages makes one POST for each page of a prefix of the
    list, in order, and nothing else. *)
Lemma submit_loop (query : ustr) (groups docs passages : Z) (pages : list Z)
    (s : search_state W) :
  exists r s' ids k,
    for_each (submit query groups docs passages) pages s = (r, s')
    /\ calls s' = calls s ++ map Post (firstn k pages)
    /\ operations s' = operations s ++ ids
    /\ List.length ids <= k
    /\ k <= List.length pages
    /\ xml_results s' = xml_results s.
Proof.
  revert s. induction pages as [| p pages IH]; intros s.
  - exists (Return tt), s, [], 0. cbn. rewrite !app_nil_r. conjs; auto.
  - destruct (submit_effect query groups docs passages p s)
      as (r1 & s1 & ids1 & Hrun & Hc & Ho & Hl & Hx).
    cbn [for_each]. unfold bind at 1. rewrite Hrun.
    assert (Hflow : (exists e, r1 = Raise e) \/ r1 = Return Continue).
    { unfold submit, bind, calling, lift, append_operation, modify, ret in Hrun.
      destruct (session_post _ (net s)) as [[resp | e] w].
      - destruct (negb (post_status resp =? 200)%Z).
        + destruct (post_text resp); injection Hrun as <- _; eauto.
        + destruct (post_id resp); injection Hrun as <- _; eauto.
      - injection Hrun as <- _. eauto. }
    destruct Hflow as [[e ->] | ->].
    + exists (Raise e), s1, ids1, 1. cbn. conjs; auto; lia.
    + destruct (IH s1) as (r & s' & ids & k & Hrest & Hc' & Ho' & Hl' & Hk & Hx').
      exists r, s', (ids1 ++ ids), (S k). rewrite Hrest, Hc', Ho', Hx', Hc, Ho, Hx.
      rewrite <- !app_assoc, length_app. cbn. conjs; auto; lia.
Qed.

(** The loop over the operations makes at most 10 status calls for each
    operation, no POST, and sleeps one second at most once after each status
    call. *)
Lemma poll_loop (ops : list string) (s : search_state W) :
  exists r s' events,
    for_each poll_operation ops s = (r, s')
    /\ calls s' = calls s ++ events
    /\ count is_post events = 0
    /\ count is_get events <= 10 * List.length ops
    /\ count is_sleep events <= count is_get events
    /\ Forall one_second events.
Proof.
  revert s. induction ops as [| op ops IH]; intros s.
  - exists (Return tt), s, []. cbn. rewrite app_nil_r. conjs; auto.
  - cbn [for_each]. unfold bind at 1. rewrite SearchPipeline.poll_operation_run.
    destruct (SearchPipeline.poll_effect op 0 s)
      as (k & last & payloads & Hcalls & _ & _ & Hend).
    destruct (count_attempts op k) as (A1 & A2 & A3 & A4).
    assert (Hlast : count is_post last = 0 /\ count is_get last = List.length last
                    /\ count is_sleep last = 0 /\ Forall one_second last
                    /\ k + List.length last <= 10).
    { destruct Hend; cbn; conjs; auto; try lia; repeat constructor. }
    destruct Hlast as (L1 & L2 & L3 & L4 & L5).
    destruct (fst (poll op 0 s)) as [[] | e].
    + destruct (IH (snd (poll op 0 s))) as (r & s' & ev & Hrest & Hc & E1 & E2 & E3 & E4).
      exists r, s', (SearchPipeline.attempt_trace op k ++ last ++ ev).
      rewrite Hrest, Hc, Hcalls, <- !app_assoc, !count_app, A1, A2, A3, L1, L2, L3, E1.
      conjs; auto; try lia. cbn [List.length]. lia.
      apply Forall_app. split; [exact A4 |]. apply Forall_app. now split.
    + exists (Raise e), (snd (poll op 0 s)), (SearchPipeline.attempt_trace op k ++ last).
      rewrite Hcalls, !count_app, A1, A2, A3, L1, L2, L3.
      conjs; auto; try lia. cbn [List.length]. lia.
      apply Forall_app. now split.
Qed.

(** The calls of a whole search, from a state without pending operations. *)
Lemma search_calls (query : ustr) (groups : Z) (pages : list Z) (docs passages : Z)
    (s : search_state W) :
  operations s = [] ->
  exists k events,
    calls (snd (search query groups pages docs passages s))
    = calls s ++ map Post (firstn k pages) ++ events
    /\ k <= List.length pages
    /\ count is_post events = 0
    /\ count is_get events <= 10 * k
    /\ count is_sleep events <= count is_get events
    /\ Forall one_second events.
Proof.
  intros Hops. unfold search, try_except, search_body, async_with.
  assert (Hnone : exists k events,
             calls s = calls s ++ map Post (firstn k pages) ++ events
             /\ k <= List.length pages /\ count is_post events = 0
             /\ count is_get events <= 10 * k
             /\ count is_sleep events <= count is_get events
             /\ Forall one_second events).
  { exists 0, []. cbn. rewrite app_nil_r. conjs; auto. lia. }
  destruct (session_enter (net s)) as [[[] | e] w]; [| cbn; exact Hnone].
  set (s0 := {| net := w; calls := calls s; operations := operations s;
                xml_results := xml_results s |}).
  unfold bind at 1.
  destruct (submit_loop query groups docs passages pages s0)
    as (r1 & s1 & ids & k & Hrun1 & Hc1 & Ho1 & Hl1 & Hk & _).
  rewrite Hrun1. unfold s0 in Hc1, Ho1. cbn [calls operations] in Hc1, Ho1. rewrite Hops in Ho1. cbn in Ho1.
  assert (Hsub : exists events,
             calls s1 = calls s ++ map Post (firstn k pages) ++ events
             /\ k <= List.length pages /\ count is_post events = 0
             /\ count is_get events <= 10 * k
             /\ count is_sleep events <= count is_get events
             /\ Forall one_second events).
  { exists []. rewrite app_nil_r. cbn. conjs; auto. lia. }
  destruct r1 as [[] | e1].
  - unfold bind at 1, gets at 1. unfold bind at 1.
    destruct (poll_loop (operations s1) s1) as (r2 & s2 & ev & Hrun2 & Hc2 & E1 & E2 & E3 & E4).
    rewrite Hrun2.
    assert (Hpoll : exists events,
               calls s2 = calls s ++ map Post (firstn k pages) ++ events
               /\ k <= List.length pages /\ count is_post events = 0
               /\ count is_get events <= 10 * k
               /\ count is_sleep events <= count is_get events
               /\ Forall one_second events).
    { exists ev. rewrite Hc2, Hc1, <- app_assoc. conjs; auto.
      rewrite Ho1 in E2. nia. }
    destruct r2 as [[] | e2].
    + unfold bind, gets, lift.
      destruct (parse_all (xml_results s2));
        destruct (session_exit (net s2)) as [[[] | e3] w3]; cbn;
        destruct Hpoll as (events & H); exists k, events; exact H.
    + destruct (session_exit (net s2)) as [[[] | e3] w3]; cbn;
        destruct Hpoll as (events & H); exists k, events; exact H.
  - destruct (session_exit (net s1)) as [[[] | e3] w3]; cbn;
      destruct Hsub as (events & H); exists k, events; exact H.
Qed.

(** X11. A search from rest makes its calls in two phases: first one POST
    for each page of a prefix of the page list, in order, then only status
    calls and sleeps. It makes at most 10 status calls for each page it
    submitted and sleeps at most once, for one second, after each status
    call: at most [len(pages)] POSTs, [10 * len(pages)] status calls and
    [10 * len(pages)] seconds of sleep. *)
Theorem search_budget (query : ustr) (groups : Z) (pages : list Z) (docs passages : Z)
    (w : W) :
  exists k events,
    calls (snd (search query groups pages docs passages (idle w)))
    = map Post (firstn k pages) ++ events
    /\ k <= List.length pages
    /\ count is_post events = 0
    /\ count is_get events <= 10 * k
    /\ count is_sleep events <= count is_get events
    /\ Forall one_second events.
Proof.
  destruct (@search_calls query groups pages docs passages (idle w) eq_refl)
    as (k & events & H). exists k, events. exact H.
Qed.

(** When every submission is refused, the loop over the pages registers no
    operation; it stops after the first one whose body cannot be read. *)
Lemma submit_refused (query : ustr) (groups docs passages : Z) (pages : list Z)
    (s : search_state W) :
  (forall body w, refused (session_post body w)) ->
  exists res s' k,
    for_each (submit query groups docs passages) pages s = (res, s')
    /\ calls s' = calls s ++ map Post (firstn k pages)
    /\ operations s' = operations s
    /\ xml_results s' = xml_results s
    /\ Nat.min 1 (List.length pages) <= k <= List.length pages
    /\ (res = Return tt -> k = List.length pages)
    /\ ((forall body w, body_read (session_post body w)) -> res = Return tt).
Proof.
  intros Hall. revert s. induction pages as [| p pages IH]; intros s.
  - exists (Return tt), s, 0. cbn. rewrite app_nil_r. conjs; auto.
  - cbn [for_each]. unfold bind at 1. unfold submit at 1.
    unfold bind, calling, lift, ret.
    match goal with
    | |- context [session_post ?b (net s)] =>
        pose proof (Hall b (net s)) as (resp & w & Hpost & Hst);
        assert (Hread : (forall body w, body_read (session_post body w)) ->
                        exists text, post_text resp = Return text)
          by (intros Hr; specialize (Hr b (net s)); unfold body_read in Hr;
              now rewrite Hpost in Hr);
        rewrite Hpost
    end.
    rewrite Hst. cbn [negb].
    destruct (post_text resp) as [text | e].
    + match goal with
      | |- context [for_each _ pages ?s1] =>
          destruct (IH s1) as (res & s' & k & Hrun & Hc & Ho & Hx & Hk & Hres & Hok)
      end.
      exists res, s', (S k). rewrite Hrun, Hc, Ho, Hx. cbn. rewrite <- app_assoc.
      conjs; auto; try lia; intros H; now rewrite (Hres H).
    + eexists (Raise e), _, 1. split; [reflexivity |]. cbn. conjs; auto; try lia;
        try discriminate.
      intros Hr. destruct (Hread Hr). discriminate.
Qed.

(** X12. When every submission is answered with a status other than 200,
    the search returns the empty list and never polls. When the session
    cannot be opened it makes no call; otherwise its calls are the POSTs of a
    prefix of the pages, in order, which has the first page when there is
    one and is the whole list when the body of every answer can be read (the
    search stops after an answer whose body cannot). *)
Theorem search_all_refused (query : ustr) (groups : Z) (pages : list Z)
    (docs passages : Z) (w : W) :
  (forall body w', refused (session_post body w')) ->
  fst (search query groups pages docs passages (idle w)) = Return []
  /\ match fst (session_enter w) with
     | Raise _ => calls (snd (search query groups pages docs passages (idle w))) = []
     | Return _ =>
         exists k,
           calls (snd (search query groups pages docs passages (idle w)))
           = map Post (firstn k pages)
           /\ Nat.min 1 (List.length pages) <= k <= List.length pages
           /\ ((forall body w', body_read (session_post body w')) ->
               k = List.length pages)
     end.
Proof.
  intros Hall.
  assert (Hrun : exists s',
             search query groups pages docs passages (idle w) = (Return [], s')
             /\ match fst (session_enter w) with
                | Raise _ => calls s' = []
                | Return _ =>
                    exists k,
                      calls s' = map Post (firstn k pages)
                      /\ Nat.min 1 (List.length pages) <= k <= List.length pages
                      /\ ((forall body w', body_read (session_post body w')) ->
                          k = List.length pages)
                end).
  { unfold search, try_except, search_body, async_with.
    cbn [idle net calls operations xml_results].
    destruct (session_enter w) as [[[] | e] w0]; cbn [fst];
      [| eexists; split; reflexivity].
    unfold bind at 1.
    match goal with
    | |- context [for_each _ pages ?s0] =>
        destruct (submit_refused query groups docs passages pages s0 Hall)
          as (res & s1 & k & Hrun & Hc & Ho & Hx & Hk & Hres & Hok)
    end.
    rewrite Hrun. cbn [calls operations xml_results app] in Hc, Ho, Hx.
    assert (Hcalls : exists k,
               calls s1 = map Post (firstn k pages)
               /\ Nat.min 1 (List.length pages) <= k <= List.length pages
               /\ ((forall body w', body_read (session_post body w')) ->
                   k = List.length pages)).
    { exists k. split; [exact Hc |]. split; [exact Hk |].
      intros Hr. apply Hres, Hok, Hr. }
    destruct res as [[] | e].
    - unfold bind, gets, lift. rewrite Ho. cbn [for_each]. unfold ret. rewrite Hx.
      cbn [parse_all].
      destruct (session_exit (net s1)) as [[[] | e] w1]; eexists; cbn;
        (split; [reflexivity | exact Hcalls]).
    - destruct (session_exit (net s1)) as [[[] | e'] w1]; eexists; cbn;
        (split; [reflexivity | exact Hcalls]). }
  destruct Hrun as (s' & -> & Hcalls). split; [reflexivity | exact Hcalls].
Qed.

(** With an empty page list the search asks nothing of the server and
    returns the empty list. *)
Lemma search_no_pages (query : ustr) (groups docs passages : Z) (w : W) :
  fst (search query groups [] docs passages (idle w)) = Return []
  /\ calls (snd (search query groups [] docs passages (idle w))) = [].
Proof.
  unfold search, try_except, search_body, async_with, bind, gets, lift, ret.
  cbn [idle net calls operations xml_results for_each].
  destruct (session_enter w) as [[[] | e] w0]; [| cbn; split; reflexivity].
  unfold ret. cbn.
  destruct (session_exit w0) as [[[] | e] w1]; cbn; split; reflexivity.
Qed.

End Facts.

Lemma search_all_refused_over_quota :
  fst (search (Net := over_quota) (P := SearchResults.sample_parser)
              (u "rocq") 20 [0%Z; 1%Z] 1 5 (idle 0)) = Return []
  /\ match fst (session_enter (Network := over_quota) 0) with
     | Raise _ =>
         calls (snd (search (Net := over_quota) (P := SearchResults.sample_parser)
                            (u "rocq") 20 [0%Z; 1%Z] 1 5 (idle 0))) = []
     | Return _ =>
         exists k,
           calls (snd (search (Net := over_quota) (P := SearchResults.sample_parser)
                              (u "rocq") 20 [0%Z; 1%Z] 1 5 (idle 0)))
           = map Post (firstn k [0%Z; 1%Z])
           /\ Nat.min 1 (List.length [0%Z; 1%Z]) <= k <= List.length [0%Z; 1%Z]
           /\ ((forall body w', body_read (session_post (Network := over_quota) body w')) ->
               k = List.length [0%Z; 1%Z])
     end.
Proof.
  apply (@search_all_refused nat over_quota SearchResults.sample_parser
           (u "rocq") 20 [0%Z; 1%Z] 1 5 0).
  intros body w'. unfold refused. cbn. do 2 eexists. split; reflexivity.
Defined.

Example over_quota_calls :
  calls (snd (search (Net := over_quota) (P := SearchResults.sample_parser)
                     (u "rocq") 20 [0%Z; 1%Z] 1 5 (idle 0)))
  = [Post 0; Post 1].
Proof. reflexivity. Qed.

End SearchBudget.

(** ** The records of a search *)

Module ParsedRecords.

Import YandexSearch.

#[local] Open Scope list_scope.

(** *** Vocabulary *)

(** A text as the cleaner leaves it: no match of the tag pattern, no white
    space at either end. *)
Definition clean (s : ustr) : Prop := ~ TextCleaning.has_tag s /\ strip s = s.

(** A record whose content is there and whose three texts are clean. *)
Definition clean_record (r : search_result) : Prop :=
  clean (title r)
  /\ clean (headline r)
  /\ exists c, content r = Some c /\ clean c.

(** A document whose texts carry markup and outer white space. *)
Definition marked_up : element :=
  Element (u "doc") None None
    [Element (u "title") (Some (u "  <b>Rocq</b> prover ")) None [];
     Element (u "headline") (Some (u "<i>a proof assistant</i>  ")) None []].

Definition marked_up_parser : XmlParser := {|
  fromstring := fun _ => Return (Element (u "yandexsearch") None None [marked_up])
|}.

(** *** Facts *)

Lemma cleaned_is_clean (text : ustr) : clean (_clean_text text).
Proof.
  unfold clean, _clean_text. destruct text as [| c r]; cbn [nonempty negb].
  - split; [| reflexivity]. intros (before & body & after & H & _). now destruct before.
  - split.
    + apply TextCleaning.tag_free_no_tag, TextCleaning.tag_free_strip,
        TextCleaning.sub_tags_tag_free.
    + apply TextCleaning.strip_idempotent.
Qed.

Lemma extract_doc_clean (doc : element) : clean_record (extract_doc doc).
Proof.
  unfold clean_record, extract_doc. cbn [title headline content].
  split; [apply cleaned_is_clean |]. split; [apply cleaned_is_clean |].
  eexists. split; [reflexivity | apply cleaned_is_clean].
Qed.

Section Facts.

Context {W : Type} {Net : Network W} {P : XmlParser}.

Lemma parse_clean (xml_content : ustr) :
  exists records,
    _parse_search_results xml_content = Return records
    /\ Forall clean_record records.
Proof.
  unfold _parse_search_results. rewrite SearchResults.parse_search_results_run.
  eexists. split; [reflexivity |].
  destruct (fromstring xml_content) as [root | e]; [| constructor].
  rewrite SearchResults.extracted_total. apply Forall_forall. intros r Hin.
  apply in_map_iff in Hin as (doc & <- & _). apply extract_doc_clean.
Qed.

Lemma parse_all_clean (xmls : list ustr) :
  exists records, parse_all xmls = Return records /\ Forall clean_record records.
Proof.
  induction xmls as [| xml xmls (l' & Hrest & Hl')]; [exists []; split; [reflexivity | constructor] |].
  destruct (parse_clean xml) as (l & Hparse & Hl).
  exists (l ++ l'). cbn [parse_all]. rewrite Hparse, Hrest.
  split; [reflexivity |]. apply Forall_app. now split.
Qed.

(** What the pipeline returns, when it returns, is what the payloads parse
    to. *)
Lemma search_body_parsed (query : ustr) (groups : Z) (pages : list Z) (docs passages : Z)
    (s s' : search_state W) (records : list search_result) :
  search_body query groups pages docs passages s = (Return records, s') ->
  exists xmls, parse_all xmls = Return records.
Proof.
  unfold search_body, async_with.
  destruct (session_enter (net s)) as [[[] | e] w]; [| discriminate].
  match goal with
  | |- context [(?body) {| net := w; calls := ?c; operations := ?o; xml_results := ?x |}] =>
      destruct (body {| net := w; calls := c; operations := o; xml_results := x |})
        as [r s1] eqn:Hbody
  end.
  destruct (session_exit (net s1)) as [[[] | e] w1]; [| discriminate].
  intros [= -> _]. unfold bind, gets, lift in Hbody.
  destruct (for_each (submit query groups docs passages) pages _) as [[[] | e] s2];
    [| discriminate].
  destruct (for_each poll_operation (operations s2) s2) as [[[] | e] s3]; [| discriminate].
  injection Hbody as Hl _. eauto.
Qed.

(** X13. Every record a search returns has its content, and its title, its
    headline and its content are as the cleaner leaves a text: without a
    match of the tag pattern and without white space at either end. *)
Theorem search_records_clean (query : ustr) (groups : Z) (pages : list Z)
    (docs passages : Z) (s : search_state W) :
  exists records,
    fst (search query groups pages docs passages s) = Return records
    /\ Forall clean_record records.
Proof.
  unfold search, try_except, ret.
  destruct (search_body query groups pages docs passages s) as [[l | e] s'] eqn:Hbody.
  - exists l. split; [reflexivity |].
    destruct (search_body_parsed _ _ _ _ _ _ Hbody) as [xmls Hl].
    destruct (parse_all_clean xmls) as (l' & Hl' & Hclean). congruence.
  - exists []. split; [reflexivity | constructor].
Qed.

End Facts.

Example marked_up_record :
  option_map (fun r => (title r, headline r, content r))
             (match _parse_search_results (P := marked_up_parser) [] with
              | Return l => hd_error l
              | Raise _ => None
              end)
  = Some (u "Rocq prover", u "a proof assistant", Some (u "a proof assistant")).
Proof. reflexivity. Qed.

End ParsedRecords.

(** ** More on the agent loop *)

Module AgentRuns.

Import MCPClient.
Import AgentLoop.

#[local] Open Scope list_scope.

(** *** Vocabulary *)


(** An entry of the catalog that is a [Tool] object with a description. *)
Definition described (entry : catalog_entry) : Prop :=
  match entry with
  | ToolObject t => tool_description t <> None
  | ToolJson _ => False
  end.

(** A client with two tools, both described; the schema of the second is an
    empty list. *)
Definition two_tools : client :=
  {| instructions := Some "assist";
     available_tools :=
       [ToolObject {| tool_name := "search_internet"; tool_description := Some "Search";
                      tool_inputSchema := None |};
        ToolObject {| tool_name := "fetch"; tool_description := Some "Fetch a page";
                      tool_inputSchema := Some (JList []) |}];
     has_mcp_client := false; exit_stack := Holds |}.

(** The HTTP side, with the catalog as the [/tools] reply lists it. *)
Definition http_catalog : client :=
  {| instructions := Some "assist";
     available_tools :=
       [ToolJson (JDict [("name", JString "search_internet");
                         ("description", JString "Search");
                         ("inputSchema", JDict [])])];
     has_mcp_client := true; exit_stack := Holds |}.

(** *** Facts *)

Section Facts.

Context {W : Type} {B : Backend W}.

(** [_tools_description] returns exactly on the catalogs whose entries are
    all described tools, and then lists the tools by name, in order. *)
Lemma tools_description_cases (tools : list catalog_entry) :
  match _tools_description tools with
  | Return l => Forall described tools
  | Raise _ => ~ Forall described tools
  end.
Proof.
  induction tools as [| [t | x] tools IH]; cbn [_tools_description].
  - constructor.
  - destruct (tool_description t) as [d |] eqn:Hd.
    + destruct (_tools_description tools) as [l | e].
      * constructor; [cbn; congruence | exact IH].
      * intros Hall. inversion Hall; subst. now apply IH.
    + intros Hall. inversion Hall as [| ? ? Ht _]; subst. now apply Ht.
  - intros Hall. inversion Hall as [| ? ? Ht _]; subst. exact Ht.
Qed.



Lemma system_message_cases (c : client) :
  match _create_system_message c with
  | Return _ => Forall described (available_tools c)
  | Raise _ => ~ Forall described (available_tools c)
  end.
Proof.
  unfold _create_system_message.
  pose proof (tools_description_cases (available_tools c)) as H.
  now destruct (_tools_description (available_tools c)).
Qed.

(** The first iteration always runs. *)
Lemma loop_starts (c : client) (tools : list llm_tool) (i : nat) (range : list nat)
    (s : frame W) :
  exists events,
    log (snd (for_each (iteration c tools) (i :: range) s))
    = log s ++ LogIteration (i + 1) :: LLMRequest false :: events.
Proof.
  destruct (iteration_effect c tools i s)
    as (fl & ev & ms & fr & s1 & Hrun & [L1 _ _] & _).
  cbn [for_each]. unfold bind at 1. rewrite Hrun. destruct fl.
  - destruct (main_loop_effect c tools range s1)
      as (k & ev2 & ts2 & last2 & fr2 & s2 & Hrest & [L2 _ _] & _).
    rewrite Hrest. cbn [snd]. exists (ev ++ ev2). rewrite L2, L1, <- app_assoc. reflexivity.
  - exists ev. exact L1.
Qed.

(** X14. When the first reply of the model carries no tool call, that reply
    is the whole run: the model is called once, no tool is called, the
    conversation stays at its two opening messages, and the answer is the
    content of the reply, or the sentinel when the content is empty or
    missing. *)
Theorem first_plain_reply_is_the_answer (c : client) (query : string) (w w' : W)
    (text : string) (tools : list llm_tool) (r : llm_response) :
  _create_system_message c = Return text ->
  _format_tools_for_llm c = Return tools ->
  llm_call (opening text query) tools w = (Return r, w') ->
  resp_tool_calls r = [] ->
  fst (process_query c query (entry w))
  = Return (if truthy (resp_content r) then get_default (resp_content r) "" else sentinel)
  /\ log (snd (process_query c query (entry w))) = [LogIteration 1; LLMRequest false]
  /\ messages (snd (process_query c query (entry w))) = opening text query.
Proof.
  intros Hsetup Htools Hcall Hnone. rewrite (process_query_loop c query w Hsetup Htools).
  change (seq 0 max_iterations) with (0 :: seq 1 9). cbn [fst snd].
  assert (Hloop : exists s',
             for_each (iteration c tools) (0 :: seq 1 9) (opened w text query)
             = (Return tt, s')
             /\ grows (opened w text query) s' [LogIteration 1; LLMRequest false] []
                      (content_fragment r)).
  { cbn [for_each]. unfold bind. rewrite iteration_run.
    destruct (@body_no_tool_calls W B c tools 0
                (snd (record_event (LogIteration (0 + 1)) (opened w text query)))
                r w' Hcall Hnone) as (s' & Hrun & G).
    rewrite Hrun. exists s'. split; [reflexivity |]. now apply grows_logged in G. }
  destruct Hloop as (s' & -> & [L M F]). cbn [snd fst].
  cbn [opened log messages final_text app] in L, M, F.
  rewrite L, M, F, app_nil_r. repeat split.
  unfold content_fragment. now destruct (truthy (resp_content r)).
Qed.

(** X15. The model is asked at least once exactly when every entry of the
    catalog is a [Tool] object with a description: then the first iteration
    always runs, and otherwise (a description that is [None], or an entry
    that is the JSON of the [/tools] reply and has no attribute [name]) the
    set-up raises before anything is asked. *)
Theorem model_asked_iff_described (c : client) (query : string) (w : W) :
  1 <= model_calls false (log (snd (process_query c query (entry w))))
  <-> Forall described (available_tools c).
Proof.
  pose proof (system_message_cases c) as Hcases.
  destruct (_create_system_message c) as [text | e] eqn:Hsetup.
  - split; [intros _; exact Hcases | intros _].
    destruct (tools_after_system_message c Hsetup) as [tools Htools].
    rewrite (process_query_loop c query w Hsetup Htools). cbn [snd].
    change (seq 0 max_iterations) with (0 :: seq 1 9).
    destruct (loop_starts c tools 0 (seq 1 9) (opened w text query)) as (events & ->).
    cbn [opened log app]. unfold model_calls. cbn. lia.
  - rewrite (process_query_setup_raises c query w Hsetup). cbn [snd entry log].
    split; [cbn; lia | intros H; now apply Hcases in H].
Qed.

(** X16. The conversation a run leaves is empty when the set-up raised, and
    otherwise the two opening messages followed by whole turns: each
    assistant message that carries tool calls, then one tool message for each
    of its calls, in order. A reply without tool calls is not recorded. Only
    a last turn may be cut short, at the first of its tool calls that cannot
    be read; the read that raised is then the failure that ended the loop,
    and its report is the answer. *)
Theorem conversation_of_whole_turns (c : client) (query : string) (w : W) :
  match _create_system_message c with
  | Return text =>
      exists turns last,
        messages (snd (process_query c query (entry w))) = opening text query ++ turns ++ last
        /\ answered turns
        /\ (last = []
            \/ (cut_turn last
                /\ exists i e,
                     fst (process_query c query (entry w))
                     = Return (failure_fragment i e)))
  | Raise _ => messages (snd (process_query c query (entry w))) = []
  end.
Proof.
  destruct (_create_system_message c) as [text | e] eqn:Hsetup.
  - destruct (process_query_setup_returns c query w Hsetup)
      as (tools & k & turns & last & s' & _ & Hrun & Hm & Ha & Hlast & _ & _ & _ & _ & Hfail).
    rewrite Hrun. cbn [fst snd]. exists turns, last. split; [exact Hm |].
    split; [exact Ha |]. destruct Hlast as [-> | [Hcut Hloop]]; [now left | right].
    split; [exact Hcut |].
    destruct (loop_failure c tools (seq 0 max_iterations) (opened w text query))
      as [[i e'] |]; [| congruence].
    destruct Hfail as (pre & -> & _). exists i, e'. now rewrite select_result_snoc.
  - now rewrite (process_query_setup_raises c query w Hsetup).
Qed.


End Facts.

Lemma first_plain_reply_is_the_answer_scripted :
  fst (process_query (B := scripted) stdio_client_side "q" (entry 1)) = Return "done"
  /\ log (snd (process_query (B := scripted) stdio_client_side "q" (entry 1)))
     = [LogIteration 1; LLMRequest false]
  /\ messages (snd (process_query (B := scripted) stdio_client_side "q" (entry 1)))
     = opening ("assist" ++ nl ++ nl
                ++ "У тебя есть доступ к следующим инструментам:" ++ nl ++ "[]") "q".
Proof.
  apply (@first_plain_reply_is_the_answer nat scripted stdio_client_side "q" 1 2
           ("assist" ++ nl ++ nl
            ++ "У тебя есть доступ к следующим инструментам:" ++ nl ++ "[]")
           [] {| resp_content := Some "done"; resp_tool_calls := [] |});
    reflexivity.
Defined.

Example two_tools_views :
  option_map (map ts_name)
             (match _tools_description (B := scripted) (available_tools two_tools) with
              | Return l => Some l
              | Raise _ => None
              end)
  = Some ["search_internet"; "fetch"]
  /\ _format_tools_for_llm two_tools
     = Return [{| lt_name := "search_internet"; lt_description := Some "Search";
                  lt_parameters := JDict [] |};
               {| lt_name := "fetch"; lt_description := Some "Fetch a page";
                  lt_parameters := JDict [] |}].
Proof. split; reflexivity. Qed.

(** On the HTTP side a catalog that is not empty stops every query at the
    set-up. *)
Example http_catalog_answer :
  process_query (B := scripted) http_catalog "q" (entry 0)
  = (Return "Критическая ошибка при обработке запроса: 'dict' object has no attribute 'name'",
     entry 0).
Proof. reflexivity. Qed.

End AgentRuns.

(** ** Repeated teardown *)

Module TeardownRuns.

Import MCPClient.
Import Teardown.

#[local] Open Scope list_scope.

(** *** Vocabulary *)

(** The close calls of a call of [cleanup] that finds the exit stack
    cleared or missing. *)
Definition later_steps (c : client) : list close_step :=
  [CloseHttpClient] ++ (if has_mcp_client c then [CloseMcpClient] else []).

(** The number of times the exit stack was closed. *)
Definition exit_stack_closes (steps : list close_step) : nat :=
  List.length (filter (fun step => match step with CloseExitStack => true | _ => false end)
                      steps).

Section Runs.

Context {W : Type} {R : Resources W}.

(** [n] calls of [cleanup] in succession. *)
Fixpoint cleanups (n : nat) (s : teardown W) : teardown W :=
  match n with
  | 0 => s
  | S n' => cleanups n' (snd (cleanup s))
  end.

End Runs.

(** *** Facts *)

Lemma later_steps_silent (c : client) (n : nat) :
  exit_stack_closes (List.concat (repeat (later_steps c) n)) = 0.
Proof.
  unfold exit_stack_closes, later_steps.
  induction n as [| n IH]; [reflexivity |].
  cbn [repeat List.concat]. rewrite filter_app, length_app, IH.
  now destruct (has_mcp_client c).
Qed.

Section Facts.

Context {W : Type} {R : Resources W}.

Lemma cleanups_cleared (n : nat) (s : teardown W) :
  exit_stack (td_self s) <> Holds ->
  td_steps (cleanups n s)
  = td_steps s ++ List.concat (repeat (later_steps (td_self s)) n).
Proof.
  revert s. induction n as [| n IH]; intros s Hcleared; cbn [cleanups repeat List.concat].
  - now rewrite app_nil_r.
  - destruct (cleanup_effect s) as (s1 & Hrun & Hsteps & Hmcp & Hstack).
    rewrite Hrun. cbn [snd]. rewrite IH.
    + rewrite Hsteps, <- app_assoc. unfold later_steps, due_steps. rewrite Hmcp.
      destruct (exit_stack (td_self s)); [| | congruence]; now rewrite app_nil_r.
    + rewrite Hstack. now destruct (hasattr (exit_stack (td_self s))).
Qed.

(** X18. However often [cleanup] is called, the exit stack is closed at most
    once, by the first call and only when it is there; every call closes the
    HTTP client again and, when the client has one, the tool client. *)
Theorem exit_stack_closed_once (n : nat) (c : client) (w : W) :
  td_steps (cleanups (S n) (at_rest c w))
  = due_steps c ++ List.concat (repeat (later_steps c) n)
  /\ exit_stack_closes (td_steps (cleanups (S n) (at_rest c w)))
     = match exit_stack c with
       | Holds => 1
       | _ => 0
       end.
Proof.
  assert (Hsteps : td_steps (cleanups (S n) (at_rest c w))
                   = due_steps c ++ List.concat (repeat (later_steps c) n)).
  { cbn [cleanups]. destruct (cleanup_effect (at_rest c w)) as (s1 & Hrun & Hs & Hmcp & Hstack).
    rewrite Hrun. cbn [snd]. rewrite cleanups_cleared.
    - rewrite Hs. cbn [at_rest td_steps td_self app]. unfold later_steps. now rewrite Hmcp.
    - rewrite Hstack. now destruct (hasattr (exit_stack (td_self (at_rest c w)))). }
  split; [exact Hsteps |]. rewrite Hsteps.
  unfold exit_stack_closes. rewrite filter_app, length_app.
  fold (exit_stack_closes (List.concat (repeat (later_steps c) n))).
  rewrite later_steps_silent. unfold due_steps.
  destruct (has_mcp_client c), (exit_stack c); reflexivity.
Qed.

End Facts.

Example three_cleanups :
  td_steps (cleanups (R := all_failing) 3 (at_rest connected tt))
  = [CloseHttpClient; CloseMcpClient; CloseExitStack;
     CloseHttpClient; CloseMcpClient; CloseHttpClient; CloseMcpClient].
Proof. reflexivity. Qed.

End TeardownRuns.

(** ** The gateway: [message_processor.py], [api.py], [telegram_adapter.py]
    and the message endpoint of [gateway.py] *)

Module Gateway.

Import YandexSearch.
Import SearchTool.

#[local] Open Scope list_scope.

(** *** Data ([core/models.py]) *)

Inductive ClientType : Type := TELEGRAM | WEB | CLI.

Inductive MessageType : Type := TEXT | COMMAND | FILE | IMAGE | AUDIO | VIDEO.

Definition ClientType_eqb (a b : ClientType) : bool :=
  match a, b with
  | TELEGRAM, TELEGRAM | WEB, WEB | CLI, CLI => true
  | _, _ => false
  end.

(** The fields of [UnifiedMessage] the gateway reads. *)
Record UnifiedMessage : Type := {
  msg_id : ustr;
  client_type : ClientType;
  message_type : MessageType;
  msg_content : ustr;
  user_id : ustr;
  user_name : option ustr
}.

Record UnifiedResponse : Type := {
  message_id : ustr;
  resp_client_type : ClientType;
  resp_content : ustr;
  response_type : MessageType
}.

(** [AdapterStatus]; [last_activity] is a reading of the clock. *)
Record AdapterStatus : Type := {
  is_healthy : bool;
  last_activity : option Z;
  error_count : nat;
  message_count : nat
}.

(** [MessageProcessor.stats]: [messages_by_client] has a key for each client
    type from the start. *)
Record stats : Type := {
  total_messages : nat;
  messages_by_client : ClientType -> nat;
  errors : nat
}.

(** What the endpoint answers: the JSON body of a 200, or an
    [HTTPException]. *)
Inductive http_reply : Type :=
| Ok (response : ustr)
| HTTPException (status_code : Z) (detail : string).

(** *** The outside *)
Class Services (W : Type) : Type := {
  (* await self.main_bot_client.process_query(message) *)
  client_process_query : ustr -> W -> result ustr * W;
  (* datetime.now() *)
  now : W -> Z;
  (* str(datetime.now() - self.stats["start_time"]) *)
  uptime : W -> ustr
}.

(** The processor, the adapter, the [API] object and the world. [Api.__init__]
    catches what its body raises, so [main_bot_client] may be missing. *)
Record gateway (W : Type) : Type := {
  world : W;
  has_main_bot_client : bool;
  gw_stats : stats;
  status : AdapterStatus
}.

Section Handlers.

Context {W : Type} {Sv : Services W}.

Definition set_stats (st : stats) (s : gateway W) : gateway W :=
  {| world := world s; has_main_bot_client := has_main_bot_client s;
     gw_stats := st; status := status s |}.

Definition set_status (a : AdapterStatus) (s : gateway W) : gateway W :=
  {| world := world s; has_main_bot_client := has_main_bot_client s;
     gw_stats := gw_stats s; status := a |}.

Definition perform {A} (op : W -> result A * W) : M (gateway W) A :=
  fun s =>
    let (r, w) := op (world s) in
    (r, {| world := w; has_main_bot_client := has_main_bot_client s;
           gw_stats := gw_stats s; status := status s |}).

(** *** [Api.process_query] ([api.py]). [list_tools()] is not awaited: the
    coroutine object it makes is true, so the warning is never logged. *)
Definition api_process_query (message : ustr) : M (gateway W) ustr :=
  try_except
    (has <- gets (@has_main_bot_client W) ;;
     if has
     then perform (client_process_query message)
     else raise (OtherException "'Api' object has no attribute 'main_bot_client'"))
    (fun e => ret (t "Ошибка при обработке запроса: " ++ t (str_exn e))).

(** *** [MessageProcessor] *)

Definition _get_help_text : ustr :=
  t "Доступные команды:" ++ newline
  ++ t "/start - приветствие" ++ newline
  ++ t "/status - статус системы" ++ newline
  ++ t "/help - справка" ++ newline ++ newline
  ++ t "Вы можете отправлять любые текстовые сообщения для обработки.".

Definition _get_status_text : M (gateway W) ustr :=
  fun s =>
    (Return (strip (newline
                    ++ t "Статус Gateway:" ++ newline
                    ++ t "• Время работы: " ++ uptime (world s) ++ newline
                    ++ t "• Всего сообщений: " ++ ustr_nat (total_messages (gw_stats s))
                    ++ newline
                    ++ t "• Ошибок: " ++ ustr_nat (errors (gw_stats s)) ++ newline
                    ++ t "• Сообщений по типам:" ++ newline
                    ++ t "  - Telegram: "
                    ++ ustr_nat (messages_by_client (gw_stats s) TELEGRAM) ++ newline
                    ++ u "        ")),
     s).

(** [message.user_name or message.user_id] *)
Definition name_or_id (message : UnifiedMessage) : ustr :=
  match user_name message with
  | Some (c :: name) => c :: name
  | _ => user_id message
  end.

Definition _handle_command (message : UnifiedMessage) : M (gateway W) ustr :=
  let command := strip (msg_content message) in
  if ustr_eqb command (u "/start") then
    ret (t "Привет, " ++ name_or_id message
         ++ t "! Я интеллектуальный помощник с доступом к интернет-поиску. Задавай любые вопросы — буду рад ответить! 😊")
  else if ustr_eqb command (u "/status") then _get_status_text
  else if ustr_eqb command (u "/help") then ret _get_help_text
  else ret (t "Неизвестная команда: " ++ command).

(** For a message that is neither a command nor a text no branch binds
    [response_content], and reading it raises [UnboundLocalError]. *)
Definition _generate_response (message : UnifiedMessage) : M (gateway W) UnifiedResponse :=
  response_content <-
    match message_type message with
    | COMMAND => _handle_command message
    | TEXT =>
        try_except
          (api_process_query (msg_content message))
          (fun e => ret (t "Сообщение не обработано: " ++ t (str_exn e)))
    | _ =>
        raise (OtherException
                 "cannot access local variable 'response_content' where it is not associated with a value")
    end ;;
  ret {| message_id := msg_id message; resp_client_type := client_type message;
         resp_content := response_content; response_type := TEXT |}.

(** [self.stats["total_messages"] += 1] and
    [self.stats["messages_by_client"][message.client_type] += 1] *)
Definition count_message (c : ClientType) (st : stats) : stats :=
  {| total_messages := total_messages st + 1;
     messages_by_client :=
       fun c' => if ClientType_eqb c' c
                 then messages_by_client st c' + 1
                 else messages_by_client st c';
     errors := errors st |}.

(** [self.stats["errors"] += 1] *)
Definition count_error (st : stats) : stats :=
  {| total_messages := total_messages st;
     messages_by_client := messages_by_client st;
     errors := errors st + 1 |}.

Definition process_message (message : UnifiedMessage) : M (gateway W) UnifiedResponse :=
  try_except
    (modify (fun s => set_stats (count_message (client_type message) (gw_stats s)) s) ;;
     _generate_response message)
    (fun e =>
       modify (fun s => set_stats (count_error (gw_stats s)) s) ;;
       ret {| message_id := msg_id message; resp_client_type := client_type message;
              resp_content :=
                t "Произошла ошибка при обработке сообщения: " ++ t (str_exn e);
              response_type := TEXT |}).

(** *** [TelegramAdapter.handle_unified_message] *)
Definition handle_unified_message (message : UnifiedMessage)
  : M (gateway W) UnifiedResponse :=
  try_except
    (healthy <- gets (fun s => is_healthy (status s)) ;;
     if negb healthy
     then ret {| message_id := msg_id message; resp_client_type := client_type message;
                 resp_content := t "Telegram адаптер не готов к работе";
                 response_type := TEXT |}
     else
       response <- process_message message ;;
       modify (fun s =>
                 set_status {| is_healthy := is_healthy (status s);
                               last_activity := Some (now (world s));
                               error_count := error_count (status s);
                               message_count := message_count (status s) + 1 |} s) ;;
       ret response)
    (fun e =>
       modify (fun s =>
                 set_status {| is_healthy := is_healthy (status s);
                               last_activity := last_activity (status s);
                               error_count := error_count (status s) + 1;
                               message_count := message_count (status s) |} s) ;;
       ret {| message_id := msg_id message; resp_client_type := client_type message;
              resp_content :=
                t "Произошла ошибка при обработке сообщения: " ++ t (str_exn e);
              response_type := TEXT |}).

(** *** [unified_message_handler] ([gateway.py])

    The table of processors has the one key [ClientType.TELEGRAM]. The first
    handler catches the [KeyError] of the lookup and any [KeyError] of the
    processor; [is_key_error] tells which exceptions are of that class. *)
Definition unified_message_handler (is_key_error : exn -> bool) (message : UnifiedMessage)
    (s : gateway W) : http_reply * gateway W :=
  match client_type message with
  | TELEGRAM =>
      match handle_unified_message message s with
      | (Return response, s') => (Ok (resp_content response), s')
      | (Raise e, s') =>
          if is_key_error e
          then (HTTPException 400 "Unsupported client type", s')
          else (HTTPException 500 "Internal server error", s')
      end
  | _ => (HTTPException 400 "Unsupported client type", s)
  end.

(** The requests served one after the other. *)
Fixpoint serve (is_key_error : exn -> bool) (requests : list UnifiedMessage)
    (s : gateway W) : list http_reply * gateway W :=
  match requests with
  | [] => ([], s)
  | message :: rest =>
      let (reply, s1) := unified_message_handler is_key_error message s in
      let (replies, s2) := serve is_key_error rest s1 in
      (reply :: replies, s2)
  end.

(** The messages processed one after the other. *)
Fixpoint process_all (messages : list UnifiedMessage) (s : gateway W)
  : list (result UnifiedResponse) * gateway W :=
  match messages with
  | [] => ([], s)
  | message :: rest =>
      let (r, s1) := process_message message s in
      let (rs, s2) := process_all rest s1 in
      (r :: rs, s2)
  end.

(** The gateway at start: [MessageProcessor()] and [TelegramAdapter], before
    [initialize]. *)
Definition started (w : W) (has_client : bool) : gateway W :=
  {| world := w; has_main_bot_client := has_client;
     gw_stats := {| total_messages := 0; messages_by_client := fun _ => 0; errors := 0 |};
     status := {| is_healthy := false; last_activity := None;
                  error_count := 0; message_count := 0 |} |}.

(** [TelegramAdapter.initialize] *)
Definition initialize (s : gateway W) : gateway W :=
  set_status {| is_healthy := true; last_activity := last_activity (status s);
                error_count := error_count (status s);
                message_count := message_count (status s) |} s.

End Handlers.

(** *** Vocabulary *)

(** The message types [_generate_response] has a branch for. *)
Definition supported (m : UnifiedMessage) : bool :=
  match message_type m with
  | TEXT | COMMAND => true
  | _ => false
  end.

Definition from_client (c : ClientType) (m : UnifiedMessage) : bool :=
  ClientType_eqb (client_type m) c.

Definition number (keep : UnifiedMessage -> bool) (requests : list UnifiedMessage) : nat :=
  List.length (filter keep requests).

Definition is_server_error (reply : http_reply) : bool :=
  match reply with
  | HTTPException 500 _ => true
  | _ => false
  end.

(** The status the endpoint answers a request with. *)
Definition status_of (reply : http_reply) : Z :=
  match reply with
  | Ok _ => 200
  | HTTPException code _ => code
  end.

(** A model client that echoes, and one that always raises. *)
Definition echo : Services nat := {|
  client_process_query := fun q w => (Return q, S w);
  now := fun w => Z.of_nat w;
  uptime := fun _ => u "0:00:01"
|}.

Definition broken : Services nat := {|
  client_process_query := fun _ w => (Raise (OtherException "connection lost"), S w);
  now := fun w => Z.of_nat w;
  uptime := fun _ => u "0:00:01"
|}.

Definition request (c : ClientType) (k : MessageType) (text : string) : UnifiedMessage :=
  {| msg_id := u "1"; client_type := c; message_type := k; msg_content := u text;
     user_id := u "42"; user_name := None |}.

(** *** Facts *)

Ltac conjs := repeat match goal with |- _ /\ _ => split end.

Section Facts.

Context {W : Type} {Sv : Services W}.

(** [Api.process_query] returns, and leaves everything but the world as it
    is. *)
Lemma api_process_query_effect (message : ustr) (s : gateway W) :
  exists text w,
    api_process_query message s
    = (Return text,
       {| world := w; has_main_bot_client := has_main_bot_client s;
          gw_stats := gw_stats s; status := status s |}).
Proof.
  unfold api_process_query, try_except, bind, gets, perform, raise, ret.
  destruct (has_main_bot_client s) eqn:Hhas.
  - destruct (client_process_query message (world s)) as [[text | e] w'];
      rewrite ?Hhas; do 2 eexists; reflexivity.
  - eexists. exists (world s). destruct s as [w has st a].
    cbn [has_main_bot_client] in Hhas. subst has. reflexivity.
Qed.

Lemma handle_command_effect (message : UnifiedMessage) (s : gateway W) :
  exists text, _handle_command message s = (Return text, s).
Proof.
  unfold _handle_command, _get_status_text, ret.
  destruct (ustr_eqb _ (u "/start")); [eexists; reflexivity |].
  destruct (ustr_eqb _ (u "/status")); [eexists; reflexivity |].
  destruct (ustr_eqb _ (u "/help")); eexists; reflexivity.
Qed.

(** One call of [process_message]: it returns a response to the message,
    counts the message, and counts an error exactly when the message is
    neither a text nor a command. *)
Lemma process_message_effect (message : UnifiedMessage) (s : gateway W) :
  exists text w,
    process_message message s
    = (Return {| message_id := msg_id message; resp_client_type := client_type message;
                 resp_content := text; response_type := TEXT |},
       {| world := w; has_main_bot_client := has_main_bot_client s;
          gw_stats :=
            (if supported message
             then count_message (client_type message) (gw_stats s)
             else count_error (count_message (client_type message) (gw_stats s)));
          status := status s |}).
Proof.
  unfold process_message, _generate_response, supported.
  unfold try_except at 1. unfold bind at 1. unfold modify at 1. unfold bind at 1.
  destruct (message_type message).
  - unfold try_except at 1.
    destruct (api_process_query_effect (msg_content message)
                (set_stats (count_message (client_type message) (gw_stats s)) s))
      as (text & w & ->).
    unfold ret. cbn [set_stats has_main_bot_client gw_stats status world].
    do 2 eexists; reflexivity.
  - destruct (handle_command_effect message
                (set_stats (count_message (client_type message) (gw_stats s)) s))
      as (text & ->).
    unfold ret. unfold set_stats. do 2 eexists; reflexivity.
  - unfold raise, bind, modify, ret, set_stats.
    cbn [gw_stats world has_main_bot_client status]. do 2 eexists; reflexivity.
  - unfold raise, bind, modify, ret, set_stats.
    cbn [gw_stats world has_main_bot_client status]. do 2 eexists; reflexivity.
  - unfold raise, bind, modify, ret, set_stats.
    cbn [gw_stats world has_main_bot_client status]. do 2 eexists; reflexivity.
  - unfold raise, bind, modify, ret, set_stats.
    cbn [gw_stats world has_main_bot_client status]. do 2 eexists; reflexivity.
Qed.

(** The stats after a message was processed. *)
Lemma counted_stats (message : UnifiedMessage) (st : stats) :
  let st' := if supported message
             then count_message (client_type message) st
             else count_error (count_message (client_type message) st) in
  total_messages st' = total_messages st + 1
  /\ (forall c, messages_by_client st' c
                = messages_by_client st c + (if from_client c message then 1 else 0))
  /\ errors st' = errors st + (if supported message then 0 else 1).
Proof.
  unfold from_client.
  destruct (supported message); cbn [count_message count_error total_messages
    messages_by_client errors]; conjs; try lia;
    intros c; destruct (client_type message), c; cbn [ClientType_eqb]; lia.
Qed.

Lemma handler_healthy (is_key_error : exn -> bool) (message : UnifiedMessage)
    (s : gateway W) :
  is_healthy (status s) = true ->
  client_type message = TELEGRAM ->
  exists text w,
    unified_message_handler is_key_error message s
    = (Ok text,
       {| world := w; has_main_bot_client := has_main_bot_client s;
          gw_stats :=
            (if supported message
             then count_message (client_type message) (gw_stats s)
             else count_error (count_message (client_type message) (gw_stats s)));
          status := {| is_healthy := true; last_activity := Some (now w);
                       error_count := error_count (status s);
                       message_count := message_count (status s) + 1 |} |}).
Proof.
  intros Hhealthy Hclient. unfold unified_message_handler. rewrite Hclient.
  unfold handle_unified_message, try_except, bind, gets. rewrite Hhealthy. cbn [negb].
  destruct (process_message_effect message s) as (text & w & ->).
  unfold modify, ret, set_status.
  cbn [world has_main_bot_client gw_stats status is_healthy last_activity error_count
       message_count resp_content].
  rewrite ?Hhealthy, ?Hclient. exists text, w. reflexivity.
Qed.

Lemma handler_unhealthy (is_key_error : exn -> bool) (message : UnifiedMessage)
    (s : gateway W) :
  is_healthy (status s) = false ->
  client_type message = TELEGRAM ->
  unified_message_handler is_key_error message s
  = (Ok (t "Telegram адаптер не готов к работе"), s).
Proof.
  intros Hhealthy Hclient. unfold unified_message_handler. rewrite Hclient.
  unfold handle_unified_message, try_except, bind, gets, ret. rewrite Hhealthy.
  reflexivity.
Qed.

Lemma handler_other (is_key_error : exn -> bool) (message : UnifiedMessage)
    (s : gateway W) :
  client_type message <> TELEGRAM ->
  unified_message_handler is_key_error message s
  = (HTTPException 400 "Unsupported client type", s).
Proof.
  intros Hclient. unfold unified_message_handler.
  destruct (client_type message); [congruence | reflexivity | reflexivity].
Qed.

Lemma serve_effect (is_key_error : exn -> bool) (requests : list UnifiedMessage)
    (s : gateway W) :
  is_healthy (status s) = true ->
  map status_of (fst (serve is_key_error requests s))
  = map (fun m => if from_client TELEGRAM m then 200%Z else 400%Z) requests
  /\ is_healthy (status (snd (serve is_key_error requests s))) = true
  /\ total_messages (gw_stats (snd (serve is_key_error requests s)))
     = total_messages (gw_stats s) + number (from_client TELEGRAM) requests
  /\ (forall c,
        messages_by_client (gw_stats (snd (serve is_key_error requests s))) c
        = messages_by_client (gw_stats s) c
          + (if ClientType_eqb c TELEGRAM then number (from_client TELEGRAM) requests
             else 0))
  /\ errors (gw_stats (snd (serve is_key_error requests s)))
     = errors (gw_stats s)
       + number (fun m => from_client TELEGRAM m && negb (supported m)) requests
  /\ message_count (status (snd (serve is_key_error requests s)))
     = message_count (status s) + number (from_client TELEGRAM) requests
  /\ error_count (status (snd (serve is_key_error requests s))) = error_count (status s).
Proof.
  revert s. induction requests as [| m requests IH]; intros s Hhealthy.
  - cbn. conjs; auto; try lia. intros c. destruct (ClientType_eqb c TELEGRAM); lia.
  - cbn [serve]. unfold number, from_client. cbn [filter map].
    destruct (client_type m) eqn:Hclient; cbn [ClientType_eqb andb].
    + destruct (handler_healthy is_key_error m s Hhealthy Hclient) as (text & w & ->).
      match goal with
      | |- context [serve is_key_error requests ?s1] =>
          specialize (IH s1 eq_refl);
          destruct (serve is_key_error requests s1) as [replies s2]
      end.
      destruct IH as (Hst & Hh & Ht & Hc & He & Hm & Hx).
      destruct (counted_stats m (gw_stats s)) as (Ct & Cc & Ce).
      cbn [fst snd map status_of gw_stats status message_count error_count] in *.
      unfold number, from_client in *.
      rewrite Hst, Hh, Ht, Hm, Hx, He, Ct, Ce.
      conjs; auto.
      * cbn [List.length]. lia.
      * intros c. rewrite Hc, Cc, Hclient.
        destruct c; cbn [ClientType_eqb List.length]; lia.
      * destruct (supported m); cbn [negb filter List.length]; lia.
      * cbn [List.length]. lia.
    + rewrite handler_other by congruence.
      specialize (IH s Hhealthy). destruct (serve is_key_error requests s) as [replies s2].
      cbn [fst snd map status_of] in *. destruct IH as (-> & IH). exact (conj eq_refl IH).
    + rewrite handler_other by congruence.
      specialize (IH s Hhealthy). destruct (serve is_key_error requests s) as [replies s2].
      cbn [fst snd map status_of] in *. destruct IH as (-> & IH). exact (conj eq_refl IH).
Qed.

Lemma number_by_client (messages : list UnifiedMessage) :
  number (from_client TELEGRAM) messages + number (from_client WEB) messages
  + number (from_client CLI) messages
  = List.length messages.
Proof.
  unfold number, from_client. induction messages as [| m messages IH]; [reflexivity |].
  cbn [filter List.length]. destruct (client_type m); cbn [ClientType_eqb List.length]; lia.
Qed.

Lemma process_all_effect (messages : list UnifiedMessage) (s : gateway W) :
  Forall2 (fun m r => exists text,
             r = Return {| message_id := msg_id m; resp_client_type := client_type m;
                           resp_content := text; response_type := TEXT |})
          messages (fst (process_all messages s))
  /\ total_messages (gw_stats (snd (process_all messages s)))
     = total_messages (gw_stats s) + List.length messages
  /\ (forall c,
        messages_by_client (gw_stats (snd (process_all messages s))) c
        = messages_by_client (gw_stats s) c + number (from_client c) messages)
  /\ errors (gw_stats (snd (process_all messages s)))
     = errors (gw_stats s) + number (fun m => negb (supported m)) messages
  /\ status (snd (process_all messages s)) = status s.
Proof.
  revert s. induction messages as [| m messages IH]; intros s.
  - cbn. conjs; auto; try lia; intros c; unfold number; cbn; lia.
  - cbn [process_all]. destruct (process_message_effect m s) as (text & w & ->).
    match goal with
    | |- context [process_all messages ?s1] =>
        specialize (IH s1); destruct (process_all messages s1) as [rs s2]
    end.
    destruct IH as (Hrs & Ht & Hc & He & Hs).
    destruct (counted_stats m (gw_stats s)) as (Ct & Cc & Ce).
    cbn [fst snd gw_stats status] in *. unfold number in *. cbn [filter].
    rewrite Ht, He, Hs, Ct, Ce. conjs; auto.
    + constructor; [eexists; reflexivity | exact Hrs].
    + cbn [List.length]. lia.
    + intros c. rewrite Hc, Cc. destruct (from_client c m); cbn [List.length]; lia.
    + destruct (supported m); cbn [negb List.length]; lia.
Qed.

(** X19. [process_message] never raises, and its counters count: after any
    sequence of messages the processor has answered each one under its id and
    client type, [total_messages] is the number of messages, the entry of
    each client type in [messages_by_client] is the number of messages of
    that type, so that the three entries add up to [total_messages], and
    [errors] is the number of messages that are neither a text nor a command
    (for these no branch binds the response text). *)
Theorem processed_messages_are_counted (messages : list UnifiedMessage) (w : W)
    (has_client : bool) :
  let run := process_all messages (started w has_client) in
  Forall2 (fun m r => exists text,
             r = Return {| message_id := msg_id m; resp_client_type := client_type m;
                           resp_content := text; response_type := TEXT |})
          messages (fst run)
  /\ total_messages (gw_stats (snd run)) = List.length messages
  /\ (forall c, messages_by_client (gw_stats (snd run)) c
                = number (from_client c) messages)
  /\ messages_by_client (gw_stats (snd run)) TELEGRAM
     + messages_by_client (gw_stats (snd run)) WEB
     + messages_by_client (gw_stats (snd run)) CLI
     = total_messages (gw_stats (snd run))
  /\ errors (gw_stats (snd run)) = number (fun m => negb (supported m)) messages.
Proof.
  destruct (process_all_effect messages (started w has_client))
    as (Hrs & Ht & Hc & He & _).
  cbv zeta. cbn [started gw_stats total_messages messages_by_client errors Nat.add] in Ht, Hc, He.
  split; [exact Hrs |]. split; [exact Ht |]. split; [exact Hc |]. split; [| exact He].
  rewrite !Hc, Ht. apply number_by_client.
Qed.

(** X20. The message endpoint, once the adapter is initialized: it answers
    200 to every Telegram message and 400 to every other one, never 500. The
    processor counts exactly the Telegram messages, all of them under
    [telegram]; it counts as errors those that are neither a text nor a
    command; and the adapter counts every Telegram message and never an
    error. *)
Theorem served_requests_are_counted (is_key_error : exn -> bool)
    (requests : list UnifiedMessage) (w : W) (has_client : bool) :
  let run := serve is_key_error requests (initialize (started w has_client)) in
  map status_of (fst run)
  = map (fun m => if from_client TELEGRAM m then 200%Z else 400%Z) requests
  /\ total_messages (gw_stats (snd run)) = number (from_client TELEGRAM) requests
  /\ messages_by_client (gw_stats (snd run)) TELEGRAM
     = number (from_client TELEGRAM) requests
  /\ messages_by_client (gw_stats (snd run)) WEB = 0
  /\ messages_by_client (gw_stats (snd run)) CLI = 0
  /\ errors (gw_stats (snd run))
     = number (fun m => from_client TELEGRAM m && negb (supported m)) requests
  /\ message_count (status (snd run)) = number (from_client TELEGRAM) requests
  /\ error_count (status (snd run)) = 0.
Proof.
  destruct (serve_effect is_key_error requests (initialize (started w has_client)) eq_refl)
    as (Hst & _ & Ht & Hc & He & Hm & Hx).
  cbv zeta. rewrite Hst, Ht, He, Hm, Hx, !Hc. cbn. conjs; auto.
Qed.

(** X21. Before the adapter is initialized, and whenever it is not healthy,
    the endpoint leaves everything as it is: a Telegram message is answered
    with the fixed text, any other with 400, and nothing is counted. *)
Theorem unhealthy_adapter_is_inert (is_key_error : exn -> bool)
    (requests : list UnifiedMessage) (s : gateway W) :
  is_healthy (status s) = false ->
  serve is_key_error requests s
  = (map (fun m => if from_client TELEGRAM m
                   then Ok (t "Telegram адаптер не готов к работе")
                   else HTTPException 400 "Unsupported client type") requests,
     s).
Proof.
  intros Hhealthy. induction requests as [| m requests IH]; [reflexivity |].
  cbn [serve map]. unfold from_client at 1.
  destruct (client_type m) eqn:Hclient; cbn [ClientType_eqb].
  - rewrite (handler_unhealthy is_key_error m s Hhealthy Hclient). now rewrite IH.
  - rewrite handler_other by congruence. now rewrite IH.
  - rewrite handler_other by congruence. now rewrite IH.
Qed.

End Facts.

Lemma unhealthy_adapter_is_inert_started :
  serve (Sv := echo) (fun _ => false)
        [request TELEGRAM TEXT "hello"; request WEB TEXT "hello"] (started 0 true)
  = (map (fun m => if from_client TELEGRAM m
                   then Ok (t "Telegram адаптер не готов к работе")
                   else HTTPException 400 "Unsupported client type")
         [request TELEGRAM TEXT "hello"; request WEB TEXT "hello"],
     started 0 true).
Proof.
  apply (@unhealthy_adapter_is_inert nat echo (fun _ => false)
           [request TELEGRAM TEXT "hello"; request WEB TEXT "hello"] (started 0 true)).
  reflexivity.
Defined.

Example echo_run :
  let run := serve (Sv := echo) (fun _ => false)
                   [request TELEGRAM COMMAND " /help "; request TELEGRAM TEXT "hello";
                    request CLI TEXT "hello"; request TELEGRAM IMAGE "";
                    request TELEGRAM COMMAND "/status"]
                   (initialize (started 0 true)) in
  fst run
  = [Ok _get_help_text;
     Ok (u "hello");
     HTTPException 400 "Unsupported client type";
     Ok (t "Произошла ошибка при обработке сообщения: "
         ++ u "cannot access local variable 'response_content' where it is not associated with a value");
     Ok (t "Статус Gateway:" ++ newline
         ++ t "• Время работы: 0:00:01" ++ newline
         ++ t "• Всего сообщений: 4" ++ newline
         ++ t "• Ошибок: 1" ++ newline
         ++ t "• Сообщений по типам:" ++ newline
         ++ t "  - Telegram: 4")]
  /\ errors (gw_stats (snd run)) = 1
  /\ world (snd run) = 1.
Proof. vm_compute. repeat split. Qed.

Example broken_client_run :
  fst (process_message (Sv := broken) (request TELEGRAM TEXT "hello") (started 0 true))
  = Return {| message_id := u "1"; resp_client_type := TELEGRAM;
              resp_content := t "Ошибка при обработке запроса: connection lost";
              response_type := TEXT |}.
Proof. vm_compute. reflexivity. Qed.

End Gateway.
